(** * pygount.analysis: line classification and encoding detection

    A shallow embedding of [pygount/analysis.py].  Python values are
    modelled as follows:
    - [str] is a list of Unicode code points ([N]); [bytes] is a list of
      [Byte.byte];
    - a pygments token type is the tuple of names on its path from the
      root [Token]; [ttype in parent] is the prefix test that pygments
      implements in [_TokenType.__contains__];
    - generators are the lists of the values they yield;
    - a call that may raise returns a [res]: [Ok v] or [Raise e]; the
      assertions [x is not None] hold by typing and are left out;
    - the file system, the codecs and the pygments lexers are the fields
      of a [World] record that the functions doing I/O take as argument. *)

From Stdlib Require Import List NArith Arith Lia Bool String Ascii.
From Stdlib Require Import Strings.Byte.
From stdpp Require Import gmap strings list fin_maps.
From Equations Require Import Equations.
From Equations.Prop Require Import Logic.
Import ListNotations.

Set Default Proof Using "Type".

(** ** Python's [str] and [bytes] *)

Abbreviation str := (list N).
Abbreviation bytes := (list byte).

#[export] Instance byte_eq_dec : EqDecision byte := Byte.byte_eq_dec.

(** A literal with ASCII characters only. *)
Definition u (s : string) : str :=
  map N_of_ascii (list_ascii_of_string s).

(** A [bytes] literal. *)
Definition b (s : string) : bytes :=
  map byte_of_ascii (list_ascii_of_string s).

Module Py.

Definition NL : N := 10.
Definition CR : N := 13.

Definition str_eqb (s t : str) : bool := bool_decide (s = t).

(** [c in chars] for a one-character [c]. *)
Definition char_in (c : N) (chars : str) : bool :=
  existsb (N.eqb c) chars.

(** [text.find('\n')]: the index of the first occurrence of [c], [None]
    standing for Python's -1. *)
Fixpoint find (c : N) (text : str) : option nat :=
  match text with
  | [] => None
  | x :: rest =>
      if N.eqb x c then Some 0
      else match find c rest with
           | Some i => Some (S i)
           | None => None
           end
  end.

(** [text.endswith('\n')] for a one-character suffix. *)
Fixpoint endswith (text : str) (c : N) : bool :=
  match text with
  | [] => false
  | [x] => N.eqb x c
  | _ :: rest => endswith rest c
  end.

(** [str.isspace] on one code point, as CPython's
    [_PyUnicode_IsWhitespace] has it. *)
Definition isspace (c : N) : bool :=
  ((9 <=? c) && (c <=? 13) || (28 <=? c) && (c <=? 32)
   || (c =? 133) || (c =? 160) || (c =? 5760)
   || (8192 <=? c) && (c <=? 8202)
   || (c =? 8232) || (c =? 8233) || (c =? 8239) || (c =? 8287)
   || (c =? 12288))%N.

(** Drop the leading characters that satisfy [p]. *)
Fixpoint lstrip_by (p : N -> bool) (text : str) : str :=
  match text with
  | [] => []
  | x :: rest => if p x then lstrip_by p rest else text
  end.

(** Drop the trailing characters that satisfy [p]. *)
Definition rstrip_by (p : N -> bool) (text : str) : str :=
  rev (lstrip_by p (rev text)).

(** [text.rstrip(chars)]. *)
Definition rstrip (chars : str) (text : str) : str :=
  rstrip_by (fun c => char_in c chars) text.

(** [text.strip()]. *)
Definition strip (text : str) : str :=
  rstrip_by isspace (lstrip_by isspace text).

(** [text.split('\n')]. *)
Fixpoint split (c : N) (text : str) : list str :=
  match text with
  | [] => [[]]
  | x :: rest =>
      if N.eqb x c then [] :: split c rest
      else match split c rest with
           | [] => [[x]]
           | l :: ls => (x :: l) :: ls
           end
  end.

(** ['\n'.join(lines)]. *)
Fixpoint join (c : N) (lines : list str) : str :=
  match lines with
  | [] => []
  | [l] => l
  | l :: ls => l ++ c :: join c ls
  end.

(** [text.replace('\r\n', '\n')]. *)
Fixpoint replace_crlf (text : str) : str :=
  match text with
  | [] => []
  | x :: rest =>
      match rest with
      | y :: rest' =>
          if N.eqb x CR && N.eqb y NL then NL :: replace_crlf rest'
          else x :: replace_crlf rest
      | [] => [x]
      end
  end.

(** [text.replace('\r', '\n')]. *)
Definition replace_cr (text : str) : str :=
  map (fun c => if N.eqb c CR then NL else c) text.

(** [data.decode('ascii', errors='replace')]: a byte above 127 becomes
    U+FFFD. *)
Definition decode_ascii_replace (data : bytes) : str :=
  map (fun x => let n := Byte.to_N x in
                if (n <? 128)%N then n else 65533%N) data.

(** Case of a character.  The only strings the program lowers are the
    names of pygments lexers, which are ASCII: a code point above 127
    is taken as uncased. *)
Definition is_ascii_upper (c : N) : bool := ((65 <=? c) && (c <=? 90))%N.
Definition is_ascii_lower (c : N) : bool := ((97 <=? c) && (c <=? 122))%N.

(** [text.lower()]. *)
Definition lower (text : str) : str :=
  map (fun c => if is_ascii_upper c then (c + 32)%N else c) text.

(** [text.islower()]: there is a cased character and no cased character
    is upper case. *)
Definition islower (text : str) : bool :=
  existsb is_ascii_lower text && negb (existsb is_ascii_upper text).

(** [data.readlines()] on a binary file: the lines, each with its
    terminating newline byte. *)
Fixpoint readlines_from (line : bytes) (data : bytes) : list bytes :=
  match data with
  | [] => match line with [] => [] | _ => [rev line] end
  | x :: rest =>
      if Byte.eqb x x0a then rev (x :: line) :: readlines_from [] rest
      else readlines_from (x :: line) rest
  end.

Definition readlines (data : bytes) : list bytes := readlines_from [] data.

End Py.

(** ** Tokens *)

(** A pygments token type: [Token.Comment.Single] is
    ["Comment"; "Single"]. *)
Abbreviation ttype := (list string).
Abbreviation token := (ttype * str)%type.

Module token.

Definition Comment : ttype := ["Comment"%string].
(** [token.String] is [Token.Literal.String]. *)
Definition String : ttype := ["Literal"%string; "String"%string].

(** [val in parent]: [val[:len(parent)] == parent]. *)
Definition contains (parent val : ttype) : bool :=
  bool_decide (take (length parent) val = parent).

End token.

(** ** The line delineator *)

(** The [while] loop of [_delined_tokens] on one token: the tokens it
    yields, the last [if] included. *)
Equations? delined_text (token_type : ttype) (token_text : str) : list token
  by wf (length token_text) lt :=
  delined_text token_type token_text with inspect (Py.find Py.NL token_text) => {
    | exist _ (Some newline_index) _ =>
        (token_type, take (newline_index + 1) token_text)
          :: delined_text token_type (drop (newline_index + 1) token_text);
    | exist _ None _ =>
        if Py.str_eqb token_text [] then [] else [(token_type, token_text)] }.
Proof.
  rewrite length_drop.
  assert (newline_index < length token_text); [|lia].
  clear delined_text. revert newline_index e.
  induction token_text as [|x rest IH]; simpl; intros i; [discriminate|].
  destruct (N.eqb x Py.NL); [intros [= <-]; lia|].
  destruct (Py.find Py.NL rest) as [j|]; [|discriminate].
  intros [= <-]. specialize (IH j eq_refl). lia.
Qed.

Definition _delined_tokens (tokens : list token) : list token :=
  flat_map (fun '(token_type, token_text) => delined_text token_type token_text)
           tokens.

(** ** The documentation reclassifier *)

(** [' \f\n\r\t'] *)
Definition WHITESPACE : str := [32; 12; 10; 13; 9]%N.

(** One turn of the loop of [_pythonized_comments]: from the state
    [is_after_colon] and a token to the next state and the token
    yielded. *)
Definition pythonized_step (is_after_colon : bool) (tok : token)
  : bool * token :=
  let '(token_type, token_text) := tok in
  if is_after_colon && token.contains token.String token_type then
    (is_after_colon, (token.Comment, token_text))
  else if Py.str_eqb token_text (u ":") then
    (true, (token_type, token_text))
  else if negb (token.contains token.Comment token_type) then
    let is_whitespace := length (Py.rstrip WHITESPACE token_text) =? 0 in
    if negb is_whitespace then (false, (token_type, token_text))
    else (is_after_colon, (token_type, token_text))
  else (is_after_colon, (token_type, token_text)).

Fixpoint pythonized_loop (is_after_colon : bool) (tokens : list token)
  : list token :=
  match tokens with
  | [] => []
  | tok :: rest =>
      let '(is_after_colon', yielded) := pythonized_step is_after_colon tok in
      yielded :: pythonized_loop is_after_colon' rest
  end.

Definition _pythonized_comments (tokens : list token) : list token :=
  pythonized_loop true tokens.

(** The value of [is_after_colon] once [tokens] have gone through the
    loop. *)
Definition pythonized_state (is_after_colon : bool) (tokens : list token)
  : bool :=
  fold_left (fun st tok => fst (pythonized_step st tok)) tokens is_after_colon.

(** ** Results and exceptions *)

Inductive exn :=
| OSError
| UnicodeDecodeError
| LookupError
| ClassNotFound
| AssertionError (msg : string)
| ConfigurationError.   (* raised by the tool around this module *)

Inductive res (A : Type) :=
| Ok (a : A)
| Raise (e : exn).
Arguments Ok {A} a.
Arguments Raise {A} e.

(** [x ← m; k] runs [k] unless [m] raised. *)
#[export] Instance res_bind : MBind res := fun A B f m =>
  match m with
  | Ok a => f a
  | Raise e => Raise e
  end.

(** ** Language configuration *)

Definition _LANGUAGE_TO_WHITE_WORDS_MAP : gmap str (list str) :=
  {[ u "python" := [u "pass"];
     u "sql" := [u "begin"; u "end"] ]}.

Definition white_characters (language_id : str) : res str :=
  if Py.islower language_id then Ok (u "()[]{};")
  else Raise (AssertionError "").

Definition white_code_words (language_id : str) : res (list str) :=
  if Py.islower language_id then
    Ok (default [] (_LANGUAGE_TO_WHITE_WORDS_MAP !! language_id))
  else Raise (AssertionError "").

(** ** The line classifier *)

(** A pygments lexer: its [name] and what [get_tokens] yields. *)
Record Lexer := {
  name : str;
  get_tokens : str -> list token
}.

(** The marks a token adds to [line_marks]. *)
Definition token_marks (white_text : str) (white_words : list str)
    (line_marks : gset string) (tok : token) : gset string :=
  let '(token_type, token_text) := tok in
  if token.contains token.Comment token_type then
    {["d"%string]} ∪ line_marks
  else if token.contains token.String token_type then
    {["s"%string]} ∪ line_marks
  else
    let is_white_text :=
      bool_decide (Py.strip token_text ∈ white_words)
      || Py.str_eqb (Py.rstrip white_text token_text) [] in
    if negb is_white_text then {["c"%string]} ∪ line_marks
    else line_marks.

(** The [for] loop of [_line_parts] and the [if] after it. *)
Fixpoint line_parts_loop (white_text : str) (white_words : list str)
    (line_marks : gset string) (tokens : list token) : list (gset string) :=
  match tokens with
  | [] => if bool_decide (1 <= size line_marks) then [line_marks] else []
  | (token_type, token_text) :: rest =>
      let line_marks :=
        token_marks white_text white_words line_marks (token_type, token_text) in
      if Py.endswith token_text Py.NL then
        line_marks :: line_parts_loop white_text white_words ∅ rest
      else line_parts_loop white_text white_words line_marks rest
  end.

Definition _line_parts (lexer : Lexer) (text : str)
  : res (list (gset string)) :=
  let tokens := _delined_tokens (get_tokens lexer text) in
  let tokens :=
    if Py.str_eqb (name lexer) (u "Python") then _pythonized_comments tokens
    else tokens in
  let language_id := Py.lower (name lexer) in
  chars ← white_characters language_id;
  let white_text := WHITESPACE ++ chars in
  white_words ← white_code_words language_id;
  Ok (line_parts_loop white_text white_words ∅ tokens).

(** ** Regular expressions

    The fragment of Python's [re] that the two patterns of the module
    use, with the backtracking order of [re]: a repetition is greedy, and
    gives characters back one at a time when what follows fails. *)

Module Regex.

Inductive regex :=
| Lit (s : str)                (* the characters of [s] *)
| Chr (p : N -> bool)          (* one character of the class [p] *)
| Star (p : N -> bool)         (* [p*] for a character class [p] *)
| Plus (p : N -> bool)         (* [p+] *)
| WordBoundary                 (* [\b] *)
| Group (r : regex)            (* [(?P<encoding>r)] *)
| Seq (r1 r2 : regex).

(** [.] under [re.DOTALL], and without the flag. *)
Definition any_char (c : N) : bool := true.
Definition not_newline (c : N) : bool := negb (N.eqb c Py.NL).

Definition is_digit (c : N) : bool := ((48 <=? c) && (c <=? 57))%N.
Definition is_letter (c : N) : bool :=
  Py.is_ascii_upper c || Py.is_ascii_lower c.

(** [\w].  The patterns are applied to text decoded as ASCII with
    replacement only: its characters are ASCII or U+FFFD. *)
Definition is_word (c : N) : bool :=
  is_letter c || is_digit c || N.eqb c 95.

(** A position is a word boundary when exactly one of its two sides is
    a word character. *)
Definition at_boundary (prev : option N) (rest : str) : bool :=
  xorb (from_option is_word false prev) (from_option is_word false (head rest)).

Section Matcher.
Context {A : Type}.

(** The match position: the character before it and the text from it
    on. *)
Fixpoint lit (s : str) (prev : option N) (rest : str)
    (k : option N -> str -> option A) : option A :=
  match s with
  | [] => k prev rest
  | c :: s' =>
      match rest with
      | x :: rest' => if N.eqb x c then lit s' (Some x) rest' k else None
      | [] => None
      end
  end.

Fixpoint star (p : N -> bool) (prev : option N) (rest : str)
    (k : option N -> str -> option A) : option A :=
  match rest with
  | x :: rest' =>
      if p x then
        match star p (Some x) rest' k with
        | Some m => Some m
        | None => k prev rest
        end
      else k prev rest
  | [] => k prev rest
  end.

Definition chr (p : N -> bool) (rest : str)
    (k : option N -> str -> option A) : option A :=
  match rest with
  | x :: rest' => if p x then k (Some x) rest' else None
  | [] => None
  end.

Definition plus (p : N -> bool) (prev : option N) (rest : str)
    (k : option N -> str -> option A) : option A :=
  match rest with
  | x :: rest' => if p x then star p (Some x) rest' k else None
  | [] => None
  end.

(** [run r prev rest group k]: match [r] at a position, then go on
    with [k]; [group] is what the named group has captured. *)
Fixpoint run (r : regex) (prev : option N) (rest : str)
    (group : option str)
    (k : option N -> str -> option str -> option A) : option A :=
  match r with
  | Lit s => lit s prev rest (fun prev' rest' => k prev' rest' group)
  | Chr p => chr p rest (fun prev' rest' => k prev' rest' group)
  | Star p => star p prev rest (fun prev' rest' => k prev' rest' group)
  | Plus p => plus p prev rest (fun prev' rest' => k prev' rest' group)
  | WordBoundary => if at_boundary prev rest then k prev rest group else None
  | Group r' =>
      run r' prev rest group (fun prev' rest' _ =>
        k prev' rest' (Some (take (length rest - length rest') rest)))
  | Seq r1 r2 =>
      run r1 prev rest group (fun prev' rest' group' =>
        run r2 prev' rest' group' k)
  end.
End Matcher.

(** [pattern.match(text)]: [None] when there is no match at the start of
    [text], else the value of [.group('encoding')]. *)
Definition match_ (pattern : regex) (text : str) : option (option str) :=
  run pattern None text None (fun _ _ group => Some group).

Fixpoint seq (rs : list regex) : regex :=
  match rs with
  | [] => Lit []
  | [r] => r
  | r :: rs' => Seq r (seq rs')
  end.

End Regex.

(** [[-_.a-zA-Z0-9]] *)
Definition encoding_char (c : N) : bool :=
  Py.char_in c (u "-_.") || Regex.is_letter c || Regex.is_digit c.

(** [r'<\?xml\s+.*encoding="(?P<encoding>[-_.a-zA-Z0-9]+)".*\?>'] *)
Definition _XML_PROLOG_REGEX : Regex.regex :=
  Regex.seq [Regex.Lit (u "<?xml"); Regex.Plus Py.isspace;
             Regex.Star Regex.not_newline;
             Regex.Lit (u "encoding=" ++ [34%N]);
             Regex.Group (Regex.Plus encoding_char);
             Regex.Lit [34%N]; Regex.Star Regex.not_newline;
             Regex.Lit (u "?>")].

(** [r'.+coding[:=][ \t]*(?P<encoding>[-_.a-zA-Z0-9]+)\b'] with
    [re.DOTALL]. *)
Definition _CODING_MAGIC_REGEX : Regex.regex :=
  Regex.seq [Regex.Plus Regex.any_char;
             Regex.Lit (u "coding");
             Regex.Chr (fun c => Py.char_in c (u ":="));
             Regex.Star (fun c => Py.char_in c [32; 9]%N);
             Regex.Group (Regex.Plus encoding_char);
             Regex.WordBoundary].

(** ** The outside world *)

(** The chardet detector: [reset()] puts it in the state [reset], so that
    what a call of [encoding_for] does with it depends on nothing
    earlier. *)
Record Detector := {
  dstate : Type;
  reset : dstate;
  feed : dstate -> bytes -> dstate;
  done_ : dstate -> bool;
  result_encoding : dstate -> option str      (* [result['encoding']] *)
}.

Record World := {
  (** [open(path, 'rb')] and the bytes of the file. *)
  read_binary : str -> res bytes;
  (** [open(path, 'r', encoding=e)] followed by [read(n)], or by [read()]
      for [None]. *)
  read_text : str -> str -> option N -> res str;
  (** [lexers.get_lexer_for_filename]. *)
  get_lexer_for_filename : str -> res Lexer;
  (** [None] when chardet cannot be imported. *)
  _detector : option Detector
}.

Definition has_chardet (W : World) : bool :=
  match _detector W with Some _ => true | None => false end.

(** ** The encoding detector *)

Definition _BOM_TO_ENCODING_MAP : list (bytes * str) :=
  [ ([xef; xbb; xbf], u "utf-8-sig");
    ([xff; xfe; x00; x00], u "utf-32-le");
    ([xfe; xff], u "utf-16-be");
    ([xff; xfe], u "utf-16-le");
    ([x00; x00; xfe; xff], u "utf-32-be") ].

(** The loop over the known BOMs, left at the first one that starts
    the heading. *)
Fixpoint bom_loop (heading : bytes) (items : list (bytes * str))
  : option str :=
  match items with
  | [] => None
  | (bom, encoding) :: rest =>
      if bool_decide (take (length bom) heading = bom) then Some encoding
      else bom_loop heading rest
  end.

(** The text the two patterns are matched against. *)
Definition ascii_heading_of (heading : bytes) : str :=
  let ascii_heading := Py.decode_ascii_replace heading in
  let ascii_heading := Py.replace_crlf ascii_heading in
  let ascii_heading := Py.replace_cr ascii_heading in
  Py.join Py.NL (take 2 (Py.split Py.NL ascii_heading)) ++ [Py.NL].

(** "Look for common headings that indicate the encoding." *)
Definition heading_encoding (heading : bytes) : option str :=
  let ascii_heading := ascii_heading_of heading in
  match Regex.match_ _CODING_MAGIC_REGEX ascii_heading with
  | Some group => group
  | None =>
      let first_line := hd [] (Py.split Py.NL ascii_heading) in
      match Regex.match_ _XML_PROLOG_REGEX first_line with
      | Some group => group
      | None => None
      end
  end.

(** The loop that feeds the detector line by line until it is done. *)
Fixpoint feed_lines (d : Detector) (st : dstate d) (lines : list bytes)
  : dstate d :=
  match lines with
  | [] => st
  | line :: rest =>
      let st := feed d st line in
      if done_ d st then st else feed_lines d st rest
  end.

(** The message of the assertion on [_detector]; [chardet] stands between
    double quotes in it. *)
Definition CHARDET_MESSAGE : string :=
  String.append "without chardet installed, encoding="
    (String (ascii_of_nat 34)
       (String.append "chardet"
          (String (ascii_of_nat 34)
             " must be rejected before calling encoding_for()"))).

Definition encoding_for (W : World) (source_path encoding fallback_encoding : str)
  : res str :=
  result ←
    (if Py.str_eqb encoding (u "automatic") then
       data ← read_binary W source_path;
       let heading := take 128 data in
       let result : option str := None in
       let result :=
         if length heading =? 0 then Some (u "utf-8") else result in
       let result :=
         match result with
         | None => bom_loop heading _BOM_TO_ENCODING_MAP
         | Some _ => result
         end in
       let result :=
         match result with
         | None => heading_encoding heading
         | Some _ => result
         end in
       match result with
       | None =>
           match read_text W source_path (u "utf-8") (Some 16384%N) with
           | Ok _ => Ok (Some (u "utf-8"))
           | Raise UnicodeDecodeError => Ok (Some fallback_encoding)
           | Raise e => Raise e
           end
       | Some _ => Ok result
       end
     else if Py.str_eqb encoding (u "chardet") then
       match _detector W with
       | None => Raise (AssertionError CHARDET_MESSAGE)
       | Some d =>
           data ← read_binary W source_path;
           Ok (result_encoding d (feed_lines d (reset d) (Py.readlines data)))
       end
     else Ok (Some encoding));
  match result with
  | Some result => Ok result
  | None => Raise (AssertionError "")
  end.

(** ** The source analyzer *)

Module SourceAnalysis.
Record t := mk {
  path : str;
  language : option str;
  group : str;
  code : nat;
  documentation : nat;
  empty : nat;
  string : nat
}.
End SourceAnalysis.

(** The inner loop of [source_analysis]: the mark whose counter a line
    increments. *)
Definition mark_to_increment (line_parts : gset string) : string :=
  fold_left
    (fun mark_to_increment mark_to_check =>
       if bool_decide (mark_to_check ∈ line_parts) then mark_to_check
       else mark_to_increment)
    ["d"; "s"; "c"]%string "e"%string.

(** [mark_to_count_map[mark] += 1] *)
Definition increment (mark : string) (mark_to_count_map : gmap string nat)
  : gmap string nat :=
  <[mark := default 0 (mark_to_count_map !! mark) + 1]> mark_to_count_map.

(** The outer loop of [source_analysis]. *)
Definition count_lines (lines : list (gset string)) : gmap string nat :=
  fold_left
    (fun mark_to_count_map line_parts =>
       increment (mark_to_increment line_parts) mark_to_count_map)
    lines
    {[ "c" := 0; "d" := 0; "e" := 0; "s" := 0 ]}%string.

Definition count_of (mark_to_count_map : gmap string nat) (mark : string)
  : nat :=
  default 0 (mark_to_count_map !! mark).

Definition source_analysis (W : World)
    (source_path group encoding fallback_encoding : str)
  : res SourceAnalysis.t :=
  lexer ←
    match get_lexer_for_filename W source_path with
    | Ok lexer => Ok (Some lexer)
    | Raise ClassNotFound => Ok None
    | Raise e => Raise e
    end;
  match lexer with
  | Some lexer =>
      encoding ←
        (if Py.str_eqb encoding (u "automatic") then
           encoding_for W source_path encoding fallback_encoding
         else Ok encoding);
      match read_text W source_path encoding None with
      | Raise OSError | Raise UnicodeDecodeError =>
          Ok (SourceAnalysis.mk source_path (Some (u "error")) group 0 0 0 0)
      | Raise e => Raise e
      | Ok text =>
          lines ← _line_parts lexer text;
          let mark_to_count_map := count_lines lines in
          Ok (SourceAnalysis.mk source_path (Some (name lexer)) group
                (count_of mark_to_count_map "c")
                (count_of mark_to_count_map "d")
                (count_of mark_to_count_map "e")
                (count_of mark_to_count_map "s"))
      end
  | None => Ok (SourceAnalysis.mk source_path None group 0 0 0 0)
  end.

(** ** Notions used in the statements *)

(** ['\n'] occurs in [text] at most as its final character. *)
Definition newline_only_last (text : str) : Prop :=
  ∀ i, text !! i = Some Py.NL → S i = length text.

(** A text of whitespace only: nothing is left of it once its trailing
    whitespace is stripped. *)
Definition whitespace_only (text : str) : Prop :=
  Py.rstrip WHITESPACE text = [].

(** Nothing is left of [text] once every character of [chars] is taken
    out of it. *)
Definition all_stripped (chars : str) (text : str) : Prop :=
  filter (λ c, c ∉ chars) text = [].

(** A token that is neither a comment nor a string and whose text is a
    white word or is made of white text only. *)
Definition white_token (white_text : str) (white_words : list str)
    (tok : token) : Prop :=
  token.contains token.Comment tok.1 = false
  ∧ token.contains token.String tok.1 = false
  ∧ (Py.strip tok.2 ∈ white_words ∨ all_stripped white_text tok.2).

(** A token of whitespace that is neither a comment nor a string. *)
Definition blank_token (tok : token) : Prop :=
  token.contains token.Comment tok.1 = false
  ∧ token.contains token.String tok.1 = false
  ∧ whitespace_only tok.2.

(** The number of tokens whose text ends with a newline. *)
Definition line_closing (tokens : list token) : nat :=
  length (filter (λ text, Py.endswith text Py.NL = true) (tokens.*2)).

(** Tokens that make up whole lines: there is none, or the text of the
    last one ends with a newline. *)
Definition complete_lines (tokens : list token) : Prop :=
  tokens = []
  ∨ ∃ tokens' ty text,
      tokens = tokens' ++ [(ty, text)] ∧ Py.endswith text Py.NL = true.

(** The mark a mark-set is reduced to, spelled out: what the loop over
    [('d', 's', 'c')] leaves in [mark_to_increment]. *)
Definition last_present (line_parts : gset string) : string :=
  if decide ("c"%string ∈ line_parts) then "c"
  else if decide ("s"%string ∈ line_parts) then "s"
  else if decide ("d"%string ∈ line_parts) then "d"
  else "e".

(** The number of lines reduced to [mark]. *)
Definition lines_with (mark : string) (lines : list (gset string)) : nat :=
  length (filter (λ line_parts, mark_to_increment line_parts = mark) lines).

(** The encoding [source_analysis] opens the file with. *)
Definition resolved_encoding (W : World)
    (source_path encoding fallback_encoding : str) : res str :=
  if Py.str_eqb encoding (u "automatic") then
    encoding_for W source_path encoding fallback_encoding
  else Ok encoding.

(** The reduction as the specification words it: the first of
    documentation, string and code that is present. *)
Definition documentation_first (line_parts : gset string) : string :=
  if decide ("d"%string ∈ line_parts) then "d"
  else if decide ("s"%string ∈ line_parts) then "s"
  else if decide ("c"%string ∈ line_parts) then "c"
  else "e".

(** Token types and worlds to run the functions on. *)
Module Sample.

Definition Text : ttype := ["Text"%string].
Definition Keyword : ttype := ["Keyword"%string].
Definition Name : ttype := ["Name"%string].
Definition Operator : ttype := ["Operator"%string].
Definition Punctuation : ttype := ["Punctuation"%string].
Definition Number : ttype := ["Literal"%string; "Number"%string].
Definition Comment_Single : ttype := ["Comment"%string; "Single"%string].
Definition String_Doc : ttype :=
  ["Literal"%string; "String"%string; "Doc"%string].

(** A string literal with its quotes. *)
Definition quoted (s : string) : str := [34%N] ++ u s ++ [34%N].

(** A lexer that yields [tokens]. *)
Definition lexer_of (name : string) (tokens : list token) : Lexer :=
  {| name := u name; get_tokens := λ _, tokens |}.


(** A world without chardet where every path has the bytes [data] and
    the lexer [lexer], and where reading it as text gives [text]. *)
Definition world_of (data : bytes) (text : res str) (lexer : res Lexer)
  : World :=
  {| read_binary := λ _, Ok data;
     read_text := λ _ _ _, text;
     get_lexer_for_filename := λ _, lexer;
     _detector := None |}.

(** [x = 1  # note] *)
Definition assignment_with_comment : list token :=
  [(Name, u "x"); (Text, u " "); (Operator, u "="); (Text, u " ");
   (Number, u "1"); (Text, u "  "); (Comment_Single, u "# note");
   (Text, [Py.NL])].

End Sample.

(** The character before a position that lies [length consumed] characters
    after a position whose previous character is [prev]. *)
Definition prev_after (prev : option N) (consumed : str) : option N :=
  match last consumed with
  | Some c => Some c
  | None => prev
  end.

(** What follows [.+] in [_CODING_MAGIC_REGEX]. *)
Definition coding_declaration : Regex.regex :=
  Regex.seq [Regex.Lit (u "coding");
             Regex.Chr (fun c => Py.char_in c (u ":="));
             Regex.Star (fun c => Py.char_in c [32; 9]%N);
             Regex.Group (Regex.Plus encoding_char);
             Regex.WordBoundary].

(** The match of [coding_declaration] at a position. *)
Definition declaration_at (prev : option N) (rest : str) : option (option str) :=
  Regex.run coding_declaration prev rest None (λ _ _ group, Some group).

(** A line seen as bytes: it holds no line feed and no carriage return. *)
Definition one_line (line : bytes) : Prop :=
  Forall (λ x, x ≠ x0a ∧ x ≠ x0d) line.

(** The three line terminators. *)
Definition line_end (nl : bytes) : Prop :=
  nl = [x0a] ∨ nl = [x0d; x0a] ∨ nl = [x0d].

(** What is left of a file behind a complete line: nothing, or bytes that
    start with a line terminator. *)
Definition line_ended (tail : bytes) : Prop :=
  tail = [] ∨ ∃ x t, tail = x :: t ∧ (x = x0a ∨ x = x0d).

(** The heading with its line ends made uniform. *)
Definition normalized (heading : bytes) : str :=
  Py.replace_cr (Py.replace_crlf (Py.decode_ascii_replace heading)).

(** [# -*- coding: latin-1 -*-] *)
Definition LATIN_1_DECLARATION : string := "# -*- coding: latin-1 -*-".

(** Modelled from the spec: the configuration step of the tool that calls
    this module, which is not part of [pygount/analysis.py].  It rejects
    the detector-based mode with a configuration error when no sniffer is
    available. *)
Definition check_encoding_mode (W : World) (encoding : str) : res unit :=
  if Py.str_eqb encoding (u "chardet") && negb (has_chardet W) then
    Raise ConfigurationError
  else Ok tt.

(** Modelled from the spec: the analysis of the files one after the other,
    with the number of calls of [source_analysis] made. *)
Fixpoint analyze_each (W : World) (group encoding fallback_encoding : str)
    (paths : list str) : nat * res (list SourceAnalysis.t) :=
  match paths with
  | [] => (0, Ok [])
  | source_path :: rest =>
      match source_analysis W source_path group encoding fallback_encoding with
      | Raise e => (1, Raise e)
      | Ok r =>
          let '(calls, results) :=
            analyze_each W group encoding fallback_encoding rest in
          (S calls, match results with
                    | Ok rs => Ok (r :: rs)
                    | Raise e => Raise e
                    end)
      end
  end.

(** Modelled from the spec: a run of the tool, configuration first. *)
Definition run_tool (W : World) (group encoding fallback_encoding : str)
    (paths : list str) : nat * res (list SourceAnalysis.t) :=
  match check_encoding_mode W encoding with
  | Raise e => (0, Raise e)
  | Ok _ => analyze_each W group encoding fallback_encoding paths
  end.

(** The outside world raises exceptions of its own only. *)
Definition no_assertion_from_world (W : World) : Prop :=
  (∀ source_path msg, read_binary W source_path ≠ Raise (AssertionError msg))
  ∧ (∀ source_path encoding n msg,
        read_text W source_path encoding n ≠ Raise (AssertionError msg))
  ∧ (∀ source_path msg,
        get_lexer_for_filename W source_path ≠ Raise (AssertionError msg)).

(** ** Notions used in the further properties *)

Definition _MARK_TO_NAME_MAP : list (string * string) :=
  [("c", "code"); ("d", "documentation"); ("e", "empty"); ("s", "string")]%string.

(** The number of newline characters of a text. *)
Definition newlines (text : str) : nat :=
  length (filter (λ c, c = Py.NL) text).

(** The states the detector goes through when it is fed [lines] one after
    the other from the state [st]. *)
Definition fed (d : Detector) (st : dstate d) (lines : list bytes) : dstate d :=
  fold_left (feed d) lines st.

(** A detector that counts the lines it is fed, is done after two, and
    then names utf-8. *)
Definition counting_detector : Detector :=
  {| dstate := nat;
     reset := 0;
     feed := λ n _, S n;
     done_ := λ n, 2 <=? n;
     result_encoding := λ n, if 2 <=? n then Some (u "utf-8") else None |}.

(** A world with a detector, where every path has the bytes [data]. *)
Definition world_with_detector (d : Detector) (data : res bytes)
    (text : res str) (lexer : res Lexer) : World :=
  {| read_binary := λ _, data;
     read_text := λ _ _ _, text;
     get_lexer_for_filename := λ _, lexer;
     _detector := Some d |}.

(** The text [encoding=] and a double quote. *)
Definition ENCODING_ATTRIBUTE : str := u "encoding=" ++ [34%N].

(** What follows [<\?xml\s+.*] in [_XML_PROLOG_REGEX]. *)
Definition xml_encoding : Regex.regex :=
  Regex.seq [Regex.Lit ENCODING_ATTRIBUTE;
             Regex.Group (Regex.Plus encoding_char);
             Regex.Lit [34%N]; Regex.Star Regex.not_newline;
             Regex.Lit (u "?>")].

(** The match of [xml_encoding] at a position. *)
Definition xml_encoding_at (prev : option N) (rest : str)
  : option (option str) :=
  Regex.run xml_encoding prev rest None (λ _ _ group, Some group).

(** The first line of the text the patterns are matched against. *)
Definition first_line_of (heading : bytes) : str :=
  hd [] (Py.split Py.NL (ascii_heading_of heading)).

(** Closes the side conditions of [encoding_for_first_bom]: the BOMs
    before the one taken start with another byte. *)
Ltac other_boms Hbom :=
  let H := fresh in
  let t := fresh in
  intros ? ? H [t ->]; destruct Hbom as [? Hbom];
  repeat (apply elem_of_cons in H as [H|H];
          [injection H as -> _; discriminate|]);
  by apply elem_of_nil in H.

(** A String token with the type Comment, any other token as it is. *)
Definition as_documentation (tok : token) : token :=
  if token.contains token.String tok.1 then (token.Comment, tok.2) else tok.


(** * Properties *)

(** ** Python's string operations *)

Section PyFacts.
Implicit Types (c x : N) (text s t : str) (i j : nat).

Lemma str_eqb_true s t : Py.str_eqb s t = true ↔ s = t.
Proof. unfold Py.str_eqb. apply bool_decide_eq_true. Qed.

Lemma str_eqb_false s t : Py.str_eqb s t = false ↔ s ≠ t.
Proof. unfold Py.str_eqb. apply bool_decide_eq_false. Qed.

Lemma find_Some c text i :
  Py.find c text = Some i →
  text !! i = Some c ∧ ∀ j, j < i → text !! j ≠ Some c.
Proof.
  revert i. induction text as [|x rest IH]; simpl; intros i; [discriminate|].
  destruct (N.eqb_spec x c) as [->|Hne].
  - intros [= <-]. split; [reflexivity|]. intros j Hj. lia.
  - destruct (Py.find c rest) as [k|]; [|discriminate].
    intros [= <-]. destruct (IH k eq_refl) as [Hk Hmin]. split; [exact Hk|].
    intros [|j] Hj; simpl; [congruence|]. apply Hmin. lia.
Qed.

Lemma find_None c text : Py.find c text = None → c ∉ text.
Proof.
  induction text as [|x rest IH]; simpl; [intros _; apply not_elem_of_nil|].
  destruct (N.eqb_spec x c) as [->|Hne]; [discriminate|].
  destruct (Py.find c rest); [discriminate|].
  intros _. rewrite elem_of_cons. intros [->|Hin]; [congruence|].
  by apply IH.
Qed.

Lemma endswith_last text c :
  Py.endswith text c = true ↔ last text = Some c.
Proof.
  induction text as [|x [|y rest] IH]; simpl.
  - split; discriminate.
  - rewrite N.eqb_eq. split; [intros ->; reflexivity|intros [= ->]; reflexivity].
  - exact IH.
Qed.

Lemma lstrip_by_nil p text :
  Py.lstrip_by p text = [] ↔ Forall (fun x => p x = true) text.
Proof.
  induction text as [|x rest IH]; simpl.
  - split; [constructor|reflexivity].
  - destruct (p x) eqn:Hp.
    + rewrite IH. split; [by constructor|by inversion 1].
    + split; [discriminate|]. inversion 1; congruence.
Qed.

(** Stripping trailing characters leaves nothing exactly when every
    character of the text is one of them. *)
Lemma rstrip_by_nil p text :
  Py.rstrip_by p text = [] ↔ Forall (fun x => p x = true) text.
Proof.
  unfold Py.rstrip_by. split.
  - intros H. apply (f_equal (@rev N)) in H.
    rewrite rev_involutive in H. simpl in H.
    apply lstrip_by_nil, Forall_rev in H. by rewrite rev_involutive in H.
  - intros H. apply Forall_rev, lstrip_by_nil in H. by rewrite H.
Qed.

Lemma rstrip_nil chars text :
  Py.rstrip chars text = [] ↔ Forall (fun x => Py.char_in x chars = true) text.
Proof. apply rstrip_by_nil. Qed.

End PyFacts.

(** ** The line delineator *)

Section Delineator.

Lemma find_lt c (text : str) i : Py.find c text = Some i → i < length text.
Proof.
  intros H. apply find_Some in H as [H _]. by apply lookup_lt_Some in H.
Qed.

(** What the loop yields for one token: slices that keep the token's
    type, are not empty, hold a newline as last character only, and add
    up to the token's text. *)
Lemma delined_text_slices token_type token_text :
  Forall (λ t : token, t.1 = token_type ∧ t.2 ≠ [] ∧ newline_only_last t.2)
         (delined_text token_type token_text)
  ∧ concat ((delined_text token_type token_text).*2) = token_text.
Proof.
  apply (delined_text_elim
           (λ ty text out,
              Forall (λ t : token, t.1 = ty ∧ t.2 ≠ [] ∧ newline_only_last t.2) out
              ∧ concat (out.*2) = text)); clear.
  - intros ty text i Hfind [IHall IHcat] _.
    pose proof (find_lt _ _ _ Hfind) as Hlt.
    destruct (find_Some _ _ _ Hfind) as [Hi Hmin].
    split.
    + constructor; [|exact IHall]. simpl. split; [reflexivity|]. split.
      * intros Hnil. apply (f_equal length) in Hnil.
        rewrite length_take in Hnil. simpl in Hnil. lia.
      * intros j Hj. rewrite length_take.
        apply lookup_take_Some in Hj as [Hj Hji].
        destruct (decide (j < i)) as [Hlt'|]; [|lia].
        by destruct (Hmin j Hlt').
    + rewrite fmap_cons, concat_cons, IHcat. apply take_drop.
  - intros ty text Hfind _. destruct (Py.str_eqb text []) eqn:He.
    + apply str_eqb_true in He as ->. split; [constructor|reflexivity].
    + apply str_eqb_false in He. split.
      * constructor; [|constructor]. simpl. split; [reflexivity|].
        split; [exact He|]. intros j Hj.
        apply find_None in Hfind. destruct Hfind.
        by apply list_elem_of_lookup_2 in Hj.
      * rewrite fmap_cons, concat_cons. apply app_nil_r.
Qed.

End Delineator.

(** C9. For every token sequence, each token that [_delined_tokens] yields
    has a text that is not empty and holds a newline at most as its last
    character; the output is the concatenation, in input order, of one
    run of slices per input token, each slice with the type of its token
    and the slices of a token adding up to its text; and the texts of the
    output add up to the texts of the input. *)
Theorem delined_tokens_slices (tokens : list token) :
  Forall (λ t : token, t.2 ≠ [] ∧ newline_only_last t.2) (_delined_tokens tokens)
  ∧ (∃ slices : list (list token),
        _delined_tokens tokens = concat slices
        ∧ Forall2 (λ (tok : token) (run : list token),
                     Forall (λ t : token, t.1 = tok.1) run
                     ∧ concat (run.*2) = tok.2)
                  tokens slices)
  ∧ concat ((_delined_tokens tokens).*2) = concat (tokens.*2).
Proof.
  unfold _delined_tokens.
  induction tokens as [|[ty text] rest (IHall & (slices & IHcat & IHruns) & IHtext)].
  - split; [constructor|]. split; [|reflexivity].
    exists []. split; [reflexivity|constructor].
  - destruct (delined_text_slices ty text) as [Hall Htext]. simpl. split; [|split].
    + apply Forall_app. split; [|exact IHall].
      eapply Forall_impl; [exact Hall|]. intros t (_ & Hne & Hnl). by split.
    + exists (delined_text ty text :: slices). split.
      * simpl. by rewrite IHcat.
      * constructor; [|exact IHruns]. simpl. split; [|exact Htext].
        eapply Forall_impl; [exact Hall|]. by intros t (Hty & _).
    + rewrite fmap_app, concat_app, Htext, IHtext. reflexivity.
Qed.

(** ** The documentation reclassifier *)

Section Reclassifier.
Implicit Types (st : bool) (tok : token) (tokens : list token).

Lemma pythonized_state_app st tokens1 tokens2 :
  pythonized_state st (tokens1 ++ tokens2)
  = pythonized_state (pythonized_state st tokens1) tokens2.
Proof. apply fold_left_app. Qed.

Lemma pythonized_state_snoc st tokens tok :
  pythonized_state st (tokens ++ [tok])
  = (pythonized_step (pythonized_state st tokens) tok).1.
Proof. by rewrite pythonized_state_app. Qed.

(** The token yielded at a position is the step of the token read
    there, in the state the earlier tokens have led to. *)
Lemma pythonized_loop_lookup st tokens i :
  pythonized_loop st tokens !! i
  = (λ tok, (pythonized_step (pythonized_state st (take i tokens)) tok).2)
      <$> tokens !! i.
Proof.
  revert st i. induction tokens as [|tok rest IH]; intros st i.
  - by destruct i.
  - simpl. destruct (pythonized_step st tok) as [st' out] eqn:Hstep.
    destruct i as [|i]; simpl.
    + by rewrite Hstep.
    + rewrite IH. unfold pythonized_state at 2. simpl. by rewrite Hstep.
Qed.

Lemma step_string ty text :
  token.contains token.String ty = true →
  pythonized_step true (ty, text) = (true, (token.Comment, text)).
Proof. unfold pythonized_step. by intros ->. Qed.

Lemma step_colon st ty text :
  text = u ":" → (pythonized_step st (ty, text)).1 = true.
Proof.
  intros ->. unfold pythonized_step.
  destruct (st && token.contains token.String ty) eqn:Hconv.
  - by apply andb_true_iff in Hconv as [-> _].
  - reflexivity.
Qed.

Lemma step_code st ty text :
  st && token.contains token.String ty = false →
  text ≠ u ":" →
  token.contains token.Comment ty = false →
  ¬ whitespace_only text →
  pythonized_step st (ty, text) = (false, (ty, text)).
Proof.
  intros Hconv Htext Hcomment Hws. unfold pythonized_step.
  rewrite Hconv, Hcomment. apply str_eqb_false in Htext. rewrite Htext.
  simpl. destruct (Py.rstrip WHITESPACE text) eqn:Hstrip; [by destruct Hws|].
  reflexivity.
Qed.

Lemma step_other st ty text :
  st && token.contains token.String ty = false →
  text ≠ u ":" →
  token.contains token.Comment ty = true ∨ whitespace_only text →
  pythonized_step st (ty, text) = (st, (ty, text)).
Proof.
  intros Hconv Htext Hcase. unfold pythonized_step.
  rewrite Hconv. apply str_eqb_false in Htext. rewrite Htext.
  destruct (token.contains token.Comment ty); simpl; [reflexivity|].
  destruct Hcase as [|Hws]; [done|]. unfold whitespace_only in Hws.
  by rewrite Hws.
Qed.

(** Outside the after-colon state every token is yielded as it is. *)
Lemma step_false_token ty text :
  (pythonized_step false (ty, text)).2 = (ty, text).
Proof.
  unfold pythonized_step. simpl.
  destruct (Py.str_eqb text (u ":")); [reflexivity|].
  destruct (token.contains token.Comment ty); [reflexivity|]. simpl.
  by destruct (length (Py.rstrip WHITESPACE text) =? 0).
Qed.

Lemma whitespace_only_not_colon text : whitespace_only text → text ≠ u ":".
Proof. intros Hws ->. vm_compute in Hws. discriminate. Qed.

(** Whitespace leaves the state alone. *)
Lemma step_whitespace st ty text :
  whitespace_only text → (pythonized_step st (ty, text)).1 = st.
Proof.
  intros Hws. destruct (st && token.contains token.String ty) eqn:Hconv.
  - unfold pythonized_step. by rewrite Hconv.
  - rewrite step_other; auto using whitespace_only_not_colon.
Qed.

Lemma state_whitespace st tokens :
  Forall (λ t : token, whitespace_only t.2) tokens →
  pythonized_state st tokens = st.
Proof.
  induction 1 as [|[ty text] rest Hws _ IH]; [reflexivity|].
  change (pythonized_state (pythonized_step st (ty, text)).1 rest = st).
  by rewrite step_whitespace.
Qed.

Lemma comment_not_string ty :
  token.contains token.String ty = true →
  token.contains token.Comment ty = false.
Proof.
  unfold token.contains. intros H%bool_decide_eq_true.
  apply bool_decide_eq_false. destruct ty as [|a [|a' ty]]; try discriminate.
  injection H as -> _. discriminate.
Qed.

(** A step yields its token, or a String token with the type Comment. *)
Lemma pythonized_step_token st tok :
  (pythonized_step st tok).2 = tok
  ∨ (token.contains token.String tok.1 = true
     ∧ (pythonized_step st tok).2 = (token.Comment, tok.2)).
Proof.
  destruct tok as [ty text]. unfold pythonized_step.
  destruct (st && token.contains token.String ty) eqn:Hconv.
  - right. apply andb_true_iff in Hconv as [_ Hstring]. by split.
  - left. destruct (Py.str_eqb text (u ":")); [reflexivity|].
    destruct (negb (token.contains token.Comment ty)); [|reflexivity].
    cbv zeta. by destruct (negb _).
Qed.

Lemma pythonized_loop_tokens st tokens :
  Forall2 (λ tok out : token,
             out = tok
             ∨ (token.contains token.String tok.1 = true
                ∧ out = (token.Comment, tok.2)))
          tokens (pythonized_loop st tokens).
Proof.
  revert st. induction tokens as [|tok tokens IH]; intros st; [constructor|].
  cbn [pythonized_loop].
  pose proof (pythonized_step_token st tok) as Hstep.
  destruct (pythonized_step st tok) as [st' out]. by constructor.
Qed.

Lemma pythonized_loop_app st tokens1 tokens2 :
  pythonized_loop st (tokens1 ++ tokens2)
  = pythonized_loop st tokens1
      ++ pythonized_loop (pythonized_state st tokens1) tokens2.
Proof.
  revert st. induction tokens1 as [|tok tokens1 IH]; intros st; [reflexivity|].
  cbn [app pythonized_loop].
  change (pythonized_state st (tok :: tokens1))
    with (pythonized_state (pythonized_step st tok).1 tokens1).
  destruct (pythonized_step st tok) as [st' out]. by rewrite IH.
Qed.

Lemma pythonized_loop_length st tokens :
  length (pythonized_loop st tokens) = length tokens.
Proof.
  revert st. induction tokens as [|tok tokens IH]; intros st; [reflexivity|].
  cbn [pythonized_loop]. destruct (pythonized_step st tok). simpl. by rewrite IH.
Qed.

Lemma pythonized_loop_texts st tokens :
  (pythonized_loop st tokens).*2 = tokens.*2.
Proof.
  pose proof (pythonized_loop_tokens st tokens) as Hall.
  induction Hall as [|tok out toks outs Hout _ IH]; [reflexivity|].
  rewrite !fmap_cons, IH. f_equal. by destruct Hout as [->|[_ ->]].
Qed.

(** A token that is not a String is yielded as it is. *)
Lemma pythonized_loop_plain st tokens :
  Forall (λ tok, token.contains token.String tok.1 = false) tokens →
  pythonized_loop st tokens = tokens.
Proof.
  intros Hall. revert st.
  induction Hall as [|tok tokens Htok _ IH]; intros st; [reflexivity|].
  cbn [pythonized_loop].
  pose proof (pythonized_step_token st tok) as Hstep.
  destruct (pythonized_step st tok) as [st' out]. cbn [snd] in Hstep.
  rewrite IH. destruct Hstep as [->|[Hstring _]]; [reflexivity|congruence].
Qed.

Lemma blank_token_plain tokens :
  Forall blank_token tokens →
  Forall (λ tok, token.contains token.String tok.1 = false) tokens.
Proof.
  intros Hall. eapply Forall_impl; [exact Hall|]. by intros tok (_ & ? & _).
Qed.

Lemma state_blank st tokens :
  Forall blank_token tokens → pythonized_state st tokens = st.
Proof.
  intros Hall. apply state_whitespace.
  eapply Forall_impl; [exact Hall|]. by intros tok (_ & _ & ?).
Qed.

Lemma pythonized_loop_complete st tokens :
  complete_lines tokens → complete_lines (pythonized_loop st tokens).
Proof.
  intros [->|(tokens' & ty & text & -> & Hend)]; [by left|]. right.
  rewrite pythonized_loop_app. cbn [pythonized_loop].
  pose proof (pythonized_step_token (pythonized_state st tokens') (ty, text))
    as Hstep.
  destruct (pythonized_step (pythonized_state st tokens') (ty, text))
    as [st' [ty' text']].
  exists (pythonized_loop st tokens'), ty', text'. split; [reflexivity|].
  cbn [fst snd] in Hstep. by destruct Hstep as [[= _ ->]|[_ [= _ ->]]].
Qed.

Lemma pythonized_loop_closing st tokens :
  line_closing (pythonized_loop st tokens) = line_closing tokens.
Proof. unfold line_closing. by rewrite pythonized_loop_texts. Qed.

(** Behind a colon and whitespace the state is after-colon. *)
Lemma state_after_colon st tokens ty ws :
  Forall (λ t : token, whitespace_only t.2) ws →
  pythonized_state st (tokens ++ (ty, u ":") :: ws) = true.
Proof.
  intros Hws.
  replace (tokens ++ (ty, u ":") :: ws) with ((tokens ++ [(ty, u ":")]) ++ ws)
    by (by rewrite <- app_assoc).
  rewrite pythonized_state_app, state_whitespace by exact Hws.
  by rewrite pythonized_state_snoc, step_colon.
Qed.

(** Behind a code token that is not a colon, and whitespace, it is not. *)
Lemma state_after_code st tokens ty text ws :
  token.contains token.String ty = false →
  token.contains token.Comment ty = false →
  text ≠ u ":" →
  ¬ whitespace_only text →
  Forall (λ t : token, whitespace_only t.2) ws →
  pythonized_state st (tokens ++ (ty, text) :: ws) = false.
Proof.
  intros Hstring Hcomment Hcolon Hcode Hws.
  replace (tokens ++ (ty, text) :: ws) with ((tokens ++ [(ty, text)]) ++ ws)
    by (by rewrite <- app_assoc).
  rewrite pythonized_state_app, state_whitespace by exact Hws.
  rewrite pythonized_state_snoc, step_code; auto using andb_false_intro2.
Qed.

(** The tokens yielded around a token: those before it, the step of the
    token in the state they lead to, and those after it. *)
Lemma pythonized_loop_middle st before tok after :
  pythonized_loop st (before ++ tok :: after)
  = pythonized_loop st before
      ++ (pythonized_step (pythonized_state st before) tok).2
      :: pythonized_loop (pythonized_step (pythonized_state st before) tok).1
           after.
Proof.
  rewrite pythonized_loop_app. cbn [pythonized_loop].
  by destruct (pythonized_step (pythonized_state st before) tok).
Qed.

(** Blank tokens go through as they are and keep the state. *)
Lemma pythonized_loop_blank st blanks rest :
  Forall blank_token blanks →
  pythonized_loop st (blanks ++ rest) = blanks ++ pythonized_loop st rest.
Proof.
  intros Hblanks. rewrite pythonized_loop_app.
  rewrite pythonized_loop_plain by by apply blank_token_plain.
  by rewrite state_blank.
Qed.

Lemma pythonized_step_blank st tok :
  blank_token tok → pythonized_step st tok = (st, tok).
Proof.
  destruct tok as [ty text]. intros (Hcomment & Hstring & Hws).
  cbn [fst snd] in *. apply step_other.
  - by rewrite Hstring, andb_false_r.
  - by apply whitespace_only_not_colon.
  - by right.
Qed.

End Reclassifier.

(** ** The line classifier *)

Section Classifier.
Context (white_text : str) (white_words : list str).
Implicit Types (marks : gset string) (tok : token) (tokens : list token).

Lemma char_in_elem_of c (chars : str) : Py.char_in c chars = true ↔ c ∈ chars.
Proof.
  unfold Py.char_in. rewrite existsb_exists, list_elem_of_In. split.
  - intros (x & Hin & Heq). apply N.eqb_eq in Heq. by subst.
  - intros Hin. exists c. split; [done|apply N.eqb_refl].
Qed.

(** The test of the code, [text.rstrip(white_text) == ''], holds exactly
    when taking the white characters out of the text leaves nothing. *)
Lemma rstrip_all_stripped text :
  Py.rstrip white_text text = [] ↔ all_stripped white_text text.
Proof.
  rewrite rstrip_nil. unfold all_stripped. induction text as [|x rest IH].
  - split; [reflexivity|constructor].
  - rewrite Forall_cons, IH, char_in_elem_of, filter_cons.
    destruct (decide (x ∉ white_text)) as [Hout|Hin].
    + split; [by intros [? _]|discriminate].
    + apply dec_stable in Hin. tauto.
Qed.

Lemma token_marks_code marks ty text :
  token.contains token.Comment ty = false →
  token.contains token.String ty = false →
  token_marks white_text white_words marks (ty, text)
  = if decide (Py.strip text ∈ white_words ∨ all_stripped white_text text)
    then marks else {["c"%string]} ∪ marks.
Proof.
  intros Hc Hs. unfold token_marks. rewrite Hc, Hs.
  destruct (decide _) as [[Hword|Hwhite]|Hnot].
  - by rewrite bool_decide_eq_true_2.
  - apply rstrip_all_stripped, str_eqb_true in Hwhite. rewrite Hwhite.
    by rewrite orb_true_r.
  - rewrite bool_decide_eq_false_2 by tauto.
    destruct (Py.str_eqb _ _) eqn:He; [|reflexivity].
    apply str_eqb_true, rstrip_all_stripped in He. tauto.
Qed.

Lemma token_marks_white marks tok :
  white_token white_text white_words tok →
  token_marks white_text white_words marks tok = marks.
Proof.
  destruct tok as [ty text]. intros (Hc & Hs & Hw).
  rewrite token_marks_code by done. by rewrite decide_True.
Qed.

(** White tokens that do not end their line leave the marks of the line
    as they are. *)
Lemma line_parts_loop_white marks tokens rest :
  Forall (λ tok, white_token white_text white_words tok
                 ∧ Py.endswith tok.2 Py.NL = false) tokens →
  line_parts_loop white_text white_words marks (tokens ++ rest)
  = line_parts_loop white_text white_words marks rest.
Proof.
  induction 1 as [|[ty text] tokens [Hw Hend] _ IH]; [reflexivity|].
  simpl in Hend. cbn [app line_parts_loop].
  by rewrite token_marks_white, Hend.
Qed.


(** A token that ends its line closes the mark-set of the line. *)
Lemma line_parts_loop_line marks tokens ty text rest :
  Py.endswith text Py.NL = true →
  line_parts_loop white_text white_words marks (tokens ++ (ty, text) :: rest)
  = line_parts_loop white_text white_words marks (tokens ++ [(ty, text)])
      ++ line_parts_loop white_text white_words ∅ rest.
Proof.
  intros Hend. revert marks.
  induction tokens as [|[ty' text'] tokens IH]; intros marks.
  - cbn [app line_parts_loop]. rewrite Hend. reflexivity.
  - cbn [app line_parts_loop]. destruct (Py.endswith text' Py.NL).
    + by rewrite IH.
    + apply IH.
Qed.

Lemma line_closing_cons ty text tokens :
  line_closing ((ty, text) :: tokens)
  = (if Py.endswith text Py.NL then 1 else 0) + line_closing tokens.
Proof.
  unfold line_closing. rewrite fmap_cons, filter_cons. cbn [snd].
  destruct (Py.endswith text Py.NL); [by rewrite decide_True|].
  by rewrite decide_False.
Qed.

Lemma line_parts_loop_nil_length marks :
  length (line_parts_loop white_text white_words marks []) ≤ 1
  ∧ (marks = ∅ → length (line_parts_loop white_text white_words marks []) = 0).
Proof.
  cbn [line_parts_loop]. split.
  - case_bool_decide; simpl; lia.
  - by intros ->.
Qed.

(** The loop emits a mark-set for each token that ends a line, and the
    leftover at most. *)
Lemma line_parts_loop_length marks tokens :
  ∃ marks',
    length (line_parts_loop white_text white_words marks tokens)
    = line_closing tokens
      + length (line_parts_loop white_text white_words marks' [])
    ∧ (tokens = [] → marks' = marks)
    ∧ (∀ text, last (tokens.*2) = Some text → Py.endswith text Py.NL = true →
               marks' = ∅).
Proof.
  revert marks. induction tokens as [|[ty text] tokens IH]; intros marks.
  - exists marks. split; [reflexivity|]. split; [done|]. discriminate.
  - cbn [line_parts_loop]. rewrite line_closing_cons.
    destruct (Py.endswith text Py.NL) eqn:Hend.
    + destruct (IH ∅) as (marks' & Hlen & Hnil & Hlast).
      exists marks'. split; [cbn [length]; rewrite Hlen; cbn; lia|].
      split; [done|].
      intros text' Htext' Hend'. destruct tokens as [|tok tokens].
      * by apply Hnil.
      * apply (Hlast text'); [|exact Hend'].
        rewrite fmap_cons, last_cons in Htext'.
        destruct (last ((tok :: tokens).*2)) eqn:Hl; [done|].
        by apply last_None in Hl.
    + destruct (IH (token_marks white_text white_words marks (ty, text)))
        as (marks' & Hlen & Hnil & Hlast).
      exists marks'. split; [rewrite Hlen; cbn; lia|]. split; [done|].
      intros text' Htext' Hend'. destruct tokens as [|tok tokens].
      * simpl in Htext'. injection Htext' as <-. congruence.
      * apply (Hlast text'); [|exact Hend'].
        rewrite fmap_cons, last_cons in Htext'.
        destruct (last ((tok :: tokens).*2)) eqn:Hl; [done|].
        by apply last_None in Hl.
Qed.

(** Whole lines give one mark-set each and leave nothing over. *)
Lemma line_parts_loop_complete tokens :
  complete_lines tokens →
  length (line_parts_loop white_text white_words ∅ tokens) = line_closing tokens.
Proof.
  intros Hlines.
  destruct (line_parts_loop_length ∅ tokens)
    as (marks' & Hlen & Hnil & Hlast).
  assert (marks' = ∅) as ->.
  { destruct Hlines as [->|(tokens' & ty & text & -> & Hend)]; [by apply Hnil|].
    apply (Hlast text); [|exact Hend].
    rewrite fmap_app. change ([(ty, text)].*2) with [text]. apply last_snoc. }
  rewrite Hlen.
  rewrite (proj2 (line_parts_loop_nil_length ∅)) by done.
  lia.
Qed.

Lemma line_parts_loop_app tokens rest :
  complete_lines tokens →
  line_parts_loop white_text white_words ∅ (tokens ++ rest)
  = line_parts_loop white_text white_words ∅ tokens
      ++ line_parts_loop white_text white_words ∅ rest.
Proof.
  intros [->|(tokens' & ty & text & -> & Hend)]; [reflexivity|].
  rewrite <- app_assoc. cbn [app].
  rewrite line_parts_loop_line by exact Hend. reflexivity.
Qed.

(** A token adds marks, it takes none away. *)
Lemma token_marks_mono marks tok :
  marks ⊆ token_marks white_text white_words marks tok.
Proof.
  destruct tok as [ty text]. unfold token_marks.
  destruct (token.contains token.Comment ty); [set_solver|].
  destruct (token.contains token.String ty); [set_solver|].
  cbv zeta. destruct (negb _); set_solver.
Qed.

(** A mark of a line that is under way is in the mark-set emitted for
    the line. *)
Lemma line_parts_loop_head (m : string) marks tokens :
  m ∈ marks →
  ∃ ms, line_parts_loop white_text white_words marks tokens !! 0 = Some ms
        ∧ m ∈ ms.
Proof.
  revert marks. induction tokens as [|[ty text] tokens IH]; intros marks Hm.
  - cbn [line_parts_loop]. rewrite bool_decide_eq_true_2.
    + by exists marks.
    + assert (size marks ≠ 0); [|lia]. intros Hsize%size_empty_inv.
      set_solver.
  - cbn [line_parts_loop].
    pose proof (token_marks_mono marks (ty, text) m Hm) as Hm'.
    destruct (Py.endswith text Py.NL); [by eexists|]. by apply IH.
Qed.

(** The mark a token adds is in the mark-set of its line: the set whose
    index is the number of lines closed before the token. *)
Lemma line_parts_loop_at (m : string) marks before tok after :
  (∀ marks', m ∈ token_marks white_text white_words marks' tok) →
  ∃ ms, line_parts_loop white_text white_words marks (before ++ tok :: after)
          !! line_closing before = Some ms
        ∧ m ∈ ms.
Proof.
  intros Hm. revert marks.
  induction before as [|[ty text] before IH]; intros marks.
  - cbn [app line_parts_loop]. destruct tok as [ty text].
    destruct (Py.endswith text Py.NL); [eexists; split; [reflexivity|apply Hm]|].
    apply line_parts_loop_head, Hm.
  - cbn [app line_parts_loop]. rewrite line_closing_cons.
    destruct (Py.endswith text Py.NL); [apply (IH ∅)|apply IH].
Qed.

End Classifier.

(** ** Blank tokens *)

Section Blanks.
Context (chars : str) (white_words : list str).
Implicit Types (marks : gset string) (tok : token) (tokens : list token).

Let white_text : str := WHITESPACE ++ chars.

Lemma whitespace_all_stripped (text : str) :
  whitespace_only text → all_stripped white_text text.
Proof.
  unfold whitespace_only. rewrite rstrip_nil. intros Hall.
  apply rstrip_all_stripped, rstrip_nil.
  eapply Forall_impl; [exact Hall|]. intros c Hc. unfold white_text, Py.char_in.
  rewrite existsb_app. unfold Py.char_in in Hc. by rewrite Hc.
Qed.

Lemma blank_white_token tok :
  blank_token tok → white_token white_text white_words tok.
Proof.
  intros (Hcomment & Hstring & Hws). split; [done|]. split; [done|].
  right. by apply whitespace_all_stripped.
Qed.

(** The mark-set of a line that holds, between blank tokens, one token
    that does not end it: the marks of this token. *)
Lemma line_parts_loop_single head indent tok ty text rest :
  complete_lines head →
  Forall (λ t, blank_token t ∧ Py.endswith t.2 Py.NL = false) indent →
  Py.endswith tok.2 Py.NL = false →
  blank_token (ty, text) →
  Py.endswith text Py.NL = true →
  line_parts_loop white_text white_words ∅
    (head ++ indent ++ tok :: (ty, text) :: rest)
    !! line_closing head
  = Some (token_marks white_text white_words ∅ tok).
Proof.
  intros Hhead Hindent Htok Hblank Hend.
  rewrite line_parts_loop_app by exact Hhead.
  rewrite lookup_app_r by (rewrite line_parts_loop_complete by exact Hhead; lia).
  rewrite line_parts_loop_complete, Nat.sub_diag by exact Hhead.
  rewrite line_parts_loop_white.
  - destruct tok as [ty' text']. cbn [line_parts_loop]. simpl in Htok.
    rewrite Htok, Hend.
    by rewrite (token_marks_white _ _ _ (ty, text))
      by by apply blank_white_token.
  - eapply Forall_impl; [exact Hindent|]. intros t [Ht Hnl].
    split; [by apply blank_white_token|exact Hnl].
Qed.

End Blanks.

(** ** Counting the lines *)

Section Counting.
Implicit Types (line_parts : gset string) (lines : list (gset string))
  (mark : string) (counts : gmap string nat).

Lemma mark_to_increment_last_present line_parts :
  mark_to_increment line_parts = last_present line_parts.
Proof.
  unfold mark_to_increment, last_present. simpl.
  repeat case_bool_decide; repeat case_decide; done.
Qed.

Lemma mark_to_increment_cases line_parts :
  mark_to_increment line_parts ∈ ["c"; "d"; "e"; "s"]%string.
Proof.
  rewrite mark_to_increment_last_present. unfold last_present.
  repeat case_decide; set_solver.
Qed.

Lemma count_of_increment mark mark' counts :
  count_of (increment mark counts) mark'
  = count_of counts mark' + (if decide (mark = mark') then 1 else 0).
Proof.
  unfold count_of, increment. rewrite lookup_insert.
  destruct (decide (mark = mark')) as [->|]; simpl; lia.
Qed.

Lemma count_fold counts lines mark :
  count_of
    (fold_left (λ m line_parts, increment (mark_to_increment line_parts) m)
               lines counts) mark
  = count_of counts mark + lines_with mark lines.
Proof.
  revert counts. unfold lines_with.
  induction lines as [|line_parts lines IH]; intros counts; simpl; [lia|].
  rewrite IH, count_of_increment, filter_cons.
  destruct (decide (mark_to_increment line_parts = mark)); simpl; lia.
Qed.

(** Each counter ends as the number of lines reduced to its mark. *)
Lemma count_lines_with lines mark :
  count_of (count_lines lines) mark = lines_with mark lines.
Proof.
  unfold count_lines. rewrite count_fold.
  assert (count_of {[ "c" := 0; "d" := 0; "e" := 0; "s" := 0 ]}%string mark = 0)
    as ->; [|reflexivity].
  unfold count_of.
  repeat (rewrite lookup_insert; case_decide; [reflexivity|]).
  rewrite lookup_singleton. case_decide; reflexivity.
Qed.

Lemma lines_with_app mark lines1 lines2 :
  lines_with mark (lines1 ++ lines2)
  = lines_with mark lines1 + lines_with mark lines2.
Proof. unfold lines_with. by rewrite filter_app, length_app. Qed.

(** Every line is reduced to one of the four marks. *)
Lemma lines_with_total lines :
  lines_with "c" lines + lines_with "d" lines + lines_with "e" lines
  + lines_with "s" lines = length lines.
Proof.
  unfold lines_with. induction lines as [|line_parts lines IH]; [reflexivity|].
  rewrite !filter_cons. pose proof (mark_to_increment_cases line_parts) as Hm.
  repeat (apply elem_of_cons in Hm as [Hm|Hm]); [..|by apply elem_of_nil in Hm];
    rewrite Hm; repeat case_decide; try congruence; simpl; lia.
Qed.

End Counting.

(** ** The source analyzer *)

Section Analyzer.
Context (W : World).
Implicit Types (source_path group encoding fallback_encoding : str).

Lemma bind_Ok {A B} (f : A → res B) (a : A) : (x ← Ok a; f x) = f a.
Proof. reflexivity. Qed.

Lemma source_analysis_counted source_path group encoding fallback_encoding
    lexer encoding' text lines :
  get_lexer_for_filename W source_path = Ok lexer →
  resolved_encoding W source_path encoding fallback_encoding = Ok encoding' →
  read_text W source_path encoding' None = Ok text →
  _line_parts lexer text = Ok lines →
  source_analysis W source_path group encoding fallback_encoding
  = Ok (SourceAnalysis.mk source_path (Some (name lexer)) group
          (lines_with "c" lines) (lines_with "d" lines)
          (lines_with "e" lines) (lines_with "s" lines)).
Proof.
  intros Hlexer Henc Htext Hlines. unfold source_analysis.
  rewrite Hlexer, bind_Ok.
  fold (resolved_encoding W source_path encoding fallback_encoding).
  rewrite Henc, bind_Ok, Htext, Hlines, bind_Ok.
  by rewrite !count_lines_with.
Qed.

Lemma source_analysis_skip source_path group encoding fallback_encoding :
  get_lexer_for_filename W source_path = Raise ClassNotFound →
  source_analysis W source_path group encoding fallback_encoding
  = Ok (SourceAnalysis.mk source_path None group 0 0 0 0).
Proof. unfold source_analysis. by intros ->. Qed.

Lemma source_analysis_error source_path group encoding fallback_encoding
    lexer encoding' e :
  get_lexer_for_filename W source_path = Ok lexer →
  resolved_encoding W source_path encoding fallback_encoding = Ok encoding' →
  read_text W source_path encoding' None = Raise e →
  e = OSError ∨ e = UnicodeDecodeError →
  source_analysis W source_path group encoding fallback_encoding
  = Ok (SourceAnalysis.mk source_path (Some (u "error")) group 0 0 0 0).
Proof.
  intros Hlexer Henc Htext He. unfold source_analysis.
  rewrite Hlexer, bind_Ok.
  fold (resolved_encoding W source_path encoding fallback_encoding).
  rewrite Henc, bind_Ok, Htext. by destruct He as [->| ->].
Qed.

End Analyzer.

(** C1, counterexample.  The line [x = 1  # note] of a Python file has
    the mark-set {documentation, code}.  Documentation first would count
    it as documentation; [source_analysis] counts it as code. *)
Lemma documentation_and_code_is_code :
  let lexer := Sample.lexer_of "Python" Sample.assignment_with_comment in
  let text := u "x = 1  # note" ++ [Py.NL] in
  let W := Sample.world_of (b "x = 1  # note" ++ [x0a]) (Ok text) (Ok lexer) in
  _line_parts lexer text = Ok [{["d"; "c"]}]%string
  ∧ documentation_first {["d"; "c"]}%string = "d"%string
  ∧ mark_to_increment {["d"; "c"]}%string ≠ "d"%string
  ∧ source_analysis W (u "x.py") (u "g") (u "automatic") (u "cp1252")
    = Ok (SourceAnalysis.mk (u "x.py") (Some (u "Python")) (u "g") 1 0 0 0).
Proof.
  cbv zeta. split; [vm_compute; reflexivity|].
  split; [vm_compute; reflexivity|].
  split; [vm_compute; discriminate|vm_compute; reflexivity].
Qed.

(** C1, as amended.  [source_analysis] reduces every mark-set to one mark
    with the priority code > string > documentation > empty: the loop
    checks documentation, string and code in this order and the last one
    present stays, empty when none is.  The counter of that mark goes up
    by one and the other counters stay.  A mark-set with documentation and
    code counts as code.  The counts of an analyzed file are the numbers
    of mark-sets reduced to each mark. *)
Theorem mark_priority_code_first :
  (∀ line_parts, mark_to_increment line_parts = last_present line_parts)
  ∧ (∀ lines line_parts mark,
        count_of (count_lines (lines ++ [line_parts])) mark
        = count_of (count_lines lines) mark
          + (if decide (mark = last_present line_parts) then 1 else 0))
  ∧ (∀ line_parts,
        mark_to_increment ({["d"; "c"]}%string ∪ line_parts) = "c"%string)
  ∧ (∀ W source_path group encoding fallback_encoding lexer encoding' text lines,
        get_lexer_for_filename W source_path = Ok lexer →
        resolved_encoding W source_path encoding fallback_encoding = Ok encoding' →
        read_text W source_path encoding' None = Ok text →
        _line_parts lexer text = Ok lines →
        source_analysis W source_path group encoding fallback_encoding
        = Ok (SourceAnalysis.mk source_path (Some (name lexer)) group
                (length (filter (λ l, last_present l = "c"%string) lines))
                (length (filter (λ l, last_present l = "d"%string) lines))
                (length (filter (λ l, last_present l = "e"%string) lines))
                (length (filter (λ l, last_present l = "s"%string) lines)))).
Proof.
  split; [apply mark_to_increment_last_present|].
  split.
  { intros lines line_parts mark.
    rewrite !count_lines_with, lines_with_app. f_equal.
    unfold lines_with. rewrite filter_cons, filter_nil.
    rewrite mark_to_increment_last_present.
    destruct (decide (last_present line_parts = mark)) as [<-|Hne].
    - by rewrite decide_True.
    - by rewrite decide_False. }
  split.
  { intros line_parts. rewrite mark_to_increment_last_present.
    unfold last_present. rewrite decide_True; [reflexivity|set_solver]. }
  intros W source_path group encoding fallback_encoding lexer encoding' text
    lines Hlexer Henc Htext Hlines.
  rewrite (source_analysis_counted W _ _ _ _ _ _ _ _ Hlexer Henc Htext Hlines).
  unfold lines_with.
  assert (Hfilter : ∀ mark,
             filter (λ l, mark_to_increment l = mark) lines
             = filter (λ l, last_present l = mark) lines).
  { intros mark. apply list_filter_iff. intros l.
    by rewrite mark_to_increment_last_present. }
  by rewrite !Hfilter.
Qed.

Lemma mark_priority_code_first_witness :
  let lexer := Sample.lexer_of "Python" Sample.assignment_with_comment in
  let W := Sample.world_of [] (Ok (u "x = 1  # note" ++ [Py.NL])) (Ok lexer) in
  source_analysis W (u "x.py") (u "g") (u "latin-1") (u "cp1252")
  = Ok (SourceAnalysis.mk (u "x.py") (Some (u "Python")) (u "g") 1 0 0 0).
Proof.
  intros lexer W.
  destruct mark_priority_code_first as (_ & _ & _ & Hcounts).
  etransitivity.
  - apply (Hcounts W (u "x.py") (u "g") (u "latin-1") (u "cp1252") lexer
             (u "latin-1") (u "x = 1  # note" ++ [Py.NL])
             [{["d"; "c"]}%string]).
    + reflexivity.
    + reflexivity.
    + reflexivity.
    + vm_compute. reflexivity.
  - vm_compute. reflexivity.
Defined.

(** C2. When a lexer is found, the file is read and the classifier emits
    its mark-sets, the record returned has code + documentation + empty +
    string equal to the number of mark-sets emitted.  For a file that is
    skipped, and for one whose reading fails with an I/O or a decoding
    error, the four counts are zero. *)
Theorem counts_add_up_to_lines
    (W : World) (source_path group encoding fallback_encoding : str) :
  (∀ lexer encoding' text lines,
      get_lexer_for_filename W source_path = Ok lexer →
      resolved_encoding W source_path encoding fallback_encoding = Ok encoding' →
      read_text W source_path encoding' None = Ok text →
      _line_parts lexer text = Ok lines →
      ∃ r, source_analysis W source_path group encoding fallback_encoding = Ok r
           ∧ SourceAnalysis.language r = Some (name lexer)
           ∧ SourceAnalysis.code r + SourceAnalysis.documentation r
             + SourceAnalysis.empty r + SourceAnalysis.string r
             = length lines)
  ∧ (get_lexer_for_filename W source_path = Raise ClassNotFound →
     ∃ r, source_analysis W source_path group encoding fallback_encoding = Ok r
          ∧ SourceAnalysis.language r = None
          ∧ SourceAnalysis.code r = 0 ∧ SourceAnalysis.documentation r = 0
          ∧ SourceAnalysis.empty r = 0 ∧ SourceAnalysis.string r = 0)
  ∧ (∀ lexer encoding' e,
        get_lexer_for_filename W source_path = Ok lexer →
        resolved_encoding W source_path encoding fallback_encoding = Ok encoding' →
        read_text W source_path encoding' None = Raise e →
        e = OSError ∨ e = UnicodeDecodeError →
        ∃ r, source_analysis W source_path group encoding fallback_encoding = Ok r
             ∧ SourceAnalysis.language r = Some (u "error")
             ∧ SourceAnalysis.code r = 0 ∧ SourceAnalysis.documentation r = 0
             ∧ SourceAnalysis.empty r = 0 ∧ SourceAnalysis.string r = 0).
Proof.
  split; [|split].
  - intros lexer encoding' text lines Hlexer Henc Htext Hlines.
    eexists. split; [by eapply source_analysis_counted|].
    split; [reflexivity|]. simpl. apply lines_with_total.
  - intros Hskip. eexists. split; [by apply source_analysis_skip|done].
  - intros lexer encoding' e Hlexer Henc Htext He.
    eexists. split; [by eapply source_analysis_error|done].
Qed.

Lemma counts_add_up_to_lines_witness :
  let lexer := Sample.lexer_of "Python" Sample.assignment_with_comment in
  let text := u "x = 1  # note" ++ [Py.NL] in
  (∃ r, source_analysis (Sample.world_of (b "x = 1  # note" ++ [x0a]) (Ok text) (Ok lexer))
          (u "x.py") (u "g") (u "automatic") (u "cp1252") = Ok r
        ∧ SourceAnalysis.language r = Some (u "Python")
        ∧ SourceAnalysis.code r + SourceAnalysis.documentation r
          + SourceAnalysis.empty r + SourceAnalysis.string r = 1)
  ∧ (∃ r, source_analysis (Sample.world_of [] (Ok text) (Raise ClassNotFound))
            (u "x.zzz") (u "g") (u "automatic") (u "cp1252") = Ok r
          ∧ SourceAnalysis.language r = None
          ∧ SourceAnalysis.code r = 0 ∧ SourceAnalysis.documentation r = 0
          ∧ SourceAnalysis.empty r = 0 ∧ SourceAnalysis.string r = 0)
  ∧ (∃ r, source_analysis
            (Sample.world_of [] (Raise UnicodeDecodeError) (Ok lexer))
            (u "x.py") (u "g") (u "automatic") (u "cp1252") = Ok r
          ∧ SourceAnalysis.language r = Some (u "error")
          ∧ SourceAnalysis.code r = 0 ∧ SourceAnalysis.documentation r = 0
          ∧ SourceAnalysis.empty r = 0 ∧ SourceAnalysis.string r = 0).
Proof.
  intros lexer text. split; [|split].
  - apply (proj1 (counts_add_up_to_lines
                    (Sample.world_of (b "x = 1  # note" ++ [x0a]) (Ok text) (Ok lexer))
                    (u "x.py") (u "g") (u "automatic") (u "cp1252"))
             lexer (u "utf-8") text [{["d"; "c"]}%string]).
    + reflexivity.
    + vm_compute. reflexivity.
    + reflexivity.
    + vm_compute. reflexivity.
  - apply (proj1 (proj2 (counts_add_up_to_lines
                    (Sample.world_of [] (Ok text) (Raise ClassNotFound))
                    (u "x.zzz") (u "g") (u "automatic") (u "cp1252")))).
    reflexivity.
  - apply (proj2 (proj2 (counts_add_up_to_lines
                    (Sample.world_of [] (Raise UnicodeDecodeError) (Ok lexer))
                    (u "x.py") (u "g") (u "automatic") (u "cp1252")))
             lexer (u "utf-8") UnicodeDecodeError).
    + reflexivity.
    + vm_compute. reflexivity.
    + reflexivity.
    + right. reflexivity.
Defined.



(** In automatic mode the file is first opened by [encoding_for], outside
    the [try] of [source_analysis]: a failure there is raised to the
    caller. *)
Lemma automatic_open_failure_is_raised
    (W : World) (source_path group fallback_encoding : str)
    (lexer : Lexer) (e : exn) :
  get_lexer_for_filename W source_path = Ok lexer →
  read_binary W source_path = Raise e →
  source_analysis W source_path group (u "automatic") fallback_encoding
  = Raise e.
Proof.
  intros Hlexer Hopen. unfold source_analysis. rewrite Hlexer, bind_Ok.
  unfold encoding_for. change (Py.str_eqb (u "automatic") (u "automatic")) with true.
  cbv iota. by rewrite Hopen.
Qed.

(** ** The lines of a text *)

Section LineParts.
Implicit Types (lexer : Lexer) (text : str) (tokens : list token).

(** The tokens the loop of [_line_parts] runs over. *)
Lemma line_parts_tokens lexer text chars white_words :
  white_characters (Py.lower (name lexer)) = Ok chars →
  white_code_words (Py.lower (name lexer)) = Ok white_words →
  _line_parts lexer text
  = Ok (line_parts_loop (WHITESPACE ++ chars) white_words ∅
          (if Py.str_eqb (name lexer) (u "Python")
           then _pythonized_comments (_delined_tokens (get_tokens lexer text))
           else _delined_tokens (get_tokens lexer text))).
Proof. intros Hchars Hwords. unfold _line_parts. by rewrite Hchars, Hwords. Qed.

Lemma line_parts_python lexer text :
  name lexer = u "Python" →
  _line_parts lexer text
  = Ok (line_parts_loop (WHITESPACE ++ u "()[]{};") [u "pass"] ∅
          (_pythonized_comments (_delined_tokens (get_tokens lexer text)))).
Proof.
  intros Hname.
  rewrite (line_parts_tokens lexer text (u "()[]{};") [u "pass"])
    by (by rewrite Hname).
  by rewrite Hname.
Qed.


End LineParts.

Section PythonLines.
Context (lexer : Lexer) (text : str).
Hypothesis Hname : name lexer = u "Python".

Let white_text : str := WHITESPACE ++ u "()[]{};".
Let white_words : list str := [u "pass"].

(** The mark of a token is in the mark-set of its line, for the type the
    reclassifier yields the token with. *)
Lemma python_token_mark (m : string) before tok after :
  _delined_tokens (get_tokens lexer text) = before ++ tok :: after →
  (∀ marks, m ∈ token_marks white_text white_words marks
                  (pythonized_step (pythonized_state true before) tok).2) →
  ∃ lines marks,
    _line_parts lexer text = Ok lines
    ∧ lines !! line_closing before = Some marks
    ∧ m ∈ marks.
Proof using Hname.
  intros Htokens Hm. rewrite (line_parts_python lexer text Hname), Htokens.
  unfold _pythonized_comments. rewrite pythonized_loop_middle.
  rewrite <- (pythonized_loop_closing true before).
  edestruct (line_parts_loop_at white_text white_words m ∅) as (ms & Hms & Hin);
    [exact Hm|].
  eexists _, ms. split; [reflexivity|]. split; [exact Hms|exact Hin].
Qed.

(** The mark-set of the line of a token that stands alone on it, between
    blank tokens. *)
Lemma python_token_line head indent tok end_type end_text after :
  _delined_tokens (get_tokens lexer text)
  = head ++ indent ++ tok :: (end_type, end_text) :: after →
  complete_lines head →
  Forall (λ t, blank_token t ∧ Py.endswith t.2 Py.NL = false) indent →
  Py.endswith tok.2 Py.NL = false →
  blank_token (end_type, end_text) →
  Py.endswith end_text Py.NL = true →
  ∃ lines,
    _line_parts lexer text = Ok lines
    ∧ lines !! line_closing head
      = Some (token_marks white_text white_words ∅
                (pythonized_step (pythonized_state true head) tok).2).
Proof using Hname.
  intros Htokens Hhead Hindent Htok Hblank Hend.
  rewrite (line_parts_python lexer text Hname), Htokens.
  unfold _pythonized_comments. rewrite pythonized_loop_app.
  rewrite pythonized_loop_blank
    by (eapply Forall_impl; [exact Hindent|]; by intros t [? _]).
  cbn [pythonized_loop].
  pose proof (pythonized_step_token (pythonized_state true head) tok) as Hstep.
  destruct (pythonized_step (pythonized_state true head) tok) as [st out].
  rewrite (pythonized_step_blank st _ Hblank). cbn [snd] in *.
  eexists. split; [reflexivity|].
  rewrite <- (pythonized_loop_closing true head).
  apply line_parts_loop_single; try done.
  - by apply pythonized_loop_complete.
  - by destruct Hstep as [->|[_ ->]].
Qed.

End PythonLines.

(** C3. For Python, the reclassifier starts with [is_after_colon] true and
    threads it through the tokens.  A String token read while it is true
    is yielded as a Comment token and leaves it true; else a token whose
    text is [":"] sets it to true; else a token that is not a Comment and
    whose text is not whitespace only sets it to false; any other token
    leaves it as it is.  Hence a string literal that follows a colon, with
    only whitespace in between, is yielded as a Comment, while the same
    literal after a code token that is not a colon is yielded as it is.
    For the lexer named Python, [_line_parts] classifies the tokens that
    the reclassifier yields: the mark-set it emits for the line of a
    literal that follows a colon holds documentation, and when the literal
    stands alone on its line this mark-set is documentation only, counted
    as documentation.  The mark-set of the line of a literal that follows
    a code token holds string, and it is string only, counted as string,
    when the literal stands alone on its line. *)
Theorem pythonized_comments_colon :
  (∀ tokens i,
      _pythonized_comments tokens !! i
      = (λ tok, (pythonized_step (pythonized_state true (take i tokens)) tok).2)
          <$> tokens !! i)
  ∧ (∀ ty text,
        token.contains token.String ty = true →
        pythonized_step true (ty, text) = (true, (token.Comment, text)))
  ∧ (∀ st ty text,
        text = u ":" → (pythonized_step st (ty, text)).1 = true)
  ∧ (∀ st ty text,
        st && token.contains token.String ty = false →
        text ≠ u ":" →
        token.contains token.Comment ty = false →
        ¬ whitespace_only text →
        pythonized_step st (ty, text) = (false, (ty, text)))
  ∧ (∀ st ty text,
        st && token.contains token.String ty = false →
        text ≠ u ":" →
        token.contains token.Comment ty = true ∨ whitespace_only text →
        pythonized_step st (ty, text) = (st, (ty, text)))
  ∧ (∀ pre colon_type ws string_type literal post,
        Forall (λ t : token, whitespace_only t.2) ws →
        token.contains token.String string_type = true →
        _pythonized_comments
          (pre ++ (colon_type, u ":") :: ws ++ (string_type, literal) :: post)
          !! (length pre + 1 + length ws)
        = Some (token.Comment, literal))
  ∧ (∀ pre code_type code_text ws string_type literal post,
        token.contains token.String code_type = false →
        token.contains token.Comment code_type = false →
        code_text ≠ u ":" →
        ¬ whitespace_only code_text →
        Forall (λ t : token, whitespace_only t.2) ws →
        token.contains token.String string_type = true →
        _pythonized_comments
          (pre ++ (code_type, code_text) :: ws ++ (string_type, literal) :: post)
          !! (length pre + 1 + length ws)
        = Some (string_type, literal))
  ∧ (∀ lexer text,
        name lexer = u "Python" →
        _line_parts lexer text
        = Ok (line_parts_loop (WHITESPACE ++ u "()[]{};") [u "pass"] ∅
                (_pythonized_comments
                   (_delined_tokens (get_tokens lexer text)))))
  ∧ (∀ lexer text pre colon_type ws string_type literal post,
        name lexer = u "Python" →
        _delined_tokens (get_tokens lexer text)
        = pre ++ (colon_type, u ":") :: ws ++ (string_type, literal) :: post →
        Forall (λ t : token, whitespace_only t.2) ws →
        token.contains token.String string_type = true →
        ∃ lines marks,
          _line_parts lexer text = Ok lines
          ∧ lines !! line_closing (pre ++ (colon_type, u ":") :: ws) = Some marks
          ∧ "d"%string ∈ marks)
  ∧ (∀ lexer text pre code_type code_text ws string_type literal post,
        name lexer = u "Python" →
        _delined_tokens (get_tokens lexer text)
        = pre ++ (code_type, code_text) :: ws ++ (string_type, literal) :: post →
        token.contains token.String code_type = false →
        token.contains token.Comment code_type = false →
        code_text ≠ u ":" →
        ¬ whitespace_only code_text →
        Forall (λ t : token, whitespace_only t.2) ws →
        token.contains token.String string_type = true →
        ∃ lines marks,
          _line_parts lexer text = Ok lines
          ∧ lines !! line_closing (pre ++ (code_type, code_text) :: ws)
            = Some marks
          ∧ "s"%string ∈ marks)
  ∧ (∀ lexer text pre colon_type ws indent string_type literal
       end_type end_text post,
        name lexer = u "Python" →
        _delined_tokens (get_tokens lexer text)
        = (pre ++ (colon_type, u ":") :: ws)
            ++ indent ++ (string_type, literal) :: (end_type, end_text) :: post →
        Forall (λ t : token, whitespace_only t.2) ws →
        complete_lines (pre ++ (colon_type, u ":") :: ws) →
        Forall (λ t, blank_token t ∧ Py.endswith t.2 Py.NL = false) indent →
        token.contains token.String string_type = true →
        Py.endswith literal Py.NL = false →
        blank_token (end_type, end_text) →
        Py.endswith end_text Py.NL = true →
        ∃ lines,
          _line_parts lexer text = Ok lines
          ∧ lines !! line_closing (pre ++ (colon_type, u ":") :: ws)
            = Some {["d"%string]}
          ∧ mark_to_increment {["d"%string]} = "d"%string)
  ∧ (∀ lexer text pre code_type code_text ws indent string_type literal
       end_type end_text post,
        name lexer = u "Python" →
        _delined_tokens (get_tokens lexer text)
        = (pre ++ (code_type, code_text) :: ws)
            ++ indent ++ (string_type, literal) :: (end_type, end_text) :: post →
        token.contains token.String code_type = false →
        token.contains token.Comment code_type = false →
        code_text ≠ u ":" →
        ¬ whitespace_only code_text →
        Forall (λ t : token, whitespace_only t.2) ws →
        complete_lines (pre ++ (code_type, code_text) :: ws) →
        Forall (λ t, blank_token t ∧ Py.endswith t.2 Py.NL = false) indent →
        token.contains token.String string_type = true →
        Py.endswith literal Py.NL = false →
        blank_token (end_type, end_text) →
        Py.endswith end_text Py.NL = true →
        ∃ lines,
          _line_parts lexer text = Ok lines
          ∧ lines !! line_closing (pre ++ (code_type, code_text) :: ws)
            = Some {["s"%string]}
          ∧ mark_to_increment {["s"%string]} = "s"%string).
Proof.
  split; [intros; apply pythonized_loop_lookup|].
  split; [apply step_string|].
  split; [apply step_colon|].
  split; [apply step_code|].
  split; [apply step_other|].
  assert (Hat : ∀ (pre : list token) tok ws tok' post,
             (pre ++ tok :: ws ++ tok' :: post) !! (length pre + 1 + length ws)
             = Some tok'
             ∧ take (length pre + 1 + length ws) (pre ++ tok :: ws ++ tok' :: post)
               = pre ++ tok :: ws).
  { intros pre tok ws tok' post.
    replace (pre ++ tok :: ws ++ tok' :: post)
      with ((pre ++ tok :: ws) ++ tok' :: post)
      by (rewrite <- !app_assoc; reflexivity).
    replace (length pre + 1 + length ws) with (length (pre ++ tok :: ws))
      by (rewrite !length_app; simpl; lia).
    split; [apply list_lookup_middle; reflexivity|apply take_app_length]. }
  assert (Hdoc : ∀ st ty literal,
             st = true →
             token.contains token.String ty = true →
             (pythonized_step st (ty, literal)).2 = (token.Comment, literal)).
  { intros st ty literal -> Hty. by rewrite step_string. }
  assert (Hstr : ∀ st ty literal,
             st = false →
             (pythonized_step st (ty, literal)).2 = (ty, literal)).
  { intros st ty literal ->. apply step_false_token. }
  assert (Hd : ∀ wt ww marks literal,
             token_marks wt ww marks (token.Comment, literal)
             = {["d"%string]} ∪ marks) by reflexivity.
  assert (Hs : ∀ wt ww marks ty literal,
             token.contains token.String ty = true →
             token_marks wt ww marks (ty, literal) = {["s"%string]} ∪ marks).
  { intros wt ww marks ty literal Hty. unfold token_marks.
    by rewrite (comment_not_string _ Hty), Hty. }
  split; [|split; [|split; [|split; [|split; [|split]]]]].
  - intros pre cty ws sty s post Hws Hsty.
    unfold _pythonized_comments. rewrite pythonized_loop_lookup.
    destruct (Hat pre (cty, u ":") ws (sty, s) post) as [-> ->].
    cbn [fmap option_fmap option_map]. f_equal.
    apply Hdoc; [by apply state_after_colon|exact Hsty].
  - intros pre cty ctext ws sty s post Hnots Hnotc Hne Hcode Hws Hsty.
    unfold _pythonized_comments. rewrite pythonized_loop_lookup.
    destruct (Hat pre (cty, ctext) ws (sty, s) post) as [-> ->].
    cbn [fmap option_fmap option_map]. f_equal.
    apply Hstr. by apply state_after_code.
  - apply line_parts_python.
  - intros lexer text pre cty ws sty s post Hname Htokens Hws Hsty.
    apply (python_token_mark lexer text Hname "d" _ (sty, s) post).
    + rewrite Htokens. by rewrite <- app_assoc.
    + intros marks. rewrite Hdoc, Hd; [set_solver| |exact Hsty].
      by apply state_after_colon.
  - intros lexer text pre cty ctext ws sty s post Hname Htokens
      Hnots Hnotc Hne Hcode Hws Hsty.
    apply (python_token_mark lexer text Hname "s" _ (sty, s) post).
    + rewrite Htokens. by rewrite <- app_assoc.
    + intros marks. rewrite Hstr, Hs; [set_solver|exact Hsty|].
      by apply state_after_code.
  - intros lexer text pre cty ws indent sty s ety etext post Hname Htokens
      Hws Hlines Hindent Hsty Hend Hblank Hnl.
    destruct (python_token_line lexer text Hname _ indent (sty, s) ety etext post
                Htokens Hlines Hindent Hend Hblank Hnl) as (lines & Hparts & Hline).
    exists lines. split; [exact Hparts|]. split; [|reflexivity].
    rewrite Hline, Hdoc, Hd, union_empty_r_L; [reflexivity| |exact Hsty].
    by apply state_after_colon.
  - intros lexer text pre cty ctext ws indent sty s ety etext post Hname Htokens
      Hnots Hnotc Hne Hcode Hws Hlines Hindent Hsty Hend Hblank Hnl.
    destruct (python_token_line lexer text Hname _ indent (sty, s) ety etext post
                Htokens Hlines Hindent Hend Hblank Hnl) as (lines & Hparts & Hline).
    exists lines. split; [exact Hparts|]. split; [|reflexivity].
    rewrite Hline, Hstr, Hs, union_empty_r_L; [reflexivity|exact Hsty|].
    by apply state_after_code.
Qed.

Lemma pythonized_comments_colon_witness :
  let literal := Sample.quoted "doc" in
  let def_line :=
    [(Sample.Keyword, u "def"); (Sample.Text, u " "); (Sample.Name, u "f");
     (Sample.Punctuation, u "("); (Sample.Punctuation, u ")")] in
  let colon := (Sample.Punctuation, u ":") in
  let newline := (Sample.Text, [Py.NL]) in
  let indent := [(Sample.Text, u "    ")] in
  let docstring :=
    Sample.lexer_of "Python"
      (def_line ++ colon :: [newline] ++ indent
         ++ [(Sample.String_Doc, literal); newline]) in
  let assignment := [(Sample.Name, u "x"); (Sample.Text, u " ")] in
  let statement :=
    Sample.lexer_of "Python"
      (assignment ++ (Sample.Operator, u "=")
         :: [(Sample.Text, u " ")]
         ++ [(Sample.Number, u "1"); newline; (Sample.String_Doc, literal);
             newline]) in
  let same_line :=
    Sample.lexer_of "Python"
      (assignment ++ (Sample.Operator, u "=")
         :: [(Sample.Text, u " ")] ++ [(Sample.String_Doc, literal); newline]) in
  _pythonized_comments
    (def_line ++ colon :: [newline; (Sample.Text, u "    ")]
       ++ (Sample.String_Doc, literal) :: [newline])
    !! (length def_line + 1 + 2)
  = Some (token.Comment, literal)
  ∧ _pythonized_comments
      (assignment ++ (Sample.Operator, u "=") :: [(Sample.Text, u " ")]
         ++ (Sample.String_Doc, literal) :: [newline])
      !! (2 + 1 + 1)
    = Some (Sample.String_Doc, literal)
  ∧ (∃ lines,
        _line_parts docstring [] = Ok lines
        ∧ lines !! line_closing (def_line ++ colon :: [newline])
          = Some {["d"%string]}
        ∧ mark_to_increment {["d"%string]} = "d"%string)
  ∧ (∃ lines,
        _line_parts statement [] = Ok lines
        ∧ lines !! line_closing
                     ((assignment ++ [(Sample.Operator, u "="); (Sample.Text, u " ")])
                        ++ (Sample.Number, u "1") :: [newline])
          = Some {["s"%string]}
        ∧ mark_to_increment {["s"%string]} = "s"%string)
  ∧ (∃ lines marks,
        _line_parts same_line [] = Ok lines
        ∧ lines !! line_closing
                     (assignment ++ (Sample.Operator, u "=") :: [(Sample.Text, u " ")])
          = Some marks
        ∧ "s"%string ∈ marks)
  ∧ (∃ lines marks,
        _line_parts docstring [] = Ok lines
        ∧ lines !! line_closing (def_line ++ colon :: [newline] ++ indent)
          = Some marks
        ∧ "d"%string ∈ marks).
Proof.
  intros literal def_line colon newline indent docstring assignment statement
    same_line.
  destruct pythonized_comments_colon
    as (_ & _ & _ & _ & _ & Hdoc & Hstr & _ & Hd & Hs & Hdline & Hsline).
  split; [|split; [|split; [|split; [|split]]]].
  - refine (Hdoc def_line Sample.Punctuation [newline; (Sample.Text, u "    ")]
              Sample.String_Doc literal [newline] _ _).
    + repeat constructor.
    + reflexivity.
  - refine (Hstr assignment Sample.Operator (u "=") [(Sample.Text, u " ")]
              Sample.String_Doc literal [newline] _ _ _ _ _ _).
    + reflexivity.
    + reflexivity.
    + discriminate.
    + vm_compute. discriminate.
    + repeat constructor.
    + reflexivity.
  - refine (Hdline docstring [] def_line Sample.Punctuation [newline] indent
              Sample.String_Doc literal Sample.Text [Py.NL] []
              _ _ _ _ _ _ _ _ _).
    + reflexivity.
    + vm_compute. reflexivity.
    + repeat constructor.
    + right. exists (def_line ++ [colon]), Sample.Text, [Py.NL].
      split; reflexivity.
    + constructor; [|constructor]. split; [|reflexivity]. by repeat split.
    + reflexivity.
    + reflexivity.
    + by repeat split.
    + reflexivity.
  - refine (Hsline statement []
              (assignment ++ [(Sample.Operator, u "="); (Sample.Text, u " ")])
              Sample.Number (u "1") [newline] []
              Sample.String_Doc literal Sample.Text [Py.NL] []
              _ _ _ _ _ _ _ _ _ _ _ _ _).
    + reflexivity.
    + vm_compute. reflexivity.
    + reflexivity.
    + reflexivity.
    + discriminate.
    + vm_compute. discriminate.
    + repeat constructor.
    + right.
      exists (assignment ++ [(Sample.Operator, u "="); (Sample.Text, u " ");
                             (Sample.Number, u "1")]), Sample.Text, [Py.NL].
      split; reflexivity.
    + constructor.
    + reflexivity.
    + reflexivity.
    + by repeat split.
    + reflexivity.
  - refine (Hs same_line [] assignment Sample.Operator (u "=")
              [(Sample.Text, u " ")] Sample.String_Doc literal [newline]
              _ _ _ _ _ _ _ _).
    + reflexivity.
    + vm_compute. reflexivity.
    + reflexivity.
    + reflexivity.
    + discriminate.
    + vm_compute. discriminate.
    + repeat constructor.
    + reflexivity.
  - refine (Hd docstring [] def_line Sample.Punctuation ([newline] ++ indent)
              Sample.String_Doc literal [newline] _ _ _ _).
    + reflexivity.
    + vm_compute. reflexivity.
    + repeat constructor.
    + reflexivity.
Defined.

(** The two lines of [def f():] with a docstring are counted as code and
    documentation; the line [x = "doc"] has the marks code and string. *)
Example docstring_lines :
  let literal := Sample.quoted "doc" in
  _line_parts
    (Sample.lexer_of "Python"
       [(Sample.Keyword, u "def"); (Sample.Text, u " "); (Sample.Name, u "f");
        (Sample.Punctuation, u "("); (Sample.Punctuation, u ")");
        (Sample.Punctuation, u ":"); (Sample.Text, [Py.NL]);
        (Sample.Text, u "    "); (Sample.String_Doc, literal);
        (Sample.Text, [Py.NL])]) []
  = Ok [{["c"%string]}; {["d"%string]}]
  ∧ _line_parts
      (Sample.lexer_of "Python"
         [(Sample.Name, u "x"); (Sample.Text, u " "); (Sample.Operator, u "=");
          (Sample.Text, u " "); (Sample.String_Doc, literal);
          (Sample.Text, [Py.NL])]) []
    = Ok [{["c"; "s"]}%string].
Proof. split; vm_compute; reflexivity. Qed.



(** A file of the line [x] followed by two blanks: with a newline behind
    the blanks they count as an empty line, without it they are not
    counted. *)
Example trailing_blanks_counted :
  let world tokens :=
    Sample.world_of [] (Ok []) (Ok (Sample.lexer_of "Text only" tokens)) in
  let line := [(Sample.Name, u "x"); (Sample.Text, [Py.NL])] in
  source_analysis (world (line ++ [(Sample.Text, u "  " ++ [Py.NL])]))
    (u "a.txt") (u "g") (u "automatic") (u "cp1252")
  = Ok (SourceAnalysis.mk (u "a.txt") (Some (u "Text only")) (u "g") 1 0 1 0)
  ∧ source_analysis (world (line ++ [(Sample.Text, u "  ")]))
      (u "a.txt") (u "g") (u "automatic") (u "cp1252")
    = Ok (SourceAnalysis.mk (u "a.txt") (Some (u "Text only")) (u "g") 1 0 0 0).
Proof. split; vm_compute; reflexivity. Qed.

(** ** White code words *)

Section WhiteWords.

(** The white text of every language: [' \f\n\r\t' + '()[]{};']. *)
Let white_text : str := WHITESPACE ++ u "()[]{};".




End WhiteWords.



(** ** The encoding detector: byte order marks *)

Section Bom.
Implicit Types (heading data bom : bytes) (items : list (bytes * str)).

(** The test of the code, [heading[:len(bom)] == bom], is the prefix
    test. *)
Lemma take_eq_prefix bom heading :
  take (length bom) heading = bom ↔ bom `prefix_of` heading.
Proof.
  split.
  - intros <-. apply prefix_take.
  - intros [rest ->]. apply take_app_length.
Qed.

Lemma bom_loop_first heading items before bom encoding after :
  items = before ++ (bom, encoding) :: after →
  bom `prefix_of` heading →
  (∀ bom' encoding', (bom', encoding') ∈ before → ¬ bom' `prefix_of` heading) →
  bom_loop heading items = Some encoding.
Proof.
  intros -> Hbom. induction before as [|[bom' encoding'] before IH];
    intros Hbefore; cbn [app bom_loop].
  - rewrite bool_decide_eq_true_2; [reflexivity|by apply take_eq_prefix].
  - rewrite bool_decide_eq_false_2.
    + apply IH. intros bom'' encoding'' Hin.
      apply (Hbefore bom'' encoding''). by right.
    + rewrite take_eq_prefix. apply (Hbefore bom' encoding'). by left.
Qed.

Lemma bom_length bom encoding :
  (bom, encoding) ∈ _BOM_TO_ENCODING_MAP → 1 ≤ length bom ≤ 4.
Proof.
  unfold _BOM_TO_ENCODING_MAP. rewrite !elem_of_cons, elem_of_nil.
  intros [H|[H|[H|[H|[H|[]]]]]]; injection H as -> _; simpl; lia.
Qed.

(** A BOM starts the heading exactly when it starts the file. *)
Lemma bom_prefix_heading bom encoding data :
  (bom, encoding) ∈ _BOM_TO_ENCODING_MAP →
  bom `prefix_of` take 128 data ↔ bom `prefix_of` data.
Proof.
  intros Hin%bom_length. rewrite <- !take_eq_prefix, take_take.
  by replace (length bom `min` 128) with (length bom) by lia.
Qed.

(** In automatic mode a BOM found by the loop is the result. *)
Lemma encoding_for_bom W source_path fallback_encoding data encoding :
  read_binary W source_path = Ok data →
  data ≠ [] →
  bom_loop (take 128 data) _BOM_TO_ENCODING_MAP = Some encoding →
  encoding_for W source_path (u "automatic") fallback_encoding = Ok encoding.
Proof.
  intros Hdata Hne Hbom. unfold encoding_for.
  change (Py.str_eqb (u "automatic") (u "automatic")) with true. cbv iota.
  rewrite Hdata, bind_Ok. cbv zeta.
  destruct data as [|x data]; [done|].
  change (length (take 128 (x :: data)) =? 0) with false. cbv iota.
  rewrite Hbom. reflexivity.
Qed.

End Bom.

(** C4. In automatic mode the BOMs are tried in the order utf-8-sig,
    utf-32-le, utf-16-be, utf-16-le, utf-32-be, and the encoding of the
    first one that is a prefix of the file is the result.  So a file that
    starts with FF FE 00 00 resolves to utf-32-le, not to utf-16-le, whose
    BOM FF FE starts it too. *)
Theorem bom_first_match_wins
    (W : World) (source_path fallback_encoding : str) (data : bytes) :
  read_binary W source_path = Ok data →
  _BOM_TO_ENCODING_MAP.*2
  = [u "utf-8-sig"; u "utf-32-le"; u "utf-16-be"; u "utf-16-le"; u "utf-32-be"]
  ∧ (∀ before bom encoding after,
        _BOM_TO_ENCODING_MAP = before ++ (bom, encoding) :: after →
        bom `prefix_of` data →
        (∀ bom' encoding', (bom', encoding') ∈ before → ¬ bom' `prefix_of` data) →
        encoding_for W source_path (u "automatic") fallback_encoding
        = Ok encoding)
  ∧ ([xff; xfe; x00; x00] `prefix_of` data →
     [xff; xfe] `prefix_of` data
     ∧ encoding_for W source_path (u "automatic") fallback_encoding
       = Ok (u "utf-32-le")
     ∧ encoding_for W source_path (u "automatic") fallback_encoding
       ≠ Ok (u "utf-16-le")).
Proof.
  intros Hdata. split; [reflexivity|].
  assert (Hfirst : ∀ before bom encoding after,
             _BOM_TO_ENCODING_MAP = before ++ (bom, encoding) :: after →
             bom `prefix_of` data →
             (∀ bom' encoding', (bom', encoding') ∈ before
                                → ¬ bom' `prefix_of` data) →
             encoding_for W source_path (u "automatic") fallback_encoding
             = Ok encoding).
  { intros before bom encoding after Hmap Hbom Hbefore.
    assert (Hin : ∀ bom' encoding', (bom', encoding') ∈ before ++ [(bom, encoding)]
                                    → (bom', encoding') ∈ _BOM_TO_ENCODING_MAP).
    { intros bom' encoding' H. rewrite Hmap.
      apply elem_of_app in H as [H|H%list_elem_of_singleton]; apply elem_of_app.
      - by left.
      - right. rewrite H. by left. }
    apply (encoding_for_bom W _ _ data); [exact Hdata| |].
    - destruct Hbom as [rest ->].
      pose proof (bom_length bom encoding) as Hlen.
      destruct bom; [|done]. simpl in Hlen.
      assert (1 ≤ 0 ≤ 4); [|lia]. apply Hlen, Hin, elem_of_app. right. by left.
    - apply (bom_loop_first _ _ before bom encoding after Hmap).
      + apply (bom_prefix_heading bom encoding); [|exact Hbom].
        apply Hin, elem_of_app. right. by left.
      + intros bom' encoding' H Hprefix. apply (Hbefore bom' encoding' H).
        apply (bom_prefix_heading bom' encoding'); [|exact Hprefix].
        apply Hin, elem_of_app. by left. }
  split; [exact Hfirst|].
  intros Hbom. split.
  { destruct Hbom as [rest ->]. by exists ([x00; x00] ++ rest). }
  assert (encoding_for W source_path (u "automatic") fallback_encoding
          = Ok (u "utf-32-le")) as ->; [|split; [reflexivity|discriminate]].
  apply (Hfirst [([xef; xbb; xbf], u "utf-8-sig")] [xff; xfe; x00; x00]
           (u "utf-32-le")
           [([xfe; xff], u "utf-16-be"); ([xff; xfe], u "utf-16-le");
            ([x00; x00; xfe; xff], u "utf-32-be")]);
    [reflexivity|exact Hbom|].
  intros bom' encoding' [= -> _]%list_elem_of_singleton [rest' Hutf8].
  destruct Hbom as [rest ->]. discriminate.
Qed.

Lemma bom_first_match_wins_witness :
  let W := Sample.world_of ([xff; xfe; x00; x00] ++ [x61; x00; x00; x00])
             (Ok (u "a")) (Raise ClassNotFound) in
  encoding_for W (u "a.txt") (u "automatic") (u "cp1252") = Ok (u "utf-32-le")
  ∧ encoding_for W (u "a.txt") (u "automatic") (u "cp1252") ≠ Ok (u "utf-16-le").
Proof.
  intros W.
  refine (proj2 (proj2 (proj2 (bom_first_match_wins W (u "a.txt") (u "cp1252")
            ([xff; xfe; x00; x00] ++ [x61; x00; x00; x00]) _)) _)).
  - reflexivity.
  - by exists [x61; x00; x00; x00].
Defined.

(** ** The encoding detector: the coding declaration *)

Section RegexFacts.
Context {A : Type}.
Implicit Types (p : N → bool) (prev : option N) (s text rest : str)
  (k : option N → str → option A).

Lemma prev_after_cons prev x s :
  prev_after (Some x) s = prev_after prev (x :: s).
Proof.
  unfold prev_after. rewrite last_cons. by destruct (last s).
Qed.

(** A literal that starts the text is consumed. *)
Lemma lit_app s prev rest k :
  Regex.lit s prev (s ++ rest) k = k (prev_after prev s) rest.
Proof.
  revert prev. induction s as [|c s IH]; intros prev; [reflexivity|].
  cbn [app Regex.lit]. rewrite N.eqb_refl, IH.
  by rewrite (prev_after_cons prev).
Qed.

(** A literal that does not start the text fails. *)
Lemma lit_fail s prev text k :
  ¬ s `prefix_of` text → Regex.lit s prev text k = None.
Proof.
  revert prev text. induction s as [|c s IH]; intros prev text Hnot.
  - destruct Hnot. apply prefix_nil.
  - destruct text as [|x text]; [reflexivity|]. cbn [Regex.lit].
    destruct (N.eqb_spec x c) as [->|]; [|reflexivity].
    apply IH. intros Hprefix. apply Hnot. by apply prefix_cons.
Qed.

(** A repetition runs over the characters of its class; when what
    follows succeeds behind them, that is the match. *)
Lemma star_app p prev s rest k m :
  Forall (λ c, p c = true) s →
  Regex.star p (prev_after prev s) rest k = Some m →
  Regex.star p prev (s ++ rest) k = Some m.
Proof.
  intros Hs. revert prev. induction Hs as [|c s Hc _ IH]; intros prev Hm.
  - exact Hm.
  - cbn [app Regex.star]. rewrite Hc, (IH (Some c)); [reflexivity|].
    by rewrite (prev_after_cons prev).
Qed.

(** A repetition stops at a character outside its class. *)
Lemma star_stop p prev text k :
  from_option p false (head text) = false →
  Regex.star p prev text k = k prev text.
Proof. destruct text as [|x text]; simpl; [done|]. by intros ->. Qed.

(** When what follows fails at every later position, a repetition gives
    back all it has taken. *)
Lemma star_back p prev text k :
  (∀ j, 0 < j ≤ length text → k (prev_after prev (take j text)) (drop j text) = None) →
  Regex.star p prev text k = k prev text.
Proof.
  revert prev. induction text as [|x text IH]; intros prev Hlater; [reflexivity|].
  cbn [Regex.star]. destruct (p x); [|reflexivity].
  rewrite IH.
  - assert (k (Some x) text = None) as ->; [|reflexivity].
    apply (Hlater 1). simpl. lia.
  - intros j Hj. rewrite (prev_after_cons prev).
    apply (Hlater (S j)). simpl. lia.
Qed.

End RegexFacts.

Section CodingMagic.
Implicit Types (prev : option N) (pre ws name rest text : str) (sep : N).

Lemma coding_magic_unfold text :
  Regex.match_ _CODING_MAGIC_REGEX text
  = Regex.plus Regex.any_char None text declaration_at.
Proof. reflexivity. Qed.

Lemma encoding_char_not_blank c :
  encoding_char c = true → Py.char_in c [32; 9]%N = false.
Proof.
  intros Hc. unfold Py.char_in. cbn [existsb].
  destruct (N.eqb_spec c 32) as [->|]; [discriminate|].
  destruct (N.eqb_spec c 9) as [->|]; [discriminate|reflexivity].
Qed.

Lemma word_encoding_char c : Regex.is_word c = true → encoding_char c = true.
Proof.
  unfold Regex.is_word, encoding_char. intros H.
  destruct (Regex.is_letter c); [by rewrite orb_true_r|].
  destruct (Regex.is_digit c); [by rewrite !orb_true_r|].
  simpl in H. apply N.eqb_eq in H as ->. reflexivity.
Qed.

(** A declaration at the match position is matched, and the name it
    gives is captured. *)
Lemma declaration_at_declaration prev sep ws name rest :
  Py.char_in sep (u ":=") = true →
  Forall (λ c, Py.char_in c [32; 9]%N = true) ws →
  name ≠ [] →
  Forall (λ c, encoding_char c = true) name →
  from_option Regex.is_word false (last name) = true →
  from_option encoding_char false (head rest) = false →
  declaration_at prev (u "coding" ++ sep :: ws ++ name ++ rest)
  = Some (Some name).
Proof.
  intros Hsep Hws Hne Hname Hlast Hrest.
  unfold declaration_at, coding_declaration. cbn [Regex.seq Regex.run].
  rewrite lit_app. cbn [Regex.chr]. rewrite Hsep.
  destruct name as [|c name]; [done|]. inversion Hname as [|? ? Hc Hname']; subst.
  apply star_app; [exact Hws|].
  rewrite star_stop by (simpl; by apply encoding_char_not_blank).
  cbn [app Regex.plus]. rewrite Hc.
  apply star_app; [exact Hname'|].
  rewrite star_stop by exact Hrest.
  assert (Regex.at_boundary (prev_after (Some c) name) rest = true) as ->.
  { unfold Regex.at_boundary. rewrite (prev_after_cons None).
    unfold prev_after. revert Hlast.
    destruct (last (c :: name)) as [z|]; [|done].
    cbn [from_option]. intros ->.
    destruct (head rest) as [y|]; [|reflexivity]. cbn [from_option] in *.
    destruct (Regex.is_word y) eqn:Hy; [|reflexivity].
    apply word_encoding_char in Hy. congruence. }
  do 2 f_equal.
  replace (length (c :: name ++ rest) - length rest) with (length (c :: name))
    by (simpl; rewrite length_app; lia).
  apply (take_app_length (c :: name)).
Qed.

(** Where the text does not go on with [coding], no declaration is
    matched. *)
Lemma declaration_at_fail prev text :
  ¬ u "coding" `prefix_of` text → declaration_at prev text = None.
Proof.
  intros Hnot. unfold declaration_at, coding_declaration.
  cbn [Regex.seq Regex.run]. by apply lit_fail.
Qed.

(** [.+] is greedy: of the declarations in the text the pattern matches
    the last one.  Here, a declaration with at least one character
    before it and no [coding] after it. *)
Lemma coding_magic_declaration pre sep ws name rest :
  pre ≠ [] →
  Py.char_in sep (u ":=") = true →
  Forall (λ c, Py.char_in c [32; 9]%N = true) ws →
  name ≠ [] →
  Forall (λ c, encoding_char c = true) name →
  from_option Regex.is_word false (last name) = true →
  from_option encoding_char false (head rest) = false →
  (∀ j, ¬ u "coding" `prefix_of` drop j (ws ++ name ++ rest)) →
  Regex.match_ _CODING_MAGIC_REGEX
    (pre ++ u "coding" ++ sep :: ws ++ name ++ rest)
  = Some (Some name).
Proof.
  intros Hpre Hsep Hws Hne Hname Hlast Hrest Hlater.
  rewrite coding_magic_unfold. destruct pre as [|x pre]; [done|].
  cbn [app Regex.plus]. change (Regex.any_char x) with true. cbv iota.
  apply star_app; [by apply Forall_forall|].
  rewrite star_back; [by apply declaration_at_declaration|].
  intros j Hj. apply declaration_at_fail.
  assert (Hsepc : sep ≠ 99%N) by (intros ->; discriminate).
  do 7 (destruct j as [|j]; [try lia; intros [t Ht]; simplify_eq/=|]).
  exact (Hlater j).
Qed.

End CodingMagic.

(** ** The encoding detector: the heading *)

Section Heading.
Implicit Types (l r text : str) (line data tail nl : bytes).

Lemma decode_app data1 data2 :
  Py.decode_ascii_replace (data1 ++ data2)
  = Py.decode_ascii_replace data1 ++ Py.decode_ascii_replace data2.
Proof. apply map_app. Qed.

(** Two different bytes are decoded to different characters when one of
    them is ASCII. *)
Lemma decode_byte_neq (x y : byte) :
  (Byte.to_N y < 128)%N →
  x ≠ y →
  (if (Byte.to_N x <? 128)%N then Byte.to_N x else 65533%N) ≠ Byte.to_N y.
Proof.
  intros Hy Hxy. destruct (Byte.to_N x <? 128)%N.
  - intros H. apply Hxy. pose proof (Byte.of_to_N x) as Hx.
    rewrite H, Byte.of_to_N in Hx. congruence.
  - intros H. rewrite <- H in Hy. discriminate.
Qed.

Lemma decode_one_line line :
  one_line line →
  Forall (λ c, c ≠ Py.NL ∧ c ≠ Py.CR) (Py.decode_ascii_replace line).
Proof.
  unfold Py.decode_ascii_replace. induction 1 as [|x line [Hnl Hcr] _ IH];
    simpl; constructor; [|exact IH].
  split.
  - by apply (decode_byte_neq x x0a).
  - by apply (decode_byte_neq x x0d).
Qed.

Lemma replace_crlf_app l r :
  Forall (λ c, c ≠ Py.CR) l →
  Py.replace_crlf (l ++ r) = l ++ Py.replace_crlf r.
Proof.
  induction 1 as [|x l Hx _ IH]; [reflexivity|].
  cbn [app]. rewrite <- IH. cbn [Py.replace_crlf].
  apply N.eqb_neq in Hx. rewrite Hx. cbn [andb].
  destruct (l ++ r) eqn:Hlr; [|reflexivity]. reflexivity.
Qed.

Lemma replace_cr_id l :
  Forall (λ c, c ≠ Py.CR) l → Py.replace_cr l = l.
Proof.
  unfold Py.replace_cr. induction 1 as [|x l Hx _ IH]; [reflexivity|].
  simpl. apply N.eqb_neq in Hx. by rewrite Hx, IH.
Qed.

Lemma split_app l r :
  Forall (λ c, c ≠ Py.NL) l →
  Py.split Py.NL (l ++ Py.NL :: r) = l :: Py.split Py.NL r.
Proof.
  induction 1 as [|x l Hx _ IH]; [reflexivity|].
  cbn [app Py.split]. apply N.eqb_neq in Hx. by rewrite Hx, IH.
Qed.

Lemma split_one l :
  Forall (λ c, c ≠ Py.NL) l → Py.split Py.NL l = [l].
Proof.
  induction 1 as [|x l Hx _ IH]; [reflexivity|].
  cbn [Py.split]. apply N.eqb_neq in Hx. by rewrite Hx, IH.
Qed.

(** A line without terminator is decoded as it is; what follows it is
    normalized on its own. *)
Lemma normalized_line line data :
  one_line line →
  normalized (line ++ data) = Py.decode_ascii_replace line ++ normalized data.
Proof.
  intros Hline. unfold normalized.
  pose proof (decode_one_line line Hline) as Hdec.
  assert (Hcr : Forall (λ c, c ≠ Py.CR) (Py.decode_ascii_replace line))
    by (eapply Forall_impl; [exact Hdec|]; by intros c [_ ?]).
  rewrite decode_app, replace_crlf_app by exact Hcr.
  unfold Py.replace_cr at 1. rewrite map_app.
  fold (Py.replace_cr (Py.decode_ascii_replace line)).
  by rewrite replace_cr_id by exact Hcr.
Qed.

(** A line terminator before a byte that is not a line feed becomes
    one newline. *)
Lemma normalized_line_end nl x data :
  line_end nl →
  x ≠ x0a →
  normalized (nl ++ x :: data) = Py.NL :: normalized (x :: data).
Proof.
  intros [->|[->| ->]] Hx; [reflexivity..|].
  unfold normalized. cbn [app Py.decode_ascii_replace map Py.replace_crlf].
  assert (((if (Byte.to_N x <? 128)%N then Byte.to_N x else 65533%N)
           =? Py.NL)%N = false) as ->; [|reflexivity].
  apply N.eqb_neq. by apply (decode_byte_neq x x0a).
Qed.

(** Behind a complete line the normalized text is empty or starts with a
    newline. *)
Lemma normalized_line_ended tail :
  line_ended tail →
  normalized tail = [] ∨ ∃ r, normalized tail = Py.NL :: r.
Proof.
  intros [->|(x & t & -> & [->| ->])]; [by left|right..]; unfold normalized.
  - destruct t as [|y t]; eexists; reflexivity.
  - destruct t as [|y t]; [by eexists|].
    cbn [Py.decode_ascii_replace map Py.replace_crlf].
    destruct (_ =? Py.NL)%N; eexists; reflexivity.
Qed.

Lemma line_ended_take n tail : line_ended tail → line_ended (take n tail).
Proof.
  intros [->|(x & t & -> & Hx)]; [left; by destruct n|].
  destruct n as [|n]; [by left|]. right. by exists x, (take n t).
Qed.

(** The text the patterns see when the second line of the heading is
    complete: the first two lines, each with one newline. *)
Lemma ascii_heading_two_lines line1 nl line2 tail :
  one_line line1 →
  line_end nl →
  one_line line2 →
  line2 ≠ [] →
  line_ended tail →
  ascii_heading_of (line1 ++ nl ++ line2 ++ tail)
  = Py.decode_ascii_replace line1
      ++ Py.NL :: Py.decode_ascii_replace line2 ++ [Py.NL].
Proof.
  intros Hline1 Hnl Hline2 Hne Htail.
  unfold ascii_heading_of. fold (normalized (line1 ++ nl ++ line2 ++ tail)).
  rewrite normalized_line by exact Hline1.
  destruct line2 as [|x line2]; [done|].
  rewrite <- app_comm_cons, normalized_line_end;
    [|exact Hnl|by inversion Hline2 as [|? ? [? _]]].
  rewrite app_comm_cons, normalized_line by exact Hline2.
  pose proof (decode_one_line _ Hline1) as Hdec1.
  pose proof (decode_one_line _ Hline2) as Hdec2.
  assert (Hnl1 : Forall (λ c, c ≠ Py.NL) (Py.decode_ascii_replace line1))
    by (eapply Forall_impl; [exact Hdec1|]; by intros c [? _]).
  assert (Hnl2 : Forall (λ c, c ≠ Py.NL) (Py.decode_ascii_replace (x :: line2)))
    by (eapply Forall_impl; [exact Hdec2|]; by intros c [? _]).
  rewrite split_app by exact Hnl1.
  destruct (normalized_line_ended tail Htail) as [->|[r ->]].
  - rewrite app_nil_r, split_one by exact Hnl2. cbn [firstn Py.join].
    by rewrite <- app_assoc.
  - rewrite split_app by exact Hnl2. cbn [firstn Py.join].
    by rewrite <- app_assoc.
Qed.

End Heading.

Section CodingHeading.
Context (W : World) (source_path fallback_encoding : str) (data : bytes).
Hypothesis Hread : read_binary W source_path = Ok data.
Hypothesis Hdata : data ≠ [].
Hypothesis Hbom :
  ∀ bom encoding,
    (bom, encoding) ∈ _BOM_TO_ENCODING_MAP → ¬ bom `prefix_of` data.

Lemma bom_loop_none : bom_loop (take 128 data) _BOM_TO_ENCODING_MAP = None.
Proof using Hbom.
  assert (H : ∀ items,
             (∀ bom encoding, (bom, encoding) ∈ items
                              → (bom, encoding) ∈ _BOM_TO_ENCODING_MAP) →
             bom_loop (take 128 data) items = None).
  { induction items as [|[bom encoding] items IH]; intros Hin; [reflexivity|].
    cbn [bom_loop]. rewrite bool_decide_eq_false_2.
    - apply IH. intros bom' encoding' H. apply Hin. by right.
    - rewrite take_eq_prefix, (bom_prefix_heading bom encoding).
      + apply (Hbom bom encoding), Hin. by left.
      + apply Hin. by left. }
  by apply H.
Qed.

(** Without a BOM, a match of the coding pattern in the heading gives
    the result. *)
Lemma encoding_for_coding_magic name :
  Regex.match_ _CODING_MAGIC_REGEX (ascii_heading_of (take 128 data))
  = Some (Some name) →
  encoding_for W source_path (u "automatic") fallback_encoding = Ok name.
Proof using Hread Hdata Hbom.
  intros Hmatch. unfold encoding_for.
  change (Py.str_eqb (u "automatic") (u "automatic")) with true. cbv iota.
  rewrite Hread, bind_Ok. cbv zeta.
  assert ((length (take 128 data) =? 0) = false) as ->
    by (by destruct data).
  rewrite bom_loop_none.
  unfold heading_encoding. cbv zeta. rewrite Hmatch. reflexivity.
Qed.

End CodingHeading.

(** C5, counterexample.  The second line of a file without BOM is
    [# -*- coding: latin-1 -*-], but its first line fills the 128 bytes of
    the heading: automatic mode resolves to utf-8.  So does it for a file
    that starts with [coding: latin-1], where no character comes before
    the declaration. *)
Lemma coding_declaration_beyond_heading :
  let data := replicate 128 x61 ++ [x0a] ++ b LATIN_1_DECLARATION ++ [x0a] in
  let W := Sample.world_of data (Ok (Py.decode_ascii_replace data))
             (Raise ClassNotFound) in
  let data' := b "coding: latin-1" ++ [x0a] in
  let W' := Sample.world_of data' (Ok (Py.decode_ascii_replace data'))
              (Raise ClassNotFound) in
  bom_loop (take 128 data) _BOM_TO_ENCODING_MAP = None
  ∧ Py.split Py.NL (normalized data) !! 1 = Some (u LATIN_1_DECLARATION)
  ∧ encoding_for W (u "a.py") (u "automatic") (u "cp1252") = Ok (u "utf-8")
  ∧ encoding_for W (u "a.py") (u "automatic") (u "cp1252") ≠ Ok (u "latin-1")
  ∧ bom_loop (take 128 data') _BOM_TO_ENCODING_MAP = None
  ∧ encoding_for W' (u "a.py") (u "automatic") (u "cp1252") = Ok (u "utf-8").
Proof.
  cbv zeta. repeat split; try (vm_compute; reflexivity).
  vm_compute. discriminate.
Qed.

(** C5, as amended.  In automatic mode, for a file that is not empty and
    starts with no BOM, the first 128 bytes are decoded as ASCII with
    replacement, the line ends are made uniform and the first two lines
    are kept; when the coding pattern matches this text, [encoding_for]
    returns the name it captures.  The pattern matches a declaration
    [coding], [:] or [=], spaces or tabs, name, when at least one
    character comes before it, the name ends with a word character, no
    name character follows the name and [coding] does not occur again
    after it.  In particular a file whose second line is
    [# -*- coding: latin-1 -*-] and lies within the first 128 bytes
    resolves to latin-1. *)
Theorem coding_declaration_in_heading
    (W : World) (source_path fallback_encoding : str) (data : bytes) :
  read_binary W source_path = Ok data →
  data ≠ [] →
  (∀ bom encoding,
      (bom, encoding) ∈ _BOM_TO_ENCODING_MAP → ¬ bom `prefix_of` data) →
  (∀ name,
      Regex.match_ _CODING_MAGIC_REGEX (ascii_heading_of (take 128 data))
      = Some (Some name) →
      encoding_for W source_path (u "automatic") fallback_encoding = Ok name)
  ∧ (∀ pre sep ws name rest,
        ascii_heading_of (take 128 data)
        = pre ++ u "coding" ++ sep :: ws ++ name ++ rest →
        pre ≠ [] →
        Py.char_in sep (u ":=") = true →
        Forall (λ c, Py.char_in c [32; 9]%N = true) ws →
        name ≠ [] →
        Forall (λ c, encoding_char c = true) name →
        from_option Regex.is_word false (last name) = true →
        from_option encoding_char false (head rest) = false →
        (∀ j, ¬ u "coding" `prefix_of` drop j (ws ++ name ++ rest)) →
        encoding_for W source_path (u "automatic") fallback_encoding = Ok name)
  ∧ (∀ line1 nl tail,
        data = line1 ++ nl ++ b LATIN_1_DECLARATION ++ tail →
        one_line line1 →
        line_end nl →
        line_ended tail →
        length line1 + length nl + length (b LATIN_1_DECLARATION) ≤ 128 →
        encoding_for W source_path (u "automatic") fallback_encoding
        = Ok (u "latin-1")).
Proof.
  intros Hread Hdata Hbom.
  pose proof (encoding_for_coding_magic W source_path fallback_encoding data
                Hread Hdata Hbom) as Hmagic.
  split; [exact Hmagic|].
  assert (Hdecl : ∀ pre sep ws name rest,
             ascii_heading_of (take 128 data)
             = pre ++ u "coding" ++ sep :: ws ++ name ++ rest →
             pre ≠ [] →
             Py.char_in sep (u ":=") = true →
             Forall (λ c, Py.char_in c [32; 9]%N = true) ws →
             name ≠ [] →
             Forall (λ c, encoding_char c = true) name →
             from_option Regex.is_word false (last name) = true →
             from_option encoding_char false (head rest) = false →
             (∀ j, ¬ u "coding" `prefix_of` drop j (ws ++ name ++ rest)) →
             encoding_for W source_path (u "automatic") fallback_encoding
             = Ok name).
  { intros pre sep ws name rest Htext Hpre Hsep Hws Hne Hname Hlast Hrest Hlater.
    apply Hmagic. rewrite Htext. by apply coding_magic_declaration. }
  split; [exact Hdecl|].
  intros line1 nl tail -> Hline1 Hnl Htail Hlen.
  apply (Hdecl (Py.decode_ascii_replace line1 ++ Py.NL :: u "# -*- ")
           58%N [32%N] (u "latin-1") (u " -*-" ++ [Py.NL])).
  - replace (take 128 (line1 ++ nl ++ b LATIN_1_DECLARATION ++ tail))
      with (line1 ++ nl ++ b LATIN_1_DECLARATION
              ++ take (128 - length (line1 ++ nl ++ b LATIN_1_DECLARATION)) tail).
    + rewrite ascii_heading_two_lines;
        [|exact Hline1|exact Hnl| |discriminate|by apply line_ended_take].
      * rewrite <- app_assoc. reflexivity.
      * unfold one_line. repeat (constructor; [split; discriminate|]).
        constructor.
    + rewrite !(assoc_L (++)), take_app_ge; [reflexivity|].
      rewrite !length_app. lia.
  - by destruct (Py.decode_ascii_replace line1).
  - reflexivity.
  - repeat constructor.
  - discriminate.
  - repeat constructor.
  - reflexivity.
  - reflexivity.
  - intros j. do 13 (destruct j as [|j]; [intros [t Ht]; discriminate|]).
    intros [t Ht]. rewrite drop_ge in Ht by (simpl; lia). discriminate.
Qed.

Lemma coding_declaration_in_heading_witness :
  let data := b "#!/usr/bin/env python" ++ [x0d; x0a] ++ b LATIN_1_DECLARATION
              ++ [x0d; x0a] ++ b "import os" in
  let W := Sample.world_of data (Ok (Py.decode_ascii_replace data))
             (Raise ClassNotFound) in
  let data' := b "# vim: set fileencoding=utf-8 :" ++ [x0a] in
  let W' := Sample.world_of data' (Ok (Py.decode_ascii_replace data'))
              (Raise ClassNotFound) in
  encoding_for W (u "a.py") (u "automatic") (u "cp1252") = Ok (u "latin-1")
  ∧ encoding_for W' (u "a.py") (u "automatic") (u "cp1252") = Ok (u "utf-8").
Proof.
  intros data W data' W'.
  assert (Hbom : ∀ (d : bytes) x, head d = Some x → x = x23 →
             ∀ bom encoding,
               (bom, encoding) ∈ _BOM_TO_ENCODING_MAP → ¬ bom `prefix_of` d).
  { intros d x Hd -> bom encoding Hin [t ->]. revert Hin Hd.
    unfold _BOM_TO_ENCODING_MAP. rewrite !elem_of_cons, elem_of_nil.
    intros [H|[H|[H|[H|[H|[]]]]]]; injection H as -> _; discriminate. }
  split.
  - refine (proj2 (proj2 (coding_declaration_in_heading W (u "a.py") (u "cp1252")
                            data _ _ _))
              (b "#!/usr/bin/env python") [x0d; x0a]
              ([x0d; x0a] ++ b "import os") _ _ _ _ _).
    + reflexivity.
    + discriminate.
    + by apply (Hbom data x23).
    + reflexivity.
    + unfold one_line. repeat (constructor; [split; discriminate|]). constructor.
    + right. left. reflexivity.
    + right. exists x0d, ([x0a] ++ b "import os"). split; [reflexivity|by right].
    + vm_compute. lia.
  - refine (proj1 (proj2 (coding_declaration_in_heading W' (u "a.py") (u "cp1252")
                            data' _ _ _))
              (u "# vim: set fileen") 61%N [] (u "utf-8")
              (u " :" ++ [Py.NL; Py.NL])
              _ _ _ _ _ _ _ _ _).
    + reflexivity.
    + discriminate.
    + by apply (Hbom data' x23).
    + vm_compute. reflexivity.
    + discriminate.
    + reflexivity.
    + constructor.
    + discriminate.
    + repeat constructor.
    + reflexivity.
    + reflexivity.
    + intros j. do 9 (destruct j as [|j]; [intros [t Ht]; discriminate|]).
      intros [t Ht]. rewrite drop_ge in Ht by (simpl; lia). discriminate.
Defined.

(** ** Configuration of the detector-based mode *)

Section Configuration.
Context (W : World).

(** The assertion on the detector fails in one case only. *)
Lemma encoding_for_assertion source_path encoding fallback_encoding :
  no_assertion_from_world W →
  encoding_for W source_path encoding fallback_encoding
  = Raise (AssertionError CHARDET_MESSAGE) →
  encoding = u "chardet" ∧ has_chardet W = false.
Proof.
  intros (Hbinary & Htext & _). unfold encoding_for, has_chardet.
  destruct (Py.str_eqb encoding (u "automatic")).
  - destruct (read_binary W source_path) as [data|e] eqn:Hdata.
    + rewrite bind_Ok. cbv zeta.
      match goal with
      | |- (match ?o with Some _ => _ | None => _ end ≫= _) = _ → _ =>
          destruct o as [r|]
      end.
      * rewrite bind_Ok. discriminate.
      * destruct (read_text W source_path (u "utf-8") (Some 16384%N))
          as [t|e] eqn:Hprobe; [discriminate|].
        destruct e; try discriminate.
        intros [= ->]. by destruct (Htext _ _ _ _ Hprobe).
    + intros [= ->]. by destruct (Hbinary _ _ Hdata).
  - destruct (Py.str_eqb encoding (u "chardet")) eqn:Hmode; [|discriminate].
    apply str_eqb_true in Hmode. destruct (_detector W) as [d|]; [|done].
    destruct (read_binary W source_path) as [data|e] eqn:Hdata.
    + rewrite bind_Ok.
      destruct (result_encoding d _); discriminate.
    + intros [= ->]. by destruct (Hbinary _ _ Hdata).
Qed.

End Configuration.

Section NotDeferred.
Context (W : World).

Lemma line_parts_assertion lexer text msg :
  _line_parts lexer text = Raise (AssertionError msg) → msg = ""%string.
Proof.
  unfold _line_parts, white_characters, white_code_words. cbv zeta.
  destruct (Py.islower (Py.lower (name lexer))); [discriminate|].
  by intros [= <-].
Qed.

Lemma source_analysis_assertion source_path group encoding fallback_encoding :
  no_assertion_from_world W →
  source_analysis W source_path group encoding fallback_encoding
  ≠ Raise (AssertionError CHARDET_MESSAGE).
Proof.
  intros Hworld. pose proof Hworld as (Hbinary & Htext & Hlexer).
  unfold source_analysis.
  destruct (get_lexer_for_filename W source_path) as [lexer|e] eqn:Hlex.
  - rewrite bind_Ok.
    destruct (Py.str_eqb encoding (u "automatic")) eqn:Hmode.
    + destruct (encoding_for W source_path encoding fallback_encoding)
        as [encoding'|e] eqn:Henc.
      * rewrite bind_Ok.
        destruct (read_text W source_path encoding' None) as [text|e] eqn:Hread.
        -- destruct (_line_parts lexer text) as [lines|e] eqn:Hlines;
             [discriminate|].
           intros [= ->]. apply line_parts_assertion in Hlines. discriminate.
        -- destruct e; try discriminate.
           intros [= ->]. by destruct (Htext _ _ _ _ Hread).
      * intros [= ->].
        apply encoding_for_assertion in Henc as [-> _]; [|exact Hworld].
        discriminate.
    + rewrite bind_Ok.
      destruct (read_text W source_path encoding None) as [text|e] eqn:Hread.
      * destruct (_line_parts lexer text) as [lines|e] eqn:Hlines;
          [discriminate|].
        intros [= ->]. apply line_parts_assertion in Hlines. discriminate.
      * destruct e; try discriminate.
        intros [= ->]. by destruct (Htext _ _ _ _ Hread).
  - destruct e; try discriminate.
    intros [= ->]. by destruct (Hlexer _ _ Hlex).
Qed.

End NotDeferred.

(** C6.  With no sniffer, the detector-based mode is rejected by the
    configuration step with a configuration error, and a run of the tool
    ends there without a call of [source_analysis].  Once the
    configuration step has passed, the assertion of [encoding_for] on the
    detector does not fail, and [source_analysis] does not raise it. *)
Theorem chardet_rejected_at_configuration (W : World) :
  (has_chardet W = false →
   check_encoding_mode W (u "chardet") = Raise ConfigurationError
   ∧ ∀ group fallback_encoding paths,
       run_tool W group (u "chardet") fallback_encoding paths
       = (0, Raise ConfigurationError))
  ∧ (no_assertion_from_world W →
     ∀ encoding,
       check_encoding_mode W encoding = Ok tt →
       ∀ source_path group fallback_encoding,
         encoding_for W source_path encoding fallback_encoding
         ≠ Raise (AssertionError CHARDET_MESSAGE)
         ∧ source_analysis W source_path group encoding fallback_encoding
           ≠ Raise (AssertionError CHARDET_MESSAGE)).
Proof.
  split.
  - intros Hno.
    assert (check_encoding_mode W (u "chardet") = Raise ConfigurationError) as Hcheck.
    { unfold check_encoding_mode. rewrite Hno. reflexivity. }
    split; [exact Hcheck|]. intros group fallback_encoding paths.
    unfold run_tool. by rewrite Hcheck.
  - intros Hworld encoding Hcheck source_path group fallback_encoding.
    split; [|by apply source_analysis_assertion].
    intros Hraise.
    apply encoding_for_assertion in Hraise as [-> Hno]; [|exact Hworld].
    unfold check_encoding_mode in Hcheck. rewrite Hno in Hcheck. discriminate.
Qed.

Lemma chardet_rejected_at_configuration_witness :
  let lexer := Sample.lexer_of "Python" Sample.assignment_with_comment in
  let W := Sample.world_of (b "x = 1") (Ok (u "x = 1")) (Ok lexer) in
  run_tool W (u "g") (u "chardet") (u "cp1252") [u "a.py"; u "b.py"]
  = (0, Raise ConfigurationError)
  ∧ encoding_for W (u "a.py") (u "automatic") (u "cp1252")
    ≠ Raise (AssertionError CHARDET_MESSAGE).
Proof.
  intros lexer W.
  destruct (chardet_rejected_at_configuration W) as [Hreject Hpass].
  split.
  - apply (proj2 (Hreject eq_refl)).
  - refine (proj1 (Hpass _ (u "automatic") eq_refl (u "a.py") (u "g") (u "cp1252"))).
    repeat split; discriminate.
Defined.

(** [source_analysis] hands a mode other than automatic to [open()] as the
    name of a codec, the detector-based mode included. *)
Lemma chardet_mode_is_opened_as_codec
    (W : World) (source_path group fallback_encoding : str)
    (lexer : Lexer) (e : exn) :
  get_lexer_for_filename W source_path = Ok lexer →
  read_text W source_path (u "chardet") None = Raise e →
  e ≠ OSError → e ≠ UnicodeDecodeError →
  source_analysis W source_path group (u "chardet") fallback_encoding = Raise e.
Proof.
  intros Hlexer Hread Hos Hdecode. unfold source_analysis.
  rewrite Hlexer, bind_Ok.
  change (Py.str_eqb (u "chardet") (u "automatic")) with false. cbv iota.
  rewrite bind_Ok, Hread. by destruct e.
Qed.

(** * Further properties *)

(** ** The modes of the encoding detector *)

Section Modes.
Context (W : World) (source_path : str).

(** In automatic mode, what [encoding_for] does once the file is read. *)
Lemma encoding_for_automatic fallback_encoding data :
  read_binary W source_path = Ok data →
  encoding_for W source_path (u "automatic") fallback_encoding
  = match
      (if length (take 128 data) =? 0 then Some (u "utf-8")
       else match bom_loop (take 128 data) _BOM_TO_ENCODING_MAP with
            | Some encoding => Some encoding
            | None => heading_encoding (take 128 data)
            end)
    with
    | Some encoding => Ok encoding
    | None =>
        match read_text W source_path (u "utf-8") (Some 16384%N) with
        | Ok _ => Ok (u "utf-8")
        | Raise UnicodeDecodeError => Ok fallback_encoding
        | Raise e => Raise e
        end
    end.
Proof.
  intros Hdata. unfold encoding_for.
  change (Py.str_eqb (u "automatic") (u "automatic")) with true. cbv iota.
  rewrite Hdata, bind_Ok. cbv zeta.
  destruct (length (take 128 data) =? 0); [reflexivity|].
  destruct (bom_loop (take 128 data) _BOM_TO_ENCODING_MAP); [reflexivity|].
  destruct (heading_encoding (take 128 data)); [reflexivity|].
  destruct (read_text W source_path (u "utf-8") (Some 16384%N)) as [t|e];
    [reflexivity|]. by destruct e.
Qed.

End Modes.

(** X1. In automatic mode the file is opened as text, and the fallback
    encoding looked at, only when the file is not empty, starts with no
    BOM and its heading names no encoding: in the other cases two worlds
    that hold the same bytes give the same answer, whatever reading the
    text does in them and whatever the fallback is.  An empty file is
    utf-8. *)
Theorem automatic_probe_is_last_resort
    (W W' : World) (source_path fallback_encoding fallback_encoding' : str)
    (data : bytes) :
  read_binary W source_path = Ok data →
  read_binary W' source_path = Ok data →
  data = []
  ∨ bom_loop (take 128 data) _BOM_TO_ENCODING_MAP ≠ None
  ∨ heading_encoding (take 128 data) ≠ None →
  encoding_for W source_path (u "automatic") fallback_encoding
  = encoding_for W' source_path (u "automatic") fallback_encoding'
  ∧ (∀ e, encoding_for W source_path (u "automatic") fallback_encoding
          ≠ Raise e)
  ∧ (data = [] →
     encoding_for W source_path (u "automatic") fallback_encoding
     = Ok (u "utf-8")).
Proof.
  intros Hdata Hdata' Hcase.
  rewrite (encoding_for_automatic W _ _ _ Hdata).
  rewrite (encoding_for_automatic W' _ _ _ Hdata').
  destruct (length (take 128 data) =? 0) eqn:Hlen.
  { repeat split; discriminate || done. }
  destruct Hcase as [->|Hcase]; [discriminate|].
  destruct (bom_loop (take 128 data) _BOM_TO_ENCODING_MAP) as [encoding|].
  { repeat split; try discriminate. intros ->. discriminate. }
  destruct Hcase as [|Hcase]; [done|].
  destruct (heading_encoding (take 128 data)) as [encoding|]; [|done].
  repeat split; try discriminate. intros ->. discriminate.
Qed.

Lemma automatic_probe_is_last_resort_witness :
  let data := [xef; xbb; xbf] ++ b "x = 1" in
  let W := Sample.world_of data (Raise OSError) (Raise ClassNotFound) in
  let W' := Sample.world_of data (Ok (u "x = 1")) (Raise ClassNotFound) in
  encoding_for W (u "a.py") (u "automatic") (u "cp1252")
  = encoding_for W' (u "a.py") (u "automatic") (u "latin-1")
  ∧ encoding_for (Sample.world_of [] (Raise OSError) (Raise ClassNotFound))
      (u "a.py") (u "automatic") (u "cp1252")
    = Ok (u "utf-8").
Proof.
  intros data W W'. split.
  - refine (proj1 (automatic_probe_is_last_resort W W' (u "a.py") (u "cp1252")
                     (u "latin-1") data _ _ _)).
    + reflexivity.
    + reflexivity.
    + right. left. vm_compute. discriminate.
  - refine (proj2 (proj2 (automatic_probe_is_last_resort
                     (Sample.world_of [] (Raise OSError) (Raise ClassNotFound))
                     (Sample.world_of [] (Raise OSError) (Raise ClassNotFound))
                     (u "a.py") (u "cp1252") (u "cp1252") [] _ _ _)) _).
    + reflexivity.
    + reflexivity.
    + by left.
    + reflexivity.
Defined.

(** X2. When the file is not empty, starts with no BOM and its heading
    names no encoding, the answer is that of reading the file as utf-8:
    utf-8 when the reading succeeds, the fallback encoding when it raises
    [UnicodeDecodeError], and any other exception is raised to the
    caller. *)
Theorem automatic_probe_decides
    (W : World) (source_path fallback_encoding : str) (data : bytes) :
  read_binary W source_path = Ok data →
  data ≠ [] →
  bom_loop (take 128 data) _BOM_TO_ENCODING_MAP = None →
  heading_encoding (take 128 data) = None →
  (∀ text, read_text W source_path (u "utf-8") (Some 16384%N) = Ok text →
           encoding_for W source_path (u "automatic") fallback_encoding
           = Ok (u "utf-8"))
  ∧ (read_text W source_path (u "utf-8") (Some 16384%N)
     = Raise UnicodeDecodeError →
     encoding_for W source_path (u "automatic") fallback_encoding
     = Ok fallback_encoding)
  ∧ (∀ e, read_text W source_path (u "utf-8") (Some 16384%N) = Raise e →
          e ≠ UnicodeDecodeError →
          encoding_for W source_path (u "automatic") fallback_encoding
          = Raise e).
Proof.
  intros Hdata Hne Hbom Hheading.
  rewrite (encoding_for_automatic W _ _ _ Hdata), Hbom, Hheading.
  assert ((length (take 128 data) =? 0) = false) as -> by (by destruct data).
  split; [by intros text ->|]. split; [by intros ->|].
  intros e -> He. by destruct e.
Qed.

Lemma automatic_probe_decides_witness :
  let data := b "x = " ++ [xe9; x0a] in
  let world text := Sample.world_of data text (Raise ClassNotFound) in
  encoding_for (world (Raise UnicodeDecodeError)) (u "a.py") (u "automatic")
    (u "cp1252") = Ok (u "cp1252")
  ∧ encoding_for (world (Raise OSError)) (u "a.py") (u "automatic")
      (u "cp1252") = Raise OSError
  ∧ encoding_for (world (Ok (u "x = "))) (u "a.py") (u "automatic")
      (u "cp1252") = Ok (u "utf-8").
Proof.
  intros data world.
  assert (Hbom : bom_loop (take 128 data) _BOM_TO_ENCODING_MAP = None)
    by (vm_compute; reflexivity).
  assert (Hheading : heading_encoding (take 128 data) = None)
    by (vm_compute; reflexivity).
  assert (Hne : data ≠ []) by discriminate.
  split; [|split].
  - refine (proj1 (proj2 (automatic_probe_decides (world (Raise UnicodeDecodeError))
                     (u "a.py") (u "cp1252") data eq_refl Hne Hbom Hheading)) _).
    reflexivity.
  - refine (proj2 (proj2 (automatic_probe_decides (world (Raise OSError))
                     (u "a.py") (u "cp1252") data eq_refl Hne Hbom Hheading))
              OSError _ _).
    + reflexivity.
    + discriminate.
  - refine (proj1 (automatic_probe_decides (world (Ok (u "x = ")))
                     (u "a.py") (u "cp1252") data eq_refl Hne Hbom Hheading)
              (u "x = ") _).
    reflexivity.
Defined.

(** X3. The fallback encoding is looked at in automatic mode only; and an
    encoding that is neither automatic nor chardet is returned as it is,
    in every world: the file is not touched. *)
Theorem explicit_encoding_is_returned
    (W : World) (source_path encoding : str) :
  encoding ≠ u "automatic" →
  (∀ fallback_encoding fallback_encoding',
      encoding_for W source_path encoding fallback_encoding
      = encoding_for W source_path encoding fallback_encoding')
  ∧ (encoding ≠ u "chardet" →
     ∀ W' fallback_encoding,
       encoding_for W' source_path encoding fallback_encoding = Ok encoding).
Proof.
  intros Hauto%str_eqb_false. split.
  - intros fallback_encoding fallback_encoding'. unfold encoding_for.
    by rewrite Hauto.
  - intros Hchardet%str_eqb_false W' fallback_encoding. unfold encoding_for.
    by rewrite Hauto, Hchardet.
Qed.

Lemma explicit_encoding_is_returned_witness :
  let W := Sample.world_of [] (Raise OSError) (Raise ClassNotFound) in
  encoding_for W (u "a.py") (u "latin-1") (u "cp1252") = Ok (u "latin-1").
Proof.
  intros W.
  refine (proj2 (explicit_encoding_is_returned W (u "a.py") (u "latin-1") _)
            _ W (u "cp1252")); discriminate.
Defined.

Section DetectorLoop.
Context (d : Detector).
Implicit Types (st : dstate d) (lines : list bytes).

Lemma fed_cons st line lines :
  fed d st (line :: lines) = fed d (feed d st line) lines.
Proof. reflexivity. Qed.

(** The loop with its [break] feeds a prefix of the lines: it goes on as
    long as the detector is not done and stops at the first line after
    which it is. *)
Lemma feed_lines_prefix st lines :
  ∃ n, n ≤ length lines
       ∧ feed_lines d st lines = fed d st (take n lines)
       ∧ (∀ m, 0 < m < n → done_ d (fed d st (take m lines)) = false)
       ∧ (n < length lines → 0 < n ∧ done_ d (fed d st (take n lines)) = true).
Proof.
  revert st. induction lines as [|line lines IH]; intros st.
  - exists 0. split; [reflexivity|]. split; [reflexivity|].
    split; [intros m Hm; lia|]. simpl. lia.
  - cbn [feed_lines]. destruct (done_ d (feed d st line)) eqn:Hdone.
    + exists 1. split; [simpl; lia|]. split; [reflexivity|].
      split; [intros m Hm; lia|]. intros _. split; [lia|exact Hdone].
    + destruct (IH (feed d st line)) as (n & Hn & Hfeed & Hbefore & Hstop).
      exists (S n). split; [simpl; lia|]. split; [exact Hfeed|]. split.
      * intros [|m] Hm; [lia|]. cbn [take]. rewrite fed_cons.
        destruct m as [|m]; [exact Hdone|]. apply Hbefore. lia.
      * intros Hlt. split; [lia|]. apply Hstop. simpl in Hlt. lia.
Qed.

End DetectorLoop.

(** X4. In chardet mode the detector is reset and fed the lines of the
    file in order, up to the first line after which it reports done and
    no further; the answer is the encoding it then names, and when it
    names none the call fails with an assertion error: the fallback
    encoding is not used. *)
Theorem chardet_feeds_until_done
    (W : World) (source_path fallback_encoding : str)
    (d : Detector) (data : bytes) :
  _detector W = Some d →
  read_binary W source_path = Ok data →
  ∃ n, n ≤ length (Py.readlines data)
       ∧ encoding_for W source_path (u "chardet") fallback_encoding
         = match result_encoding d
                   (fed d (reset d) (take n (Py.readlines data))) with
           | Some encoding => Ok encoding
           | None => Raise (AssertionError "")
           end
       ∧ (∀ m, 0 < m < n →
               done_ d (fed d (reset d) (take m (Py.readlines data))) = false)
       ∧ (n < length (Py.readlines data) →
          0 < n
          ∧ done_ d (fed d (reset d) (take n (Py.readlines data))) = true).
Proof.
  intros Hdetector Hdata.
  destruct (feed_lines_prefix d (reset d) (Py.readlines data))
    as (n & Hn & Hfeed & Hbefore & Hstop).
  exists n. split; [exact Hn|]. split; [|by split].
  unfold encoding_for.
  change (Py.str_eqb (u "chardet") (u "automatic")) with false.
  change (Py.str_eqb (u "chardet") (u "chardet")) with true. cbv iota.
  rewrite Hdetector, Hdata, !bind_Ok, Hfeed. reflexivity.
Qed.

Lemma chardet_feeds_until_done_witness :
  let data := b "one" ++ [x0a] ++ b "two" ++ [x0a] ++ b "three" in
  let W := world_with_detector counting_detector (Ok data) (Raise OSError)
             (Raise ClassNotFound) in
  ∃ n, n ≤ length (Py.readlines data)
       ∧ encoding_for W (u "a.py") (u "chardet") (u "cp1252")
         = match result_encoding counting_detector
                   (fed counting_detector (reset counting_detector)
                      (take n (Py.readlines data))) with
           | Some encoding => Ok encoding
           | None => Raise (AssertionError "")
           end
       ∧ (∀ m, 0 < m < n →
               done_ counting_detector
                 (fed counting_detector (reset counting_detector)
                    (take m (Py.readlines data))) = false)
       ∧ (n < length (Py.readlines data) →
          0 < n
          ∧ done_ counting_detector
              (fed counting_detector (reset counting_detector)
                 (take n (Py.readlines data))) = true).
Proof.
  intros data W.
  apply (chardet_feeds_until_done W (u "a.py") (u "cp1252") counting_detector
           data); reflexivity.
Defined.

(** The detector is done after the second of three lines: the third one
    is not fed, and an empty file gives the assertion error. *)
Example chardet_three_lines :
  let data := b "one" ++ [x0a] ++ b "two" ++ [x0a] ++ b "three" in
  let world data := world_with_detector counting_detector (Ok data)
                      (Raise OSError) (Raise ClassNotFound) in
  feed_lines counting_detector 0 (Py.readlines data) = 2
  ∧ encoding_for (world data) (u "a.py") (u "chardet") (u "cp1252")
    = Ok (u "utf-8")
  ∧ encoding_for (world []) (u "a.py") (u "chardet") (u "cp1252")
    = Raise (AssertionError "").
Proof. repeat split. Qed.

(** X5. With a world that raises no assertion error of its own,
    [encoding_for] fails an assertion in chardet mode only: when there is
    no detector, or when the detector names no encoding.  In automatic
    mode and for an explicit encoding its final assertion holds. *)
Theorem assertion_in_chardet_mode_only
    (W : World) (source_path encoding fallback_encoding : str) (msg : string) :
  no_assertion_from_world W →
  encoding_for W source_path encoding fallback_encoding
  = Raise (AssertionError msg) →
  encoding = u "chardet"
  ∧ (_detector W = None ∧ msg = CHARDET_MESSAGE
     ∨ (∃ d, _detector W = Some d) ∧ msg = ""%string).
Proof.
  intros (Hbinary & Htext & _).
  destruct (Py.str_eqb encoding (u "automatic")) eqn:Hauto.
  - apply str_eqb_true in Hauto as ->.
    destruct (read_binary W source_path) as [data|e] eqn:Hdata.
    + rewrite (encoding_for_automatic W _ _ _ Hdata).
      destruct (if length (take 128 data) =? 0 then _ else _); [discriminate|].
      destruct (read_text W source_path (u "utf-8") (Some 16384%N))
        as [t|e] eqn:Hprobe; [discriminate|].
      destruct e; try discriminate.
      intros [= ->]. by destruct (Htext _ _ _ _ Hprobe).
    + unfold encoding_for.
      change (Py.str_eqb (u "automatic") (u "automatic")) with true. cbv iota.
      rewrite Hdata. intros [= ->]. by destruct (Hbinary _ _ Hdata).
  - unfold encoding_for. rewrite Hauto.
    destruct (Py.str_eqb encoding (u "chardet")) eqn:Hmode; [|discriminate].
    apply str_eqb_true in Hmode as ->. intros H. split; [reflexivity|].
    destruct (_detector W) as [d|].
    + right. split; [by exists d|].
      destruct (read_binary W source_path) as [data|e] eqn:Hdata.
      * rewrite bind_Ok in H. rewrite bind_Ok in H.
        destruct (result_encoding d _); [discriminate|]. by injection H.
      * injection H as ->. by destruct (Hbinary _ _ Hdata).
    + left. split; [reflexivity|]. by injection H.
Qed.

Lemma assertion_in_chardet_mode_only_witness :
  let W := world_with_detector counting_detector (Ok []) (Raise OSError)
             (Raise ClassNotFound) in
  u "chardet" = u "chardet"
  ∧ (_detector W = None ∧ ""%string = CHARDET_MESSAGE
     ∨ (∃ d, _detector W = Some d) ∧ ""%string = ""%string).
Proof.
  intros W.
  apply (assertion_in_chardet_mode_only W (u "a.py") (u "chardet") (u "cp1252")).
  - repeat split; discriminate.
  - reflexivity.
Defined.

(** ** The table of byte order marks *)

Section BomTable.
Context (W : World) (source_path fallback_encoding : str) (data : bytes).
Hypothesis Hread : read_binary W source_path = Ok data.

(** The encoding of the first BOM of the table that starts the file is
    the answer of automatic mode. *)
Lemma encoding_for_first_bom before bom encoding after :
  _BOM_TO_ENCODING_MAP = before ++ (bom, encoding) :: after →
  bom `prefix_of` data →
  (∀ bom' encoding', (bom', encoding') ∈ before → ¬ bom' `prefix_of` data) →
  encoding_for W source_path (u "automatic") fallback_encoding = Ok encoding.
Proof using Hread.
  intros Hmap Hbom Hbefore.
  assert (Hin : ∀ bom' encoding', (bom', encoding') ∈ before ++ [(bom, encoding)]
                                  → (bom', encoding') ∈ _BOM_TO_ENCODING_MAP).
  { intros bom' encoding' H. rewrite Hmap.
    apply elem_of_app in H as [H|H%list_elem_of_singleton]; apply elem_of_app.
    - by left.
    - right. rewrite H. by left. }
  apply (encoding_for_bom W _ _ data); [exact Hread| |].
  - destruct Hbom as [rest ->].
    pose proof (bom_length bom encoding) as Hlen.
    destruct bom; [|done]. simpl in Hlen.
    assert (1 ≤ 0 ≤ 4); [|lia]. apply Hlen, Hin, elem_of_app. right. by left.
  - apply (bom_loop_first _ _ before bom encoding after Hmap).
    + apply (bom_prefix_heading bom encoding); [|exact Hbom].
      apply Hin, elem_of_app. right. by left.
    + intros bom' encoding' H Hprefix. apply (Hbefore bom' encoding' H).
      apply (bom_prefix_heading bom' encoding'); [|exact Hprefix].
      apply Hin, elem_of_app. by left.
Qed.

End BomTable.

(** X6. In automatic mode a file that starts with EF BB BF resolves to
    utf-8-sig, one that starts with FE FF to utf-16-be, one that starts
    with 00 00 FE FF to utf-32-be, and one that starts with FF FE to
    utf-16-le unless 00 00 follows, whatever else the file holds: a coding
    declaration behind a BOM is not looked at. *)
Theorem bom_table
    (W : World) (source_path fallback_encoding : str) (data : bytes) :
  read_binary W source_path = Ok data →
  ([xef; xbb; xbf] `prefix_of` data →
   encoding_for W source_path (u "automatic") fallback_encoding
   = Ok (u "utf-8-sig"))
  ∧ ([xfe; xff] `prefix_of` data →
     encoding_for W source_path (u "automatic") fallback_encoding
     = Ok (u "utf-16-be"))
  ∧ ([xff; xfe] `prefix_of` data → ¬ [xff; xfe; x00; x00] `prefix_of` data →
     encoding_for W source_path (u "automatic") fallback_encoding
     = Ok (u "utf-16-le"))
  ∧ ([x00; x00; xfe; xff] `prefix_of` data →
     encoding_for W source_path (u "automatic") fallback_encoding
     = Ok (u "utf-32-be")).
Proof.
  intros Hread. split; [|split; [|split]].
  - intros Hbom.
    apply (encoding_for_first_bom W _ _ data Hread [] [xef; xbb; xbf]
             (u "utf-8-sig") (tail _BOM_TO_ENCODING_MAP)); [reflexivity|done|].
    intros ? ? H. by apply elem_of_nil in H.
  - intros Hbom.
    apply (encoding_for_first_bom W _ _ data Hread
             (take 2 _BOM_TO_ENCODING_MAP) [xfe; xff] (u "utf-16-be")
             (drop 3 _BOM_TO_ENCODING_MAP)); [reflexivity|done|].
    other_boms Hbom.
  - intros Hbom Hnot.
    apply (encoding_for_first_bom W _ _ data Hread
             (take 3 _BOM_TO_ENCODING_MAP) [xff; xfe] (u "utf-16-le")
             (drop 4 _BOM_TO_ENCODING_MAP)); [reflexivity|done|].
    intros bom' encoding' H Hprefix.
    apply elem_of_cons in H as [H|H];
      [injection H as -> _; destruct Hprefix as [? ->], Hbom as [? Hbom];
       discriminate|].
    apply elem_of_cons in H as [H|H]; [injection H as -> _; done|].
    apply elem_of_cons in H as [H|H];
      [injection H as -> _; destruct Hprefix as [? ->], Hbom as [? Hbom];
       discriminate|].
    by apply elem_of_nil in H.
  - intros Hbom.
    apply (encoding_for_first_bom W _ _ data Hread
             (take 4 _BOM_TO_ENCODING_MAP) [x00; x00; xfe; xff] (u "utf-32-be")
             []); [reflexivity|done|].
    other_boms Hbom.
Qed.

Lemma bom_table_witness :
  let world data := Sample.world_of data (Raise OSError) (Raise ClassNotFound) in
  encoding_for (world ([xef; xbb; xbf] ++ b "# coding: latin-1" ++ [x0a]))
    (u "a.py") (u "automatic") (u "cp1252") = Ok (u "utf-8-sig")
  ∧ encoding_for (world ([xff; xfe] ++ [x61; x00]))
      (u "a.py") (u "automatic") (u "cp1252") = Ok (u "utf-16-le").
Proof.
  intros world. split.
  - refine (proj1 (bom_table (world _) (u "a.py") (u "cp1252") _ eq_refl) _).
    by eexists.
  - refine (proj1 (proj2 (proj2 (bom_table (world _) (u "a.py") (u "cp1252") _
                                   eq_refl))) _ _).
    + by eexists.
    + intros [t Ht]. discriminate.
Defined.

(** ** The XML prolog *)

Section StarFacts.
Context {A : Type}.
Implicit Types (p : N → bool) (prev : option N) (s text rest : str)
  (k : option N → str → option A).

(** When what follows gives one result only, so does the repetition. *)
Lemma star_range p prev text k m :
  (∀ prev' rest', k prev' rest' = None ∨ k prev' rest' = Some m) →
  Regex.star p prev text k = None ∨ Regex.star p prev text k = Some m.
Proof.
  intros Hk. revert prev. induction text as [|x text IH]; intros prev; simpl.
  - apply Hk.
  - destruct (p x); [|apply Hk].
    destruct (IH (Some x)) as [-> | ->]; [apply Hk|by right].
Qed.

Lemma lit_range s prev text k m :
  (∀ prev' rest', k prev' rest' = None ∨ k prev' rest' = Some m) →
  Regex.lit s prev text k = None ∨ Regex.lit s prev text k = Some m.
Proof.
  intros Hk. revert prev text. induction s as [|c s IH]; intros prev text.
  - apply Hk.
  - destruct text as [|x text]; simpl; [by left|].
    destruct (x =? c)%N; [apply IH|by left].
Qed.

(** When what follows gives one result only and gives it somewhere behind
    characters of the class, the repetition finds it. *)
Lemma star_found p prev s rest k m :
  (∀ prev' rest', k prev' rest' = None ∨ k prev' rest' = Some m) →
  Forall (λ c, p c = true) s →
  k (prev_after prev s) rest = Some m →
  Regex.star p prev (s ++ rest) k = Some m.
Proof.
  intros Hk Hs. revert prev. induction Hs as [|c s Hc _ IH]; intros prev Hm.
  - destruct rest as [|x rest]; simpl; [exact Hm|].
    destruct (p x); [|exact Hm].
    destruct (star_range p (Some x) rest k m Hk) as [-> | ->];
      [exact Hm|reflexivity].
  - cbn [app Regex.star]. rewrite Hc, (IH (Some c)); [reflexivity|].
    by rewrite (prev_after_cons prev).
Qed.

(** When what follows succeeds with one result at every position of a
    stretch that ends the characters of the class, the repetition gives
    this result. *)
Lemma star_within p prev s rest k m :
  from_option p false (head rest) = false →
  (∀ j, j ≤ length s → k (prev_after prev (take j s)) (drop j s ++ rest) = Some m) →
  Regex.star p prev (s ++ rest) k = Some m.
Proof.
  intros Hrest. revert prev. induction s as [|c s IH]; intros prev Hk.
  - rewrite star_stop by exact Hrest. apply (Hk 0). simpl. lia.
  - cbn [app Regex.star]. destruct (p c).
    + rewrite (IH (Some c)); [reflexivity|].
      intros j Hj. rewrite (prev_after_cons prev). apply (Hk (S j)). simpl. lia.
    + apply (Hk 0). simpl. lia.
Qed.

End StarFacts.

Section XmlProlog.
Implicit Types (prev : option N) (gap name before after text : str) (sp : N).

Lemma xml_prolog_unfold text :
  Regex.match_ _XML_PROLOG_REGEX text
  = Regex.lit (u "<?xml") None text (λ prev rest,
      Regex.plus Py.isspace prev rest (λ prev' rest',
        Regex.star Regex.not_newline prev' rest' xml_encoding_at)).
Proof. reflexivity. Qed.

Lemma quote_not_encoding_char : encoding_char 34 = false.
Proof. reflexivity. Qed.

(** An attribute [encoding="name"] at the match position, with [?>]
    further on the line, is matched and its name captured. *)
Lemma xml_encoding_at_attribute prev name before after :
  name ≠ [] →
  Forall (λ c, encoding_char c = true) name →
  Forall (λ c, Regex.not_newline c = true) before →
  xml_encoding_at prev
    (ENCODING_ATTRIBUTE ++ name ++ 34%N :: before ++ u "?>" ++ after)
  = Some (Some name).
Proof.
  intros Hne Hname Hpost.
  unfold xml_encoding_at, xml_encoding. cbn [Regex.seq Regex.run].
  rewrite lit_app.
  destruct name as [|c name]; [done|]. inversion Hname as [|? ? Hc Hname']; subst.
  cbn [app Regex.plus]. rewrite Hc.
  apply star_app; [exact Hname'|].
  rewrite star_stop by reflexivity.
  cbn [Regex.lit]. rewrite N.eqb_refl.
  assert (Hgroup : ∀ tail : str,
             take (length (c :: name ++ tail) - length tail) (c :: name ++ tail)
             = c :: name).
  { intros tail. rewrite app_comm_cons, length_app.
    replace (length (c :: name) + length tail - length tail)
      with (length (c :: name)) by lia.
    apply take_app_length. }
  rewrite Hgroup.
  apply star_found; [|exact Hpost|].
  - intros prev' rest'. apply lit_range. intros _ _. by right.
  - by rewrite lit_app.
Qed.

Lemma xml_encoding_at_fail prev text :
  ¬ ENCODING_ATTRIBUTE `prefix_of` text → xml_encoding_at prev text = None.
Proof.
  intros Hnot. unfold xml_encoding_at, xml_encoding.
  cbn [Regex.seq Regex.run]. by apply lit_fail.
Qed.

(** The pattern on a prolog: [<?xml], whitespace, anything on the line,
    the last attribute [encoding="name"], anything, [?>]. *)
Lemma xml_prolog_match sp gap name before after :
  Py.isspace sp = true →
  Forall (λ c, Regex.not_newline c = true) gap →
  name ≠ [] →
  Forall (λ c, encoding_char c = true) name →
  Forall (λ c, Regex.not_newline c = true) before →
  (∀ j, ¬ ENCODING_ATTRIBUTE
          `prefix_of` drop j (name ++ 34%N :: before ++ u "?>" ++ after)) →
  Regex.match_ _XML_PROLOG_REGEX
    (u "<?xml" ++ sp :: gap ++ ENCODING_ATTRIBUTE ++ name
       ++ 34%N :: before ++ u "?>" ++ after)
  = Some (Some name).
Proof.
  intros Hsp Hgap Hne Hname Hpost Hlater.
  rewrite xml_prolog_unfold, lit_app. cbn [Regex.plus]. rewrite Hsp.
  apply star_within; [reflexivity|].
  intros j Hj. apply star_app.
  { apply Forall_drop. exact Hgap. }
  rewrite star_back; [by apply xml_encoding_at_attribute|].
  intros i Hi. apply xml_encoding_at_fail.
  do 10 (destruct i as [|i]; [try lia; intros [t Ht]; discriminate|]).
  exact (Hlater i).
Qed.

End XmlProlog.

Lemma split_first_line (text : str) :
  Forall (λ c, Regex.not_newline c = true) (hd [] (Py.split Py.NL text)).
Proof.
  induction text as [|x text IH]; [constructor|]. cbn [Py.split].
  destruct (N.eqb_spec x Py.NL) as [->|Hx]; [constructor|].
  destruct (Py.split Py.NL text) as [|l ls]; simpl in *.
  - constructor; [|constructor]. unfold Regex.not_newline.
    by apply negb_true_iff, N.eqb_neq.
  - constructor; [|exact IH]. unfold Regex.not_newline.
    by apply negb_true_iff, N.eqb_neq.
Qed.

(** X7. In automatic mode, for a file that is not empty and starts with
    no BOM, when the coding pattern does not match the first two lines and
    the first line is [<?xml], a whitespace character, any text, an
    attribute [encoding="name"] that is the last one of the line, any
    text, [?>] and any text, [encoding_for] returns this name. *)
Theorem xml_prolog_encoding
    (W : World) (source_path fallback_encoding : str) (data : bytes)
    (sp : N) (gap name before after : str) :
  read_binary W source_path = Ok data →
  data ≠ [] →
  (∀ bom encoding,
      (bom, encoding) ∈ _BOM_TO_ENCODING_MAP → ¬ bom `prefix_of` data) →
  Regex.match_ _CODING_MAGIC_REGEX (ascii_heading_of (take 128 data)) = None →
  first_line_of (take 128 data)
  = u "<?xml" ++ sp :: gap ++ ENCODING_ATTRIBUTE ++ name
      ++ 34%N :: before ++ u "?>" ++ after →
  Py.isspace sp = true →
  name ≠ [] →
  Forall (λ c, encoding_char c = true) name →
  (∀ j, ¬ ENCODING_ATTRIBUTE
          `prefix_of` drop j (name ++ 34%N :: before ++ u "?>" ++ after)) →
  encoding_for W source_path (u "automatic") fallback_encoding = Ok name.
Proof.
  intros Hread Hdata Hbom Hcoding Hline Hsp Hne Hname Hlater.
  rewrite (encoding_for_automatic W _ _ _ Hread).
  assert ((length (take 128 data) =? 0) = false) as -> by (by destruct data).
  rewrite (bom_loop_none data Hbom).
  unfold heading_encoding. cbv zeta. rewrite Hcoding.
  fold (first_line_of (take 128 data)).
  pose proof (split_first_line (ascii_heading_of (take 128 data))) as Hnl.
  fold (first_line_of (take 128 data)) in Hnl. rewrite Hline in *.
  apply Forall_app in Hnl as [_ Hnl]. apply Forall_cons in Hnl as [_ Hnl].
  apply Forall_app in Hnl as [Hgap Hnl].
  apply Forall_app in Hnl as [_ Hnl]. apply Forall_app in Hnl as [_ Hnl].
  apply Forall_cons in Hnl as [_ Hnl]. apply Forall_app in Hnl as [Hbefore _].
  by rewrite xml_prolog_match.
Qed.

Lemma xml_prolog_encoding_witness :
  let data := b "<?xml version='1.0' encoding=" ++ [x22] ++ b "iso-8859-1"
              ++ [x22] ++ b " ?>" ++ [x0a] ++ b "<root/>" ++ [x0a] in
  let W := Sample.world_of data (Raise OSError) (Raise ClassNotFound) in
  encoding_for W (u "a.xml") (u "automatic") (u "cp1252") = Ok (u "iso-8859-1").
Proof.
  intros data W.
  apply (xml_prolog_encoding W (u "a.xml") (u "cp1252") data 32%N
           (u "version='1.0' ") (u "iso-8859-1") (u " ") []).
  - reflexivity.
  - discriminate.
  - intros bom encoding Hin [t Ht]. revert Hin.
    unfold _BOM_TO_ENCODING_MAP. rewrite !elem_of_cons, elem_of_nil.
    intros [H|[H|[H|[H|[H|[]]]]]]; injection H as -> _; discriminate.
  - vm_compute. reflexivity.
  - vm_compute. reflexivity.
  - reflexivity.
  - discriminate.
  - repeat constructor.
  - intros j. do 14 (destruct j as [|j]; [intros [t Ht]; discriminate|]).
    intros [t Ht]. rewrite drop_ge in Ht by (simpl; lia). discriminate.
Defined.

(** X8. The two patterns see the first two lines of the heading only:
    what follows a complete second line does not change the encoding the
    heading gives, so a declaration on the third line is not found. *)
Theorem heading_first_two_lines (line1 nl line2 tail tail' : bytes) :
  one_line line1 →
  line_end nl →
  one_line line2 →
  line2 ≠ [] →
  line_ended tail →
  line_ended tail' →
  heading_encoding (line1 ++ nl ++ line2 ++ tail)
  = heading_encoding (line1 ++ nl ++ line2 ++ tail')
  ∧ ascii_heading_of (line1 ++ nl ++ line2 ++ tail)
    = Py.decode_ascii_replace line1
        ++ Py.NL :: Py.decode_ascii_replace line2 ++ [Py.NL].
Proof.
  intros Hline1 Hnl Hline2 Hne Htail Htail'.
  pose proof (ascii_heading_two_lines line1 nl line2 tail
                Hline1 Hnl Hline2 Hne Htail) as Hheading.
  pose proof (ascii_heading_two_lines line1 nl line2 tail'
                Hline1 Hnl Hline2 Hne Htail') as Hheading'.
  split; [|exact Hheading].
  unfold heading_encoding. cbv zeta. by rewrite Hheading, Hheading'.
Qed.

Lemma heading_first_two_lines_witness :
  let tail := [x0a] ++ b "# coding: latin-1" ++ [x0a] in
  heading_encoding (b "#!/bin/sh" ++ [x0a] ++ b "# a script" ++ tail)
  = heading_encoding (b "#!/bin/sh" ++ [x0a] ++ b "# a script" ++ [])
  ∧ heading_encoding (b "#!/bin/sh" ++ [x0a] ++ b "# a script" ++ tail) = None.
Proof.
  intros tail. split; [|vm_compute; reflexivity].
  refine (proj1 (heading_first_two_lines (b "#!/bin/sh") [x0a] (b "# a script")
                   tail [] _ _ _ _ _ _)).
  - unfold one_line. repeat (constructor; [split; discriminate|]). constructor.
  - by left.
  - unfold one_line. repeat (constructor; [split; discriminate|]). constructor.
  - discriminate.
  - right. exists x0a, (b "# coding: latin-1" ++ [x0a]). split; [reflexivity|by left].
  - by left.
Defined.

(** ** The reclassifier and the delineator as token filters *)

Section Filters.
Implicit Types (st : bool) (tok : token) (tokens : list token).

Lemma delined_text_nil ty : delined_text ty [] = [].
Proof. rewrite delined_text_equation_1. reflexivity. Qed.

(** A text that is not empty and holds a newline at most at its end is
    yielded as it is. *)
Lemma delined_text_fixed ty (text : str) :
  text ≠ [] → newline_only_last text → delined_text ty text = [(ty, text)].
Proof.
  apply (delined_text_elim
           (λ ty text out,
              text ≠ [] → newline_only_last text → out = [(ty, text)])); clear.
  - intros ty text i Hfind _ _ Hne Hnl.
    assert (Hlen : i + 1 = length text).
    { apply find_Some in Hfind as [Hi _]. rewrite <- (Hnl i Hi). lia. }
    rewrite take_ge, drop_ge, delined_text_nil by lia. reflexivity.
  - intros ty text Hfind _ Hne _. apply str_eqb_false in Hne. by rewrite Hne.
Qed.

Lemma delined_tokens_fixed tokens :
  Forall (λ t : token, t.2 ≠ [] ∧ newline_only_last t.2) tokens →
  _delined_tokens tokens = tokens.
Proof.
  unfold _delined_tokens.
  induction 1 as [|[ty text] tokens [Hne Hnl] _ IH]; [reflexivity|].
  cbn [flat_map]. by rewrite delined_text_fixed, IH.
Qed.

Lemma delined_tokens_shape tokens :
  Forall (λ t : token, t.2 ≠ [] ∧ newline_only_last t.2) (_delined_tokens tokens).
Proof.
  unfold _delined_tokens. induction tokens as [|[ty text] tokens IH];
    [constructor|].
  cbn [flat_map]. apply Forall_app. split; [|exact IH].
  destruct (delined_text_slices ty text) as [Hall _].
  eapply Forall_impl; [exact Hall|]. by intros t (_ & ? & ?).
Qed.

End Filters.

(** X9. The reclassifier yields as many tokens as it reads, each with the
    text it has read; a token comes out as it went in, or it was a String
    token and comes out with the type Comment.  No other type is changed
    and no Comment becomes a String. *)
Theorem pythonized_changes_string_types_only (tokens : list token) :
  (_pythonized_comments tokens).*2 = tokens.*2
  ∧ Forall2 (λ tok out : token,
               out = tok
               ∨ (token.contains token.String tok.1 = true
                  ∧ out = (token.Comment, tok.2)))
            tokens (_pythonized_comments tokens).
Proof.
  unfold _pythonized_comments.
  pose proof (pythonized_loop_tokens true tokens) as Hall.
  split; [|exact Hall].
  induction Hall as [|tok out tokens outs Hout _ IH]; [reflexivity|].
  rewrite !fmap_cons, IH. f_equal. by destruct Hout as [->|[_ ->]].
Qed.

(** X10. Tokens whose texts are not empty and hold a newline at most at
    their end go through the delineator unchanged.  So the delineator
    yields its own output again: applying it twice is applying it
    once. *)
Theorem delined_tokens_idempotent (tokens : list token) :
  (Forall (λ t : token, t.2 ≠ [] ∧ newline_only_last t.2) tokens →
   _delined_tokens tokens = tokens)
  ∧ _delined_tokens (_delined_tokens tokens) = _delined_tokens tokens.
Proof.
  split; [apply delined_tokens_fixed|].
  apply delined_tokens_fixed, delined_tokens_shape.
Qed.

Lemma delined_tokens_idempotent_witness :
  _delined_tokens [(Sample.Name, u "x"); (Sample.Text, [Py.NL])]
  = [(Sample.Name, u "x"); (Sample.Text, [Py.NL])].
Proof.
  apply (proj1 (delined_tokens_idempotent _)).
  repeat constructor; try discriminate.
  - intros [|[|i]] Hi; simplify_eq/=.
  - intros [|i] Hi; simplify_eq/=. reflexivity.
Defined.

(** ** Lines and newlines *)

Section Newlines.
Implicit Types (text : str) (texts : list str) (tokens : list token)
  (marks : gset string).

Lemma newlines_app text1 text2 :
  newlines (text1 ++ text2) = newlines text1 + newlines text2.
Proof. unfold newlines. by rewrite filter_app, length_app. Qed.

Lemma newlines_none text : Py.NL ∉ text → newlines text = 0.
Proof.
  unfold newlines. induction text as [|x text IH]; [reflexivity|].
  rewrite not_elem_of_cons, filter_cons. intros [Hx Hrest].
  rewrite decide_False by congruence. by apply IH.
Qed.

(** A text that is not empty and holds a newline at most at its end holds
    one newline when it ends with one, and none else. *)
Lemma newlines_slice text :
  text ≠ [] → newline_only_last text →
  newlines text = if Py.endswith text Py.NL then 1 else 0.
Proof.
  intros Hne Hnl.
  destruct (exists_last Hne) as (l & x & ->).
  assert (Hl : newlines l = 0).
  { apply newlines_none. intros Hc.
    apply list_elem_of_lookup in Hc as [i Hi].
    pose proof (lookup_lt_Some _ _ _ Hi) as Hlt.
    specialize (Hnl i). rewrite lookup_app_l, length_app in Hnl by exact Hlt.
    specialize (Hnl Hi). simpl in Hnl. lia. }
  rewrite newlines_app, Hl. unfold newlines. rewrite filter_cons, filter_nil.
  destruct (Py.endswith (l ++ [x]) Py.NL) eqn:Hend.
  - apply endswith_last in Hend. rewrite last_snoc in Hend.
    injection Hend as ->. by rewrite decide_True.
  - rewrite decide_False; [reflexivity|]. intros ->.
    assert (Py.endswith (l ++ [Py.NL]) Py.NL = true); [|congruence].
    apply endswith_last, last_snoc.
Qed.

(** Behind the delineator the tokens that end a line are as many as the
    newlines of the texts. *)
Lemma line_closing_newlines tokens :
  Forall (λ t : token, t.2 ≠ [] ∧ newline_only_last t.2) tokens →
  line_closing tokens = newlines (concat (tokens.*2)).
Proof.
  induction 1 as [|[ty text] tokens [Hne Hnl] _ IH]; [reflexivity|].
  rewrite line_closing_cons, fmap_cons, concat_cons, newlines_app, IH.
  simpl in Hne, Hnl. change ((ty, text).2) with text.
  by rewrite (newlines_slice text Hne Hnl).
Qed.

Lemma delined_tokens_concat tokens :
  concat ((_delined_tokens tokens).*2) = concat (tokens.*2).
Proof.
  unfold _delined_tokens. induction tokens as [|[ty text] tokens IH];
    [reflexivity|].
  cbn [flat_map]. destruct (delined_text_slices ty text) as [_ Htext].
  by rewrite fmap_app, concat_app, Htext, IH.
Qed.

(** The last text decides whether the whole ends with a newline. *)
Lemma concat_last texts c :
  Forall (λ text, text ≠ []) texts →
  last (concat texts) = Some c →
  ∃ text, last texts = Some text ∧ last text = Some c.
Proof.
  induction 1 as [|text texts Hne Hall IH]; [discriminate|].
  rewrite concat_cons, last_app. destruct (last (concat texts)) as [c'|] eqn:Hc.
  - intros [= ->]. destruct (IH eq_refl) as (text' & Hlast & Hc').
    exists text'. split; [|exact Hc'].
    rewrite last_cons, Hlast. reflexivity.
  - intros Hlast. apply last_None in Hc. destruct texts as [|text' texts].
    + by exists text.
    + inversion Hall as [|? ? Hne' _]; subst.
      rewrite concat_cons in Hc. by apply app_eq_nil in Hc as [-> _].
Qed.

End Newlines.

(** The mark-sets of a text are as many as the newlines of what the lexer
    yields, and one more at most, for a last line without newline. *)
Lemma line_parts_newlines (lexer : Lexer) (text : str) (lines : list (gset string)) :
  _line_parts lexer text = Ok lines →
  newlines (concat ((get_tokens lexer text).*2)) ≤ length lines
  ∧ length lines ≤ newlines (concat ((get_tokens lexer text).*2)) + 1
  ∧ (concat ((get_tokens lexer text).*2) = []
     ∨ last (concat ((get_tokens lexer text).*2)) = Some Py.NL →
     length lines = newlines (concat ((get_tokens lexer text).*2))).
Proof.
  unfold _line_parts. cbv zeta.
  destruct (white_characters (Py.lower (name lexer))) as [chars|]; [|discriminate].
  rewrite bind_Ok.
  destruct (white_code_words (Py.lower (name lexer))) as [white_words|];
    [|discriminate].
  rewrite bind_Ok.
  set (delined := _delined_tokens (get_tokens lexer text)).
  set (tokens := if Py.str_eqb (name lexer) (u "Python")
                 then _pythonized_comments delined else delined).
  generalize (WHITESPACE ++ chars). intros white_text [= <-].
  assert (Htexts : tokens.*2 = delined.*2).
  { unfold tokens. destruct (Py.str_eqb (name lexer) (u "Python")); [|done].
    unfold _pythonized_comments.
    pose proof (pythonized_loop_tokens true delined) as Hall.
    induction Hall as [|tok out toks outs Hout _ IH]; [reflexivity|].
    rewrite !fmap_cons, IH. f_equal. by destruct Hout as [->|[_ ->]]. }
  pose proof (delined_tokens_shape (get_tokens lexer text)) as Hshape.
  fold delined in Hshape.
  assert (Hclosing : line_closing tokens
                     = newlines (concat ((get_tokens lexer text).*2))).
  { unfold line_closing. rewrite Htexts.
    fold (line_closing delined).
    rewrite line_closing_newlines by exact Hshape.
    unfold delined. by rewrite delined_tokens_concat. }
  destruct (line_parts_loop_length white_text white_words ∅ tokens)
    as (marks' & Hlen & Hnil & Hlast).
  destruct (line_parts_loop_nil_length white_text white_words marks')
    as [Hle Hzero].
  rewrite Hlen, Hclosing. split; [lia|]. split; [lia|].
  rewrite <- (delined_tokens_concat (get_tokens lexer text)). fold delined.
  intros Hcase. rewrite Hzero; [lia|].
  assert (Hne : Forall (λ text : str, text ≠ []) (delined.*2)).
  { apply Forall_fmap. eapply Forall_impl; [exact Hshape|]. by intros t [? _]. }
  destruct Hcase as [Hempty|Hnewline].
  - apply Hnil. apply fmap_nil_inv with (f := snd). rewrite Htexts.
    destruct (delined.*2) as [|t ts]; [done|].
    inversion Hne; subst. rewrite concat_cons in Hempty.
    by apply app_eq_nil in Hempty as [-> _].
  - destruct (concat_last _ _ Hne Hnewline) as (t & Ht & Hend).
    apply (Hlast t); [by rewrite Htexts|]. by apply endswith_last.
Qed.

(** X11. For a file that is analyzed, the four counts add up to the number
    of newlines in the texts of the tokens the lexer yields, or to one
    more; they add up to this number itself when these texts end with a
    newline or are empty. *)
Theorem counts_are_newlines
    (W : World) (source_path group encoding fallback_encoding : str)
    (lexer : Lexer) (encoding' text : str) (r : SourceAnalysis.t) :
  get_lexer_for_filename W source_path = Ok lexer →
  resolved_encoding W source_path encoding fallback_encoding = Ok encoding' →
  read_text W source_path encoding' None = Ok text →
  source_analysis W source_path group encoding fallback_encoding = Ok r →
  newlines (concat ((get_tokens lexer text).*2))
  ≤ SourceAnalysis.code r + SourceAnalysis.documentation r
    + SourceAnalysis.empty r + SourceAnalysis.string r
  ∧ SourceAnalysis.code r + SourceAnalysis.documentation r
    + SourceAnalysis.empty r + SourceAnalysis.string r
    ≤ newlines (concat ((get_tokens lexer text).*2)) + 1
  ∧ (concat ((get_tokens lexer text).*2) = []
     ∨ last (concat ((get_tokens lexer text).*2)) = Some Py.NL →
     SourceAnalysis.code r + SourceAnalysis.documentation r
     + SourceAnalysis.empty r + SourceAnalysis.string r
     = newlines (concat ((get_tokens lexer text).*2))).
Proof.
  intros Hlexer Henc Htext.
  destruct (_line_parts lexer text) as [lines|e] eqn:Hlines.
  - rewrite (source_analysis_counted W _ _ _ _ _ _ _ _ Hlexer Henc Htext Hlines).
    intros [= <-]. cbn [SourceAnalysis.code SourceAnalysis.documentation
                          SourceAnalysis.empty SourceAnalysis.string].
    rewrite lines_with_total. by apply line_parts_newlines.
  - unfold source_analysis. rewrite Hlexer, bind_Ok.
    fold (resolved_encoding W source_path encoding fallback_encoding).
    rewrite Henc, bind_Ok, Htext, Hlines. discriminate.
Qed.

Lemma counts_are_newlines_witness :
  let lexer := Sample.lexer_of "Python" Sample.assignment_with_comment in
  let text := u "x = 1  # note" ++ [Py.NL] in
  let W := Sample.world_of [] (Ok text) (Ok lexer) in
  let r := SourceAnalysis.mk (u "x.py") (Some (u "Python")) (u "g") 1 0 0 0 in
  last (concat ((get_tokens lexer text).*2)) = Some Py.NL
  ∧ SourceAnalysis.code r + SourceAnalysis.documentation r
    + SourceAnalysis.empty r + SourceAnalysis.string r
    = newlines (concat ((get_tokens lexer text).*2)).
Proof.
  intros lexer text W r. split; [reflexivity|].
  refine (proj2 (proj2 (counts_are_newlines W (u "x.py") (u "g") (u "latin-1")
                          (u "cp1252") lexer (u "latin-1") text r _ _ _ _)) _).
  - reflexivity.
  - reflexivity.
  - reflexivity.
  - vm_compute. reflexivity.
  - right. reflexivity.
Defined.

(** ** The marks and the counters *)

Section Marks.
Implicit Types (marks ms : gset string) (tok : token) (tokens : list token)
  (counts : gmap string nat).

Lemma increment_dom mark counts :
  mark ∈ dom counts → dom (increment mark counts) = dom counts.
Proof.
  intros Hin. unfold increment. rewrite dom_insert_L. set_solver.
Qed.

Lemma count_fold_dom counts (lines : list (gset string)) :
  (∀ line_parts, mark_to_increment line_parts ∈ dom counts) →
  dom (fold_left (λ m line_parts, increment (mark_to_increment line_parts) m)
                 lines counts)
  = dom counts.
Proof.
  revert counts. induction lines as [|line_parts lines IH]; intros counts Hin;
    [reflexivity|].
  cbn [fold_left]. rewrite IH; rewrite increment_dom by apply Hin; done.
Qed.

Lemma initial_counts_dom :
  dom ({[ "c" := 0; "d" := 0; "e" := 0; "s" := 0 ]}%string : gmap string nat)
  = list_to_set (_MARK_TO_NAME_MAP.*1).
Proof.
  rewrite !dom_insert_L, dom_singleton_L. cbn. set_solver.
Qed.

(** A token adds one of the marks code, documentation and string, or
    none; it adds documentation only when it is a Comment. *)
Lemma token_marks_added white_text white_words marks tok :
  token_marks white_text white_words marks tok
  ⊆ marks ∪ {["c"; "d"; "s"]}%string
  ∧ ("d"%string ∈ token_marks white_text white_words marks tok →
     "d"%string ∈ marks ∨ token.contains token.Comment tok.1 = true).
Proof.
  destruct tok as [ty text]. unfold token_marks. cbn [fst].
  destruct (token.contains token.Comment ty); [set_solver|].
  destruct (token.contains token.String ty); [set_solver|].
  cbv zeta. destruct (negb _); set_solver.
Qed.

Lemma line_parts_loop_marks white_text white_words marks tokens ms :
  ms ∈ line_parts_loop white_text white_words marks tokens →
  ms ⊆ marks ∪ {["c"; "d"; "s"]}%string
  ∧ ("d"%string ∈ ms →
     "d"%string ∈ marks
     ∨ Exists (λ tok, token.contains token.Comment tok.1 = true) tokens).
Proof.
  revert marks. induction tokens as [|[ty text] tokens IH]; intros marks.
  - cbn [line_parts_loop]. case_bool_decide; [|by intros ?%elem_of_nil].
    intros ->%list_elem_of_singleton. split; [set_solver|by left].
  - cbn [line_parts_loop].
    destruct (token_marks_added white_text white_words marks (ty, text))
      as [Hsub Hdoc].
    destruct (Py.endswith text Py.NL).
    + intros [->|Hin]%elem_of_cons.
      * split; [exact Hsub|]. intros [?|?]%Hdoc; [by left|].
        right. by apply Exists_cons_hd.
      * destruct (IH ∅ Hin) as [Hsub' Hdoc']. split; [set_solver|].
        intros [?%elem_of_empty|?]%Hdoc'; [done|].
        right. by apply Exists_cons_tl.
    + intros Hin. destruct (IH _ Hin) as [Hsub' Hdoc']. split; [set_solver|].
      intros [[?|?]%Hdoc|?]%Hdoc'.
      * by left.
      * right. by apply Exists_cons_hd.
      * right. by apply Exists_cons_tl.
Qed.

(** The delineator yields tokens of the types it reads. *)
Lemma delined_tokens_types (P : ttype → Prop) tokens :
  Exists (λ tok, P tok.1) (_delined_tokens tokens) →
  Exists (λ tok, P tok.1) tokens.
Proof.
  unfold _delined_tokens. induction tokens as [|[ty text] tokens IH].
  - by intros ?%Exists_nil.
  - cbn [flat_map]. intros [Hhere|Hthere]%Exists_app.
    + apply Exists_cons_hd. destruct (delined_text_slices ty text) as [Hall _].
      apply Exists_exists in Hhere as (t & Hin & Ht).
      rewrite Forall_forall in Hall. destruct (Hall t Hin) as [<- _]. exact Ht.
    + apply Exists_cons_tl. by apply IH.
Qed.

End Marks.

(** X12. The counter map keeps the four keys of [_MARK_TO_NAME_MAP]
    through the loop, and the mark a line is reduced to is one of them:
    the update [mark_to_count_map[mark_to_increment] += 1] always finds
    its key and adds none. *)
Theorem count_map_keys (lines : list (gset string)) :
  dom (count_lines lines) = list_to_set (_MARK_TO_NAME_MAP.*1)
  ∧ ∀ line_parts, mark_to_increment line_parts ∈ dom (count_lines lines).
Proof.
  assert (Hmark : ∀ line_parts : gset string,
             mark_to_increment line_parts
             ∈ (list_to_set (_MARK_TO_NAME_MAP.*1) : gset string)).
  { intros line_parts. pose proof (mark_to_increment_cases line_parts) as H.
    cbn. set_solver. }
  assert (dom (count_lines lines) = list_to_set (_MARK_TO_NAME_MAP.*1)) as ->;
    [|by split].
  unfold count_lines. rewrite count_fold_dom; [apply initial_counts_dom|].
  intros line_parts. rewrite initial_counts_dom. apply Hmark.
Qed.

(** X13. Every mark-set the classifier emits holds marks among code,
    documentation and string only.  It holds documentation only when the
    lexer has yielded a Comment token or, for the lexer named Python, a
    String token: for any other lexer a string is never counted as
    documentation. *)
Theorem documentation_needs_comment
    (lexer : Lexer) (text : str) (lines : list (gset string))
    (ms : gset string) :
  _line_parts lexer text = Ok lines →
  ms ∈ lines →
  ms ⊆ {["c"; "d"; "s"]}%string
  ∧ ("d"%string ∈ ms →
     Exists (λ tok : token,
               token.contains token.Comment tok.1 = true
               ∨ (name lexer = u "Python"
                  ∧ token.contains token.String tok.1 = true))
            (get_tokens lexer text)).
Proof.
  unfold _line_parts. cbv zeta.
  destruct (white_characters (Py.lower (name lexer))) as [chars|]; [|discriminate].
  rewrite bind_Ok.
  destruct (white_code_words (Py.lower (name lexer))) as [white_words|];
    [|discriminate].
  rewrite bind_Ok. generalize (WHITESPACE ++ chars). intros white_text [= <-] Hin.
  destruct (line_parts_loop_marks _ _ _ _ _ Hin) as [Hsub Hdoc].
  split; [set_solver|].
  intros [?%elem_of_empty|Hcomment]%Hdoc; [done|].
  destruct (Py.str_eqb (name lexer) (u "Python")) eqn:Hname.
  - apply str_eqb_true in Hname.
    assert (Exists (λ tok : token,
                      token.contains token.Comment tok.1 = true
                      ∨ token.contains token.String tok.1 = true)
                   (_delined_tokens (get_tokens lexer text))) as Hdelined.
    { unfold _pythonized_comments in Hcomment.
      pose proof (pythonized_loop_tokens true
                    (_delined_tokens (get_tokens lexer text))) as Hall.
      revert Hcomment. clear Hin Hdoc.
      induction Hall as [|tok out toks outs Hout _ IH].
      - by intros ?%Exists_nil.
      - intros [Hhere|Hthere]%Exists_cons.
        + apply Exists_cons_hd. destruct Hout as [->|[Hstring _]]; auto.
        + apply Exists_cons_tl. by apply IH. }
    apply (delined_tokens_types
             (λ ty, token.contains token.Comment ty = true
                    ∨ token.contains token.String ty = true)) in Hdelined.
    eapply Exists_impl; [exact Hdelined|]. intros tok [?|?]; auto.
  - apply (delined_tokens_types
             (λ ty, token.contains token.Comment ty = true)) in Hcomment.
    eapply Exists_impl; [exact Hcomment|]. auto.
Qed.

Lemma documentation_needs_comment_witness :
  let lexer :=
    Sample.lexer_of "Python 3"
      [(Sample.String_Doc, Sample.quoted "doc"); (Sample.Text, [Py.NL])] in
  ({["s"%string]} : gset string) ⊆ {["c"; "d"; "s"]}%string
  ∧ ("d"%string ∈ ({["s"%string]} : gset string) →
     Exists (λ tok : token,
               token.contains token.Comment tok.1 = true
               ∨ (name lexer = u "Python"
                  ∧ token.contains token.String tok.1 = true))
            (get_tokens lexer [])).
Proof.
  intros lexer.
  apply (documentation_needs_comment lexer [] [{["s"%string]}]).
  - vm_compute. reflexivity.
  - by left.
Defined.

(** ** What [source_analysis] returns and what it raises *)

(** X14. A record that [source_analysis] returns carries the path and the
    group it was called with.  Its language is absent exactly when no
    lexer was found for the path, and then its four counts are zero. *)
Theorem record_carries_path_and_group
    (W : World) (source_path group encoding fallback_encoding : str)
    (r : SourceAnalysis.t) :
  source_analysis W source_path group encoding fallback_encoding = Ok r →
  SourceAnalysis.path r = source_path
  ∧ SourceAnalysis.group r = group
  ∧ (SourceAnalysis.language r = None
     ↔ get_lexer_for_filename W source_path = Raise ClassNotFound)
  ∧ (SourceAnalysis.language r = None →
     SourceAnalysis.code r = 0 ∧ SourceAnalysis.documentation r = 0
     ∧ SourceAnalysis.empty r = 0 ∧ SourceAnalysis.string r = 0).
Proof.
  unfold source_analysis.
  destruct (get_lexer_for_filename W source_path) as [lexer|e] eqn:Hlexer.
  - rewrite bind_Ok.
    destruct (if Py.str_eqb encoding (u "automatic") then _ else _)
      as [encoding'|e]; [|discriminate].
    rewrite bind_Ok.
    destruct (read_text W source_path encoding' None) as [text|e].
    + destruct (_line_parts lexer text) as [lines|e]; [|discriminate].
      rewrite bind_Ok. intros [= <-]. repeat split; try discriminate.
    + destruct e; try discriminate; intros [= <-];
        repeat split; try discriminate.
  - destruct e; try discriminate. rewrite bind_Ok. intros [= <-].
    repeat split; done.
Qed.

Lemma record_carries_path_and_group_witness :
  let W := Sample.world_of [] (Ok []) (Raise ClassNotFound) in
  let r := SourceAnalysis.mk (u "a.zzz") None (u "g") 0 0 0 0 in
  SourceAnalysis.path r = u "a.zzz"
  ∧ SourceAnalysis.group r = u "g"
  ∧ (SourceAnalysis.language r = None
     ↔ get_lexer_for_filename W (u "a.zzz") = Raise ClassNotFound)
  ∧ (SourceAnalysis.language r = None →
     SourceAnalysis.code r = 0 ∧ SourceAnalysis.documentation r = 0
     ∧ SourceAnalysis.empty r = 0 ∧ SourceAnalysis.string r = 0).
Proof.
  intros W r.
  apply (record_carries_path_and_group W (u "a.zzz") (u "g") (u "automatic")
           (u "cp1252") r).
  reflexivity.
Defined.

(** X15. Only a failure of the final read with [OSError] or
    [UnicodeDecodeError] is recorded as an error record.  An exception of
    the lexer lookup other than [ClassNotFound], an exception of
    [encoding_for] in automatic mode (the file cannot be opened, say),
    and any other exception of the final read (an unknown encoding name,
    say) are raised to the caller. *)
Theorem other_failures_are_raised
    (W : World) (source_path group encoding fallback_encoding : str) (e : exn) :
  (get_lexer_for_filename W source_path = Raise e →
   e ≠ ClassNotFound →
   source_analysis W source_path group encoding fallback_encoding = Raise e)
  ∧ (∀ lexer,
        get_lexer_for_filename W source_path = Ok lexer →
        resolved_encoding W source_path encoding fallback_encoding = Raise e →
        source_analysis W source_path group encoding fallback_encoding
        = Raise e)
  ∧ (∀ lexer encoding',
        get_lexer_for_filename W source_path = Ok lexer →
        resolved_encoding W source_path encoding fallback_encoding
        = Ok encoding' →
        read_text W source_path encoding' None = Raise e →
        e ≠ OSError →
        e ≠ UnicodeDecodeError →
        source_analysis W source_path group encoding fallback_encoding
        = Raise e).
Proof.
  split; [|split].
  - intros Hlexer He. unfold source_analysis. rewrite Hlexer. by destruct e.
  - intros lexer Hlexer Henc. unfold source_analysis. rewrite Hlexer, bind_Ok.
    fold (resolved_encoding W source_path encoding fallback_encoding).
    by rewrite Henc.
  - intros lexer encoding' Hlexer Henc Hread Hos Hdecode.
    unfold source_analysis. rewrite Hlexer, bind_Ok.
    fold (resolved_encoding W source_path encoding fallback_encoding).
    rewrite Henc, bind_Ok, Hread. by destruct e.
Qed.

Lemma other_failures_are_raised_witness :
  let lexer := Sample.lexer_of "Python" Sample.assignment_with_comment in
  let missing := world_with_detector counting_detector (Raise OSError)
                   (Raise OSError) (Ok lexer) in
  let unknown := Sample.world_of (b "x = 1") (Raise LookupError) (Ok lexer) in
  source_analysis missing (u "a.py") (u "g") (u "automatic") (u "cp1252")
  = Raise OSError
  ∧ source_analysis unknown (u "a.py") (u "g") (u "no-such-codec") (u "cp1252")
    = Raise LookupError
  ∧ source_analysis missing (u "a.py") (u "g") (u "utf-8") (u "cp1252")
    = Ok (SourceAnalysis.mk (u "a.py") (Some (u "error")) (u "g") 0 0 0 0).
Proof.
  intros lexer missing unknown. split; [|split].
  - refine (proj1 (proj2 (other_failures_are_raised missing (u "a.py") (u "g")
                            (u "automatic") (u "cp1252") OSError))
              lexer _ _); reflexivity.
  - refine (proj2 (proj2 (other_failures_are_raised unknown (u "a.py") (u "g")
                            (u "no-such-codec") (u "cp1252") LookupError))
              lexer (u "no-such-codec") _ _ _ _ _);
      reflexivity || discriminate.
  - reflexivity.
Defined.

(** ** The configuration of a language *)

Section Language.

Lemma white_words_lookup (language_id : str) :
  language_id ≠ u "python" →
  language_id ≠ u "sql" →
  _LANGUAGE_TO_WHITE_WORDS_MAP !! language_id = None.
Proof.
  intros Hpython Hsql. unfold _LANGUAGE_TO_WHITE_WORDS_MAP.
  rewrite lookup_insert_ne by done. by rewrite lookup_singleton_ne.
Qed.

End Language.

(** X16. A language that is neither python nor sql has no white code
    words.  The identifier of a language must hold a lower-case letter:
    for a lexer whose name holds no letter at all, [source_analysis]
    reads the file and then fails with an assertion error instead of
    returning a record. *)
Theorem language_configuration
    (W : World) (source_path group encoding fallback_encoding : str) :
  (∀ language_id,
      Py.islower language_id = true →
      language_id ≠ u "python" →
      language_id ≠ u "sql" →
      white_code_words language_id = Ok []
      ∧ white_characters language_id = Ok (u "()[]{};"))
  ∧ (∀ lexer encoding' text,
        get_lexer_for_filename W source_path = Ok lexer →
        resolved_encoding W source_path encoding fallback_encoding
        = Ok encoding' →
        read_text W source_path encoding' None = Ok text →
        Forall (λ c, Regex.is_letter c = false ∧ (c < 128)%N) (name lexer) →
        source_analysis W source_path group encoding fallback_encoding
        = Raise (AssertionError "")).
Proof.
  split.
  - intros language_id Hlower Hpython Hsql.
    unfold white_code_words, white_characters. rewrite Hlower.
    by rewrite white_words_lookup.
  - intros lexer encoding' text Hlexer Henc Hread Hname.
    unfold source_analysis. rewrite Hlexer, bind_Ok.
    fold (resolved_encoding W source_path encoding fallback_encoding).
    rewrite Henc, bind_Ok, Hread.
    assert (Py.islower (Py.lower (name lexer)) = false) as Hlower.
    { unfold Py.islower. apply andb_false_intro1.
      apply not_true_iff_false. intros (c & Hin & Hc)%existsb_exists.
      unfold Py.lower in Hin. apply in_map_iff in Hin as (c' & <- & Hin').
      rewrite Forall_forall in Hname.
      destruct (Hname c') as [Hletter _]; [by apply list_elem_of_In|].
      unfold Regex.is_letter in Hletter.
      apply orb_false_iff in Hletter as [Hupper Hlow].
      rewrite Hupper in Hc. congruence. }
    unfold _line_parts, white_characters. cbv zeta. by rewrite Hlower.
Qed.

Lemma language_configuration_witness :
  let lexer := Sample.lexer_of "123" Sample.assignment_with_comment in
  let W := Sample.world_of [] (Ok []) (Ok lexer) in
  white_code_words (u "ruby") = Ok []
  ∧ source_analysis W (u "a.py") (u "g") (u "utf-8") (u "cp1252")
    = Raise (AssertionError "").
Proof.
  intros lexer W.
  destruct (language_configuration W (u "a.py") (u "g") (u "utf-8") (u "cp1252"))
    as [Hwords Hassert].
  split.
  - refine (proj1 (Hwords (u "ruby") _ _ _)); reflexivity || discriminate.
  - apply (Hassert lexer (u "utf-8") []); try reflexivity.
    repeat constructor.
Defined.

(** ** Hyphens and dots behind the name of an encoding *)

Section TrailingPunctuation.
Implicit Types (prev : option N) (pre ws name dashes rest text : str) (sep : N).

(** When what follows fails behind each character of a stretch that ends
    the characters of the class, the repetition gives the stretch
    back. *)
Lemma star_back_within {A} (p : N → bool) prev (s : str) rest
    (k : option N → str → option A) :
  from_option p false (head rest) = false →
  (∀ j, 0 < j ≤ length s →
        k (prev_after prev (take j s)) (drop j s ++ rest) = None) →
  Regex.star p prev (s ++ rest) k = k prev (s ++ rest).
Proof.
  intros Hrest. revert prev. induction s as [|c s IH]; intros prev Hk.
  - by apply star_stop.
  - cbn [app Regex.star]. destruct (p c); [|reflexivity].
    rewrite IH.
    + assert (k (Some c) (s ++ rest) = None) as ->; [|reflexivity].
      apply (Hk 1). simpl. lia.
    + intros j Hj. rewrite (prev_after_cons prev). apply (Hk (S j)). simpl. lia.
Qed.

Lemma not_word_prev prev (s : str) :
  s ≠ [] →
  Forall (λ c, Regex.is_word c = false) s →
  from_option Regex.is_word false (prev_after prev s) = false.
Proof.
  intros Hne Hs. unfold prev_after.
  destruct (last s) as [c|] eqn:Hlast; [|by apply last_None in Hlast].
  apply last_Some_elem_of in Hlast. rewrite Forall_forall in Hs.
  by apply Hs.
Qed.

(** A declaration whose name is followed by hyphens or dots: the name is
    captured without them. *)
Lemma declaration_at_trailing prev sep ws name dashes rest :
  Py.char_in sep (u ":=") = true →
  Forall (λ c, Py.char_in c [32; 9]%N = true) ws →
  name ≠ [] →
  Forall (λ c, encoding_char c = true) name →
  from_option Regex.is_word false (last name) = true →
  Forall (λ c, Py.char_in c (u "-.") = true) dashes →
  from_option encoding_char false (head rest) = false →
  declaration_at prev (u "coding" ++ sep :: ws ++ name ++ dashes ++ rest)
  = Some (Some name).
Proof.
  intros Hsep Hws Hne Hname Hlast Hdashes Hrest.
  assert (Hdash : ∀ c, Py.char_in c (u "-.") = true →
                       encoding_char c = true ∧ Regex.is_word c = false).
  { intros c Hc. unfold Py.char_in in Hc. cbn [u existsb map
      list_ascii_of_string N_of_ascii N_of_digits] in Hc.
    apply orb_true_iff in Hc as [Hc|Hc].
    - apply N.eqb_eq in Hc. by subst.
    - apply orb_true_iff in Hc as [Hc|Hc]; [|done].
      apply N.eqb_eq in Hc. by subst. }
  assert (Hrest' : from_option Regex.is_word false (head rest) = false).
  { destruct (head rest) as [y|]; [|reflexivity]. simpl in *.
    destruct (Regex.is_word y) eqn:Hy; [|reflexivity].
    apply word_encoding_char in Hy. congruence. }
  unfold declaration_at, coding_declaration. cbn [Regex.seq Regex.run].
  rewrite lit_app. cbn [Regex.chr]. rewrite Hsep.
  destruct name as [|c name]; [done|]. inversion Hname as [|? ? Hc Hname']; subst.
  apply star_app; [exact Hws|].
  rewrite star_stop by (simpl; by apply encoding_char_not_blank).
  cbn [app Regex.plus]. rewrite Hc.
  apply star_app; [exact Hname'|].
  rewrite star_back_within; [| exact Hrest |].
  - assert (Regex.at_boundary (prev_after (Some c) name) (dashes ++ rest) = true)
      as ->.
    { unfold Regex.at_boundary. rewrite (prev_after_cons None).
      unfold prev_after. revert Hlast.
      destruct (last (c :: name)) as [z|]; [|done].
      cbn [from_option]. intros ->.
      destruct dashes as [|x dashes]; [cbn [app]; by rewrite Hrest'|].
      inversion Hdashes as [|? ? Hx _]; subst.
      cbn [app head from_option]. by destruct (Hdash x Hx) as [_ ->]. }
    do 2 f_equal.
    replace (length (c :: name ++ dashes ++ rest) - length (dashes ++ rest))
      with (length (c :: name))
      by (rewrite app_comm_cons, length_app; lia).
    apply (take_app_length (c :: name)).
  - intros j Hj.
    assert (Regex.at_boundary (prev_after (prev_after (Some c) name) (take j dashes))
              (drop j dashes ++ rest) = false) as ->; [|reflexivity].
    unfold Regex.at_boundary. rewrite not_word_prev.
    + destruct (drop j dashes) as [|x rest'] eqn:Hdrop;
        [cbn [app]; by rewrite Hrest'|].
      cbn [app head from_option xorb].
      assert (x ∈ dashes) as Hx.
      { rewrite <- (take_drop j dashes), Hdrop. apply elem_of_app. right. by left. }
      rewrite Forall_forall in Hdashes. by destruct (Hdash x (Hdashes x Hx)) as [_ ->].
    + destruct dashes; [simpl in Hj; lia|]. by destruct j; [lia|].
    + apply Forall_take. eapply Forall_impl; [exact Hdashes|].
      intros x Hx. by destruct (Hdash x Hx).
Qed.

End TrailingPunctuation.

(** X17. The name of a declaration is captured up to its last letter,
    digit or underscore: hyphens and dots that follow it are left out, so
    that [coding: utf-8-*-] names utf-8.  This holds in automatic mode
    for a file that is not empty and starts with no BOM, for a
    declaration in the first two lines of the heading with at least one
    character before it and no [coding] after it. *)
Theorem trailing_hyphens_are_dropped
    (W : World) (source_path fallback_encoding : str) (data : bytes)
    (pre : str) (sep : N) (ws name dashes rest : str) :
  read_binary W source_path = Ok data →
  data ≠ [] →
  (∀ bom encoding,
      (bom, encoding) ∈ _BOM_TO_ENCODING_MAP → ¬ bom `prefix_of` data) →
  ascii_heading_of (take 128 data)
  = pre ++ u "coding" ++ sep :: ws ++ name ++ dashes ++ rest →
  pre ≠ [] →
  Py.char_in sep (u ":=") = true →
  Forall (λ c, Py.char_in c [32; 9]%N = true) ws →
  name ≠ [] →
  Forall (λ c, encoding_char c = true) name →
  from_option Regex.is_word false (last name) = true →
  Forall (λ c, Py.char_in c (u "-.") = true) dashes →
  from_option encoding_char false (head rest) = false →
  (∀ j, ¬ u "coding" `prefix_of` drop j (ws ++ name ++ dashes ++ rest)) →
  encoding_for W source_path (u "automatic") fallback_encoding = Ok name.
Proof.
  intros Hread Hdata Hbom Htext Hpre Hsep Hws Hne Hname Hlast Hdashes Hrest
    Hlater.
  apply (encoding_for_coding_magic W _ _ data Hread Hdata Hbom).
  rewrite Htext, coding_magic_unfold. destruct pre as [|x pre]; [done|].
  cbn [app Regex.plus]. change (Regex.any_char x) with true. cbv iota.
  apply star_app; [by apply Forall_forall|].
  rewrite star_back; [by apply declaration_at_trailing|].
  intros j Hj. apply declaration_at_fail.
  assert (Hsepc : sep ≠ 99%N) by (intros ->; discriminate).
  do 7 (destruct j as [|j]; [try lia; intros [t Ht]; simplify_eq/=|]).
  exact (Hlater j).
Qed.

Lemma trailing_hyphens_are_dropped_witness :
  let data := b "# -*- coding: utf-8-*-" ++ [x0a] in
  let W := Sample.world_of data (Raise OSError) (Raise ClassNotFound) in
  encoding_for W (u "a.py") (u "automatic") (u "cp1252") = Ok (u "utf-8").
Proof.
  intros data W.
  apply (trailing_hyphens_are_dropped W (u "a.py") (u "cp1252") data
           (u "# -*- ") 58%N [32%N] (u "utf-8") (u "-")
           (u "*-" ++ [Py.NL; Py.NL])).
  - reflexivity.
  - discriminate.
  - intros bom encoding Hin [t Ht]. revert Hin.
    unfold _BOM_TO_ENCODING_MAP. rewrite !elem_of_cons, elem_of_nil.
    intros [H|[H|[H|[H|[H|[]]]]]]; injection H as -> _; discriminate.
  - vm_compute. reflexivity.
  - discriminate.
  - reflexivity.
  - repeat constructor.
  - discriminate.
  - repeat constructor.
  - reflexivity.
  - repeat constructor.
  - reflexivity.
  - intros j. do 11 (destruct j as [|j]; [intros [t Ht]; discriminate|]).
    intros [t Ht]. rewrite drop_ge in Ht by (simpl; lia). discriminate.
Defined.

(** ** Docstrings of several tokens *)

Section Docstrings.
Implicit Types (st : bool) (tok : token) (tokens run : list token).

(** In the after-colon state a String, a Comment and a whitespace token
    keep the state, and the String comes out as a Comment. *)
Lemma step_documentation tok :
  token.contains token.String tok.1 = true
  ∨ token.contains token.Comment tok.1 = true
  ∨ whitespace_only tok.2 →
  pythonized_step true tok = (true, as_documentation tok).
Proof.
  destruct tok as [ty text]. unfold as_documentation. cbn [fst snd].
  destruct (token.contains token.String ty) eqn:Hstring.
  - intros _. by apply step_string.
  - intros [|[Hcomment|Hws]]; [done| |].
    + unfold pythonized_step. rewrite Hstring, Hcomment.
      by destruct (Py.str_eqb text (u ":")).
    + rewrite step_other; auto using whitespace_only_not_colon.
Qed.

Lemma pythonized_loop_documentation run :
  Forall (λ tok, token.contains token.String tok.1 = true
                 ∨ token.contains token.Comment tok.1 = true
                 ∨ whitespace_only tok.2) run →
  pythonized_loop true run = as_documentation <$> run
  ∧ pythonized_state true run = true.
Proof.
  induction 1 as [|tok run Htok _ [IHloop IHstate]]; [done|].
  cbn [pythonized_loop].
  change (pythonized_state true (tok :: run))
    with (pythonized_state (pythonized_step true tok).1 run).
  rewrite (step_documentation tok Htok). cbn [fst]. by rewrite IHloop, fmap_cons.
Qed.

End Docstrings.

(** X18. A run of String, Comment and whitespace tokens at the start of
    the tokens, or behind a token whose text is a colon, is yielded with
    every String of the run turned into a Comment: a docstring that the
    delineator has cut into one token per line is documentation on each
    of its lines, also behind the comments that open a file. *)
Theorem docstring_run_is_documentation
    (pre : list token) (colon_type : ttype) (run post : list token) :
  Forall (λ tok : token,
            token.contains token.String tok.1 = true
            ∨ token.contains token.Comment tok.1 = true
            ∨ whitespace_only tok.2) run →
  take (length run) (_pythonized_comments (run ++ post))
  = as_documentation <$> run
  ∧ take (length run)
      (drop (length pre + 1)
         (_pythonized_comments (pre ++ (colon_type, u ":") :: run ++ post)))
    = as_documentation <$> run.
Proof.
  intros Hrun. unfold _pythonized_comments.
  destruct (pythonized_loop_documentation run Hrun) as [Hloop Hstate].
  assert (Htake : ∀ st, take (length run)
                          (pythonized_loop true run ++ pythonized_loop st post)
                        = as_documentation <$> run).
  { intros st. rewrite take_app_length'; [exact Hloop|].
    by rewrite pythonized_loop_length. }
  split.
  - rewrite pythonized_loop_app. apply Htake.
  - replace (pre ++ (colon_type, u ":") :: run ++ post)
      with ((pre ++ [(colon_type, u ":")]) ++ run ++ post)
      by (by rewrite <- app_assoc).
    rewrite pythonized_loop_app, drop_app_length'
      by (rewrite pythonized_loop_length, length_app; simpl; lia).
    rewrite pythonized_state_snoc, step_colon by reflexivity.
    rewrite pythonized_loop_app. apply Htake.
Qed.

Lemma docstring_run_is_documentation_witness :
  let q := [34; 34; 34]%N in
  let run :=
    [(Sample.Text, [Py.NL]); (Sample.Text, u "    ");
     (Sample.String_Doc, q ++ u "First line." ++ [Py.NL]);
     (Sample.String_Doc, u "    second line." ++ [Py.NL]);
     (Sample.String_Doc, u "    " ++ q); (Sample.Text, [Py.NL])] in
  take (length run)
    (drop (1 + 1)
       (_pythonized_comments
          ([(Sample.Keyword, u "else")] ++ (Sample.Punctuation, u ":")
             :: run ++ [(Sample.Keyword, u "pass")])))
  = as_documentation <$> run.
Proof.
  intros q run.
  refine (proj2 (docstring_run_is_documentation [(Sample.Keyword, u "else")]
                   Sample.Punctuation run [(Sample.Keyword, u "pass")] _)).
  repeat (constructor; [first [by left | right; right; reflexivity]|]).
  constructor.
Defined.
